(** * qmp: keyword canonicalisation, entry building and archive merge

    A shallow embedding of [scripts/daily_build.py] and
    [scripts/gen_keywords.py], with the properties their specification
    states about them.

    Conventions of the embedding:
    - a Python [str] is the list of its code points ([ustring]);
    - a Python [int] is a [Z]; list positions are [nat];
    - a value decoded from JSON is a [json] tree, a JSON object an
      association list read with [dict_get];
    - a function that can raise returns a [result];
    - the Unicode tables and the conversions of Python's runtime that the
      scripts call ([str.lower], [unicodedata.normalize], ...) are the
      members of the class [PyUnicode]; the facts about those tables that
      the properties rest on are the class [PyUnicodeLaws]. *)

From Stdlib Require Import ZArith NArith String Ascii SpecFloat Sorted.
From stdpp Require Import base tactics option list sorting gmap strings pretty.

Local Open Scope Z_scope.

(** ** Text *)

(** A Python [str]: its code points, in order. *)
Abbreviation ustring := (list N) (only parsing).

(** The code points of an ASCII literal. *)
Definition u (s : string) : ustring :=
  (fun a => N_of_ascii a) <$> list_ascii_of_string s.

(** [str] comparison: lexicographic on code points. *)
Fixpoint ustr_leb (a b : ustring) : bool :=
  match a, b with
  | [], _ => true
  | _ :: _, [] => false
  | x :: a', y :: b' =>
      if (x <? y)%N then true
      else if (y <? x)%N then false
      else ustr_leb a' b'
  end.

(** ** Exceptions *)

(** The three [raise ValueError(...)] statements of daily_build.py, by
    the error kind the specification gives each. *)
Inductive value_error :=
| InvalidDate      (* build_entry: FECHA invalida o ausente *)
| DuplicateDate    (* main: Ya existe una entrada con date=... *)
| RootNotList.     (* load_entries: no contiene una lista JSON en la raiz *)

Inductive exn :=
| ValueError (k : value_error)
| AttributeError       (* [x.get] on a value that is not a dict *)
| TypeError            (* [<] between a str and a value that is not one *)
| JSONDecodeError      (* [json.loads] on a text that is not JSON *)
| SystemExit           (* [die] of gen_keywords.py *)
| UnicodeEncodeError.  (* [write_text] on a str that UTF-8 does not encode *)

Definition ValidationError : exn := ValueError InvalidDate.
Definition DuplicateDateError : exn := ValueError DuplicateDate.
Definition MalformedArchiveError : exn := ValueError RootNotList.

Inductive result (A : Type) :=
| Ok (a : A)
| Err (e : exn).
Arguments Ok {A} a.
Arguments Err {A} e.

#[global] Instance result_ret : MRet result := fun A a => Ok a.
#[global] Instance result_bind : MBind result := fun A B f m =>
  match m with Ok a => f a | Err e => Err e end.

(** ** JSON values *)

#[warnings="-register-all"]
Inductive json :=
| JNull
| JBool (b : bool)
| JInt (z : Z)
| JFloat (f : spec_float)
| JStr (s : ustring)
| JArr (items : list json)
| JObj (members : list (string * json)).

(** A decoded JSON object, as a Python [dict]: its items, under
    distinct keys. *)
Definition dict := list (string * json).

(** [key in d], and the value [d[key]] when it is. *)
Fixpoint dict_get (key : string) (d : dict) : option json :=
  match d with
  | [] => None
  | (k, v) :: d' => if String.eqb k key then Some v else dict_get key d'
  end.

(** [d.get(key)]: [None] for a missing key. *)
Definition get (key : string) (d : dict) : json :=
  default JNull (dict_get key d).

(** [d.get(key, dflt)]. *)
Definition get_or (key : string) (dflt : json) (d : dict) : json :=
  default dflt (dict_get key d).

(** Truth value of a decoded value: [None], [False], zero, and the empty
    str, list and dict are false. *)
Definition truthy (v : json) : bool :=
  match v with
  | JNull => false
  | JBool b => b
  | JInt z => negb (z =? 0)
  | JFloat (S754_zero _) => false
  | JFloat _ => true
  | JStr [] | JArr [] | JObj [] => false
  | JStr _ | JArr _ | JObj _ => true
  end.

(** [a or b]. *)
Definition py_or (a b : json) : json := if truthy a then a else b.

(** [int(f)] for a float: truncation towards zero; [None] for nan and
    the infinities, on which it raises. *)
Definition int_of_float (f : spec_float) : option Z :=
  match f with
  | S754_zero _ => Some 0
  | S754_finite s m e =>
      let mag := if 0 <=? e then Z.pos m * 2 ^ e else Z.pos m / 2 ^ (- e) in
      Some (if s then - mag else mag)
  | _ => None
  end.

(** ** The runtime's tables *)

(** What the scripts take from Python's runtime and [unicodedata]. *)
Class PyUnicode := {
  isspace : N -> bool;             (* [c.isspace()]; also [\s] and [strip] *)
  isdecimal : N -> bool;           (* [\d] of [re] on a str pattern *)
  lower : ustring -> ustring;      (* [s.lower()] *)
  nfd : ustring -> ustring;        (* [unicodedata.normalize("NFD", s)] *)
  is_Mn : N -> bool;               (* [unicodedata.category(c) == "Mn"] *)
  int_of_str : ustring -> option Z;  (* [int(s)]; [None] when it raises *)
  repr : json -> ustring           (* [str(v)] for a value that is not a str *)
}.

(** A code point that [lower] leaves alone. *)
Definition lowered `{PyUnicode} (c : N) : Prop := lower [c] = [c].

(** The facts about the tables that the properties below use. Each
    holds of CPython's tables (Unicode 14): a newline is whitespace; the
    space is no mark and has no case; what [lower] returns is made of
    code points that [lower] leaves alone, a str made of such code
    points is left alone, and canonical decomposition yields only such
    code points from them. *)
Class PyUnicodeLaws `{PyUnicode} : Prop := {
  newline_isspace : isspace 10 = true;
  space_not_Mn : is_Mn 32 = false;
  space_lowered : lowered 32;
  lower_lowered : forall s, Forall lowered (lower s);
  lowered_lower : forall s, Forall lowered s -> lower s = s;
  nfd_lowered : forall s, Forall lowered s -> Forall lowered (nfd s)
}.

(** The facts about canonical decomposition that the properties of the
    normaliser use. Each holds of CPython's tables (Unicode 14): the
    code points of [nfd s] are those of the decompositions of the code
    points of [s]; a code point of a decomposition is not decomposed
    further, and no decomposition is empty; decomposing twice is
    decomposing once; the space is its own decomposition, and nothing
    moves across it; and the decomposition of a code point that is no
    whitespace holds no whitespace. *)
Class PyNfdLaws `{PyUnicode} : Prop := {
  nfd_elem_of : forall s c,
    c ∈ nfd s <-> exists d, d ∈ s /\ c ∈ nfd [d];
  nfd_decomposed : forall c d, d ∈ nfd [c] -> nfd [d] = [d];
  nfd_char_nonempty : forall c, nfd [c] <> [];
  nfd_idempotent : forall s, nfd (nfd s) = nfd s;
  nfd_space : forall a b, nfd (a ++ 32%N :: b) = nfd a ++ 32%N :: nfd b;
  nfd_not_space : forall c d,
    isspace c = false -> d ∈ nfd [c] -> isspace d = false
}.

(** ** Stable sorting *)

(** [list.sort(key=...)] and [sorted(..., key=...)] are stable; so is
    insertion from the right, and a list has one stable ordering. An
    element goes before the first one whose key does not come strictly
    first. [leb] is the order on keys: [Z.leb] for an ascending sort,
    its converse for [reverse=True], which keeps equal keys in their
    original order too. *)
Section StableSort.
Context {A K : Type} (leb : K -> K -> bool) (key : A -> K).

Fixpoint insert_on (x : A) (l : list A) : list A :=
  match l with
  | [] => [x]
  | y :: l' => if leb (key x) (key y) then x :: l else y :: insert_on x l'
  end.

Definition sort_on (l : list A) : list A := foldr insert_on [] l.

End StableSort.

(** ** Text normalisation, shared by both scripts *)

Section Text.
Context `{PyUnicode}.

(** [int(v)] under [try: ... except Exception:]; [None] when it raises. *)
Definition py_int (v : json) : option Z :=
  match v with
  | JInt z => Some z
  | JBool b => Some (if b then 1 else 0)
  | JFloat f => int_of_float f
  | JStr s => int_of_str s
  | JNull | JArr _ | JObj _ => None
  end.

(** [str(v)]. *)
Definition py_str (v : json) : ustring :=
  match v with
  | JStr s => s
  | _ => repr v
  end.

Fixpoint lstrip (s : ustring) : ustring :=
  match s with
  | [] => []
  | c :: s' => if isspace c then lstrip s' else s
  end.

Definition rstrip (s : ustring) : ustring := reverse (lstrip (reverse s)).

(** [s.strip()]. *)
Definition strip (s : ustring) : ustring := rstrip (lstrip s).

(** [re.sub(r"\s+", " ", s)]: each maximal run of whitespace becomes one
    U+0020. [in_run] says that the previous code point was whitespace. *)
Fixpoint sub_spaces (in_run : bool) (s : ustring) : ustring :=
  match s with
  | [] => []
  | c :: s' =>
      if isspace c
      then if in_run then sub_spaces true s' else 32%N :: sub_spaces true s'
      else c :: sub_spaces false s'
  end.

(** [strip_accents] of gen_keywords.py, and the second line of
    [normalize_no_accents]. *)
Definition strip_accents (s : ustring) : ustring :=
  filter (fun c => is_Mn c = false) (nfd s).

End Text.

(** ** Keywords *)

(** The dict [{"word": word, "weight": weight}] both scripts build. *)
Record Keyword := mkKeyword { word : ustring; weight : Z }.

#[global] Instance Keyword_eq_dec : EqDecision Keyword.
Proof. solve_decision. Defined.

Definition keyword_dict (kw : Keyword) : dict :=
  [("word", JStr (word kw)); ("weight", JInt (weight kw))]%string.

(** ** scripts/daily_build.py *)

Module DailyBuild.

Section Keywords.
Context `{PyUnicode}.

Definition normalize_no_accents (s : ustring) : ustring :=
  let s := lower (strip s) in
  let s := strip_accents s in
  sub_spaces false s.

(** One turn of the [for it in items] loop of [enforce_keyword_rules],
    on the pair of [cleaned] and [seen]. *)
Definition enforce_step (st : list Keyword * gset ustring) (it : dict)
  : list Keyword * gset ustring :=
  let '(cleaned, seen) := st in
  let word := py_or (py_or (get "word" it) (get "k" it)) (JStr []) in
  let w := py_or (py_or (get "weight" it) (get "w" it)) (JInt 1) in
  let w := default 1 (py_int w) in
  let w := if 3 <=? w then 3 else if w =? 2 then 2 else 1 in
  let word := normalize_no_accents (py_str word) in
  if decide (word = []) then st
  else if decide (word ∈ seen) then st
  else (cleaned ++ [mkKeyword word w], {[word]} ∪ seen).

(** [cleaned] when the loop ends. *)
Definition cleaned_of (items : list dict) : list Keyword :=
  (foldl enforce_step ([], ∅) items).1.

(** [cleaned.sort(key=lambda x: -x["weight"])]. *)
Definition sort_by_weight (cleaned : list Keyword) : list Keyword :=
  sort_on Z.leb (fun x => - weight x) cleaned.

Definition enforce_keyword_rules (items : list dict) : list Keyword :=
  take 30 (sort_by_weight (cleaned_of items)).

End Keywords.

(** The body of the [for i, kw in enumerate(kws)] loop of
    [redistribute_weights]: the weight of position [i]. *)
Definition band_weight (top3 mid2 i : Z) : Z :=
  if i <? top3 then 3
  else if i <? top3 + mid2 then 2
  else 1.

Definition redistribute_weights (kws : list Keyword) : list Keyword :=
  let n := Z.of_nat (length kws) in
  if n =? 0 then kws
  else
    let top3 := Z.min 5 n in
    let top3 := if 3 <=? n then Z.max 3 top3 else n in
    let remaining := n - top3 in
    let mid2 := Z.min 10 remaining in
    let mid2 := if 6 <=? remaining then Z.max 6 mid2 else remaining in
    imap (fun i kw =>
            {| word := word kw;
               weight := band_weight top3 mid2 (Z.of_nat i) |}) kws.

Section Generator.
Context `{PyUnicode}.

(** [it.get] of [enforce_keyword_rules] needs a dict. *)
Definition as_dict (v : json) : result dict :=
  match v with
  | JObj d => Ok d
  | _ => Err AttributeError
  end.

(** [call_openai_keywords] from [data = json.loads(resp.output_text)]
    on: what it does with the decoded response. [data.get] raises
    AttributeError when [data] is not a dict, and so does the loop of
    [enforce_keyword_rules] on an item that is not one. *)
Definition call_openai_keywords (data : json) : result (list Keyword) :=
  match data with
  | JObj d =>
      match get_or "keywords" (JArr []) d with
      | JArr kws =>
          items ← mapM as_dict kws;
          mret (redistribute_weights (enforce_keyword_rules items))
      | _ => mret []
      end
  | _ => Err AttributeError
  end.

End Generator.

(** *** The archive *)

(** The file at [JSON_PATH]: absent, of length zero, or holding the
    JSON text of [root]. *)
Inductive storage :=
| NoFile
| EmptyFile
| JsonFile (root : json).

(** [json.loads(path.read_text(encoding="utf-8"))] on an existing file;
    the empty text is not a JSON text. *)
Definition read_json (st : storage) : result json :=
  match st with
  | JsonFile root => Ok root
  | _ => Err JSONDecodeError
  end.

Definition load_entries (st : storage) : result (list json) :=
  match st with
  | NoFile => Ok []
  | _ =>
      data ← read_json st;
      match data with
      | JArr l => Ok l
      | _ => Err MalformedArchiveError
      end
  end.

(** The key [e.get("date", "")] of [sort_entries_desc], for the keys
    that [<] between strs orders: a str date, or none. Any other date is
    answered by the TypeError that comparing it with a str raises. *)
Definition date_key (e : json) : result ustring :=
  match e with
  | JObj d =>
      match get_or "date" (JStr []) d with
      | JStr s => Ok s
      | _ => Err TypeError
      end
  | _ => Err AttributeError
  end.

(** [sorted(entries, key=..., reverse=True)]: the keys are computed
    first, then the entries are put in descending order of their keys,
    equal keys in their original order. *)
Definition sort_entries_desc (entries : list json) : result (list json) :=
  keys ← mapM date_key entries;
  mret ((sort_on (fun a b => ustr_leb b a) fst (zip keys entries)).*2).

Record Analysis := mkAnalysis {
  poet : ustring;
  poem_title : ustring;
  poem_snippet : ustring;
  book_title : ustring
}.

(** The dict that [build_entry] returns. *)
Record ArchiveEntry := mkEntry {
  date : ustring;
  month : ustring;
  file : ustring;
  my_poem_title : ustring;
  my_poem_snippet : ustring;
  analysis : Analysis;
  keywords : list Keyword
}.

Definition keyword_json (kw : Keyword) : json := JObj (keyword_dict kw).

(** An [ArchiveEntry] as the value that is appended to [entries] and
    written to the file. *)
Definition entry_json (e : ArchiveEntry) : json :=
  JObj [("date", JStr (date e));
        ("month", JStr (month e));
        ("file", JStr (file e));
        ("my_poem_title", JStr (my_poem_title e));
        ("my_poem_snippet", JStr (my_poem_snippet e));
        ("analysis",
          JObj [("poet", JStr (poet (analysis e)));
                ("poem_title", JStr (poem_title (analysis e)));
                ("poem_snippet", JStr (poem_snippet (analysis e)));
                ("book_title", JStr (book_title (analysis e)))]);
        ("keywords", JArr (keyword_json <$> keywords e))]%string.

Section Entry.
Context `{PyUnicode}.

(** [re.match(r"^\d{4}-\d{2}-\d{2}$", date)]; without [re.MULTILINE],
    [$] is the end of the str or the place before a final newline. *)
Definition match_date (s : ustring) : bool :=
  match s with
  | y1 :: y2 :: y3 :: y4 :: h1 :: m1 :: m2 :: h2 :: d1 :: d2 :: rest =>
      forallb isdecimal [y1; y2; y3; y4] && (h1 =? 45)%N
      && forallb isdecimal [m1; m2] && (h2 =? 45)%N
      && forallb isdecimal [d1; d2]
      && match rest with
         | [] => true
         | [nl] => (nl =? 10)%N
         | _ => false
         end
  | _ => false
  end.

(** [meta.get(key, "").strip()]. *)
Definition meta_field (meta : gmap string ustring) (key : string) : ustring :=
  strip (default [] (meta !! key)).

Definition build_entry (meta : gmap string ustring) (txt_relpath : ustring)
    (keywords : list Keyword) : result ArchiveEntry :=
  let date := meta_field meta "date" in
  if negb (match_date date) then Err ValidationError
  else
    Ok {| date := date;
          month := take 7 date;
          file := txt_relpath;
          my_poem_title := meta_field meta "my_poem_title";
          my_poem_snippet := meta_field meta "my_poem_snippet";
          analysis :=
            {| poet := meta_field meta "poet";
               poem_title := meta_field meta "poem_title";
               poem_snippet := meta_field meta "poem_snippet";
               book_title := meta_field meta "book_title" |};
          keywords := keywords |}.

End Entry.

(** [e.get("date") == entry["date"]], where [entry["date"]] is a str. *)
Definition same_date (d : ustring) (e : json) : result bool :=
  match e with
  | JObj kv =>
      match get "date" kv with
      | JStr s => Ok (bool_decide (s = d))
      | _ => Ok false
      end
  | _ => Err AttributeError
  end.

(** [any(e.get("date") == entry["date"] for e in entries)]: the entries
    are looked at in order, up to the first with that date. *)
Fixpoint any_same_date (d : ustring) (entries : list json) : result bool :=
  match entries with
  | [] => Ok false
  | e :: rest =>
      b ← same_date d e;
      if b : bool then Ok true else any_same_date d rest
  end.

(** *** Writing the archive *)

(** A code point that UTF-8 does not encode: a surrogate, U+D800 to
    U+DFFF. [json.loads] returns one for an escape such as "\ud83d"
    that stands alone. *)
Definition is_surrogate (c : N) : bool := ((55296 <=? c) && (c <=? 57343))%N.

Definition str_encodable (s : ustring) : bool :=
  forallb (fun c => negb (is_surrogate c)) s.

(** Whether the text [json.dumps(v, ensure_ascii=False)] can be encoded
    as UTF-8: no str in [v] holds a surrogate. A key is a [string],
    which holds none. *)
Fixpoint encodable (v : json) : bool :=
  match v with
  | JStr s => str_encodable s
  | JArr items => forallb encodable items
  | JObj members =>
      forallb (fun kv => match kv with (_, x) => encodable x end) members
  | _ => true
  end.

(** [JSON_PATH.write_text(json.dumps(entries, ensure_ascii=False,
    indent=2) + "\n", encoding="utf-8")]: the outcome and the file
    afterwards. [write_text] opens the file for writing, which empties
    it, and then encodes the text; on a surrogate the encoder raises
    UnicodeEncodeError before anything is written, and the file stays
    empty. *)
Definition write_text (entries : list json) : result unit * storage :=
  if encodable (JArr entries) then (Ok tt, JsonFile (JArr entries))
  else (Err UnicodeEncodeError, EmptyFile).

(** The end of [main], from [entries = load_entries(JSON_PATH)] to
    [JSON_PATH.write_text(...)]: the outcome, with the [entries] that
    were written, and the file afterwards. *)
Definition merge (st : storage) (entry : ArchiveEntry)
  : result (list json) * storage :=
  match
    entries ← load_entries st;
    dup ← any_same_date (date entry) entries;
    if dup : bool then Err DuplicateDateError
    else sort_entries_desc (entries ++ [entry_json entry])
  with
  | Ok entries =>
      match write_text entries with
      | (Ok _, st') => (Ok entries, st')
      | (Err e, st') => (Err e, st')
      end
  | Err e => (Err e, st)
  end.

End DailyBuild.

(** ** scripts/gen_keywords.py *)

Module GenKeywords.

Section Keywords.
Context `{PyUnicode}.

(** [s] is a str here, so [(s or "")] is [s]. *)
Definition normalize_word (s : ustring) : ustring :=
  let s := lower (strip s) in
  let s := strip_accents s in
  sub_spaces false s.

Definition clamp_weight (w : json) : Z :=
  let w := default 1 (py_int w) in
  if 3 <? w then 3 else if w <? 1 then 1 else w.

(** The body of the [for item in data] loop of [parse_keywords_json]:
    the keyword appended for [item], if one is. *)
Definition clean_item (item : json) : option Keyword :=
  match item with
  | JObj d =>
      let word := normalize_word (py_str (get_or "word" (JStr []) d)) in
      if decide (word = []) then None
      else
        let weight := clamp_weight (get_or "weight" (JInt 1) d) in
        Some (mkKeyword word weight)
  | _ => None
  end.

(** [parse_keywords_json] from the decoded [data] on. *)
Definition parse_keywords_json (data : json) : result (list Keyword) :=
  let data :=
    match data with
    | JObj d => default data (dict_get "keywords" d)
    | _ => data
    end in
  match data with
  | JArr items => Ok (omap clean_item items)
  | _ => Err SystemExit
  end.

(** One turn of the loop of [dedupe_keep_best], on [seen] and [order]. *)
Definition dedupe_step (st : gmap ustring Z * list ustring) (k : Keyword)
  : gmap ustring Z * list ustring :=
  let '(seen, order) := st in
  match seen !! word k with
  | None => (<[word k := weight k]> seen, order ++ [word k])
  | Some best => (<[word k := Z.max best (weight k)]> seen, order)
  end.

(** Every word of [order] is a key of [seen], so [seen[w]] finds it. *)
Definition dedupe_keep_best (keywords : list Keyword) : list Keyword :=
  let '(seen, order) := foldl dedupe_step (∅, []) keywords in
  (fun w => mkKeyword w (seen !!! w)) <$> order.

(** [main] from [kws = parse_keywords_json(raw)] to [kws = kws[:30]],
    on the decoded response. *)
Definition main_keywords (data : json) : result (list Keyword) :=
  kws ← parse_keywords_json data;
  let kws := dedupe_keep_best kws in
  mret (take 30 kws).

End Keywords.

End GenKeywords.

(** ** The properties' vocabulary *)

Module Spec.

(** The band rule in the specification's words: the top band is the
    first min(5,n) entries when n >= 3 and all n otherwise; the middle
    band is the next min(10,r) of the r remaining entries when r >= 6
    and all r otherwise. *)
Definition top_band (n : Z) : Z := if 3 <=? n then Z.min 5 n else n.
Definition mid_band (r : Z) : Z := if 6 <=? r then Z.min 10 r else r.

(** The weight of rank [i] (from 0) in a list of [n] keywords. *)
Definition tier_of_rank (n i : Z) : Z :=
  let top := top_band n in
  let mid := mid_band (n - top) in
  if i <? top then 3 else if i <? top + mid then 2 else 1.

Section Words.
Context `{PyUnicode}.

(** Lowercase: [w.lower() == w]. *)
Definition lowercase (w : ustring) : Prop := lower w = w.

(** Accent-free: the word carries no combining mark (category Mn), on
    its own or inside a precomposed letter, so its canonical
    decomposition holds none. *)
Definition accent_free (w : ustring) : Prop :=
  Forall (fun c => is_Mn c = false) (nfd w).

(** Whitespace-collapsed: the only whitespace is U+0020, and no two
    whitespace code points are next to each other. *)
Definition whitespace_collapsed (w : ustring) : Prop :=
  Forall (fun c => isspace c = true -> c = 32%N) w
  /\ forall i a b, w !! i = Some a -> w !! S i = Some b ->
       isspace a = true -> isspace b = false.

(** What the specification asks of a returned word. *)
Definition clean_word (w : ustring) : Prop :=
  w <> [] /\ lowercase w /\ accent_free w /\ whitespace_collapsed w.

(** The pattern YYYY-MM-DD: ten code points, decimal digits around two
    hyphens. *)
Definition iso_date (s : ustring) : bool :=
  match s with
  | [y1; y2; y3; y4; h1; m1; m2; h2; d1; d2] =>
      forallb isdecimal [y1; y2; y3; y4; m1; m2; d1; d2]
      && (h1 =? 45)%N && (h2 =? 45)%N
  | _ => false
  end.


(** Already tiered: each weight is the weight of its rank under the
    band rule. *)
Definition tiered (kws : list Keyword) : Prop :=
  forall i kw, kws !! i = Some kw ->
    weight kw = tier_of_rank (Z.of_nat (length kws)) (Z.of_nat i).

(** An already-canonical, already-tiered list of at most 30 keywords, in
    the specification's words for a keyword: every word is non-empty,
    lowercase, accent-free and whitespace-collapsed, no word is there
    twice, and the weights are those of the band rule. *)
Definition canonical_tiered (kws : list Keyword) : Prop :=
  Forall (fun kw => clean_word (word kw)) kws
  /\ NoDup (word <$> kws)
  /\ tiered kws
  /\ (length kws <= 30)%nat.

(** Canonicalisation followed by re-tiering, as [call_openai_keywords]
    chains them. *)
Definition pipeline (items : list dict) : list Keyword :=
  DailyBuild.redistribute_weights (DailyBuild.enforce_keyword_rules items).

End Words.

(** The words of a list in the order of their first appearance. *)
Definition first_occurrences (ws : list ustring) : list ustring :=
  foldl (fun order w => if decide (w ∈ order) then order else order ++ [w])
    [] ws.

(** An element of a well-formed archive: a JSON object whose date, when
    it has one, is a str. *)
Definition archive_entry (e : json) : Prop :=
  exists d, e = JObj d
    /\ (dict_get "date" d = None \/ exists s, dict_get "date" d = Some (JStr s)).

(** An archive element with the date [d]. *)
Definition has_date (d : ustring) (e : json) : Prop :=
  exists kv, e = JObj kv /\ dict_get "date" kv = Some (JStr d).

(** The date an archive element is ordered by: [""] when it has none. *)
Definition entry_date (e : json) : ustring :=
  match e with
  | JObj d => match dict_get "date" d with Some (JStr s) => s | _ => [] end
  | _ => []
  end.

(** Sorted by date descending, dates compared as strs. *)
Definition sorted_by_date_desc (entries : list json) : Prop :=
  StronglySorted
    (fun a b => ustr_leb (entry_date b) (entry_date a) = true) entries.

End Spec.

(** ** Loop invariants *)

Module Invariants.
Import DailyBuild.

Section Enforce.
Context `{PyUnicode}.

(** What the loop of [enforce_keyword_rules] keeps true of [cleaned] and
    [seen]: [seen] holds the words of [cleaned], each of which is there
    once, is a non-empty result of the normaliser, and has a weight
    among 1, 2, 3. *)
Definition enforce_inv (st : list Keyword * gset ustring) : Prop :=
  (forall w, w ∈ st.2 <-> w ∈ word <$> st.1)
  /\ NoDup (word <$> st.1)
  /\ Forall (fun kw =>
       (exists s, word kw = normalize_no_accents s)
       /\ word kw <> [] /\ weight kw ∈ [1; 2; 3]) st.1.

End Enforce.


(** What the loop of [dedupe_keep_best] keeps true of [seen] and
    [order]: [order] lists the keys of [seen], each once. *)
Definition dedupe_inv (st : gmap ustring Z * list ustring) : Prop :=
  NoDup st.2 /\ forall w, w ∈ st.2 <-> is_Some (st.1 !! w).

End Invariants.

(** ** A fragment of the tables *)

(** Python's tables (Unicode 14) on Basic Latin, Latin-1 Supplement and
    Combining Diacritical Marks: U+0000..U+00FF and U+0300..U+036F. A code
    point outside these blocks is taken as a caseless, undecomposable
    symbol; whitespace is listed in full. [repr] renders None, the
    booleans and the integers, and nothing of floats and containers,
    which the samples below do not hold. *)
Module Latin1.

Local Open Scope N_scope.

Definition isspace (c : N) : bool :=
  bool_decide (c ∈
    [9; 10; 11; 12; 13; 28; 29; 30; 31; 32; 133; 160; 5760; 8192; 8193;
     8194; 8195; 8196; 8197; 8198; 8199; 8200; 8201; 8202; 8232; 8233;
     8239; 8287; 12288]).

Definition isdecimal (c : N) : bool := (48 <=? c) && (c <=? 57).

Definition lower_char (c : N) : N :=
  if ((65 <=? c) && (c <=? 90)) || ((192 <=? c) && (c <=? 214))
     || ((216 <=? c) && (c <=? 222))
  then c + 32 else c.

Definition lower (s : ustring) : ustring := lower_char <$> s.

(** Canonical decompositions, fully expanded. *)
Definition decompositions : list (N * list N) :=
  [
   (192, [65; 768]); (193, [65; 769]); (194, [65; 770]); (195, [65; 771]);
   (196, [65; 776]); (197, [65; 778]); (199, [67; 807]); (200, [69; 768]);
   (201, [69; 769]); (202, [69; 770]); (203, [69; 776]); (204, [73; 768]);
   (205, [73; 769]); (206, [73; 770]); (207, [73; 776]); (209, [78; 771]);
   (210, [79; 768]); (211, [79; 769]); (212, [79; 770]); (213, [79; 771]);
   (214, [79; 776]); (217, [85; 768]); (218, [85; 769]); (219, [85; 770]);
   (220, [85; 776]); (221, [89; 769]); (224, [97; 768]); (225, [97; 769]);
   (226, [97; 770]); (227, [97; 771]); (228, [97; 776]); (229, [97; 778]);
   (231, [99; 807]); (232, [101; 768]); (233, [101; 769]); (234, [101; 770]);
   (235, [101; 776]); (236, [105; 768]); (237, [105; 769]); (238, [105; 770]);
   (239, [105; 776]); (241, [110; 771]); (242, [111; 768]); (243, [111; 769]);
   (244, [111; 770]); (245, [111; 771]); (246, [111; 776]); (249, [117; 768]);
   (250, [117; 769]); (251, [117; 770]); (252, [117; 776]); (253, [121; 769]);
   (255, [121; 776]); (832, [768]); (833, [769]); (835, [787]);
   (836, [776; 769])
  ].

Fixpoint assoc {V : Type} (c : N) (table : list (N * V)) : option V :=
  match table with
  | [] => None
  | (k, v) :: table' => if k =? c then Some v else assoc c table'
  end.

Definition decompose (c : N) : list N := default [c] (assoc c decompositions).

(** Canonical combining classes other than 0: first, last, class. *)
Definition combining_classes : list (N * N * N) :=
  [
   (768, 788, 230); (789, 789, 232); (790, 793, 220); (794, 794, 232);
   (795, 795, 216); (796, 800, 220); (801, 802, 202); (803, 806, 220);
   (807, 808, 202); (809, 819, 220); (820, 824, 1); (825, 828, 220);
   (829, 836, 230); (837, 837, 240); (838, 838, 230); (839, 841, 220);
   (842, 844, 230); (845, 846, 220); (848, 850, 230); (851, 854, 220);
   (855, 855, 230); (856, 856, 232); (857, 858, 220); (859, 859, 230);
   (860, 860, 233); (861, 862, 234); (863, 863, 233); (864, 865, 234);
   (866, 866, 233); (867, 879, 230)
  ].

Fixpoint ccc_in (c : N) (table : list (N * N * N)) : N :=
  match table with
  | [] => 0
  | (first, last, k) :: table' =>
      if (first <=? c) && (c <=? last) then k else ccc_in c table'
  end.

Definition combining (c : N) : N := ccc_in c combining_classes.

(** Canonical ordering: within a run of marks, classes ascend and equal
    classes keep their order. [place c s] puts the mark [c] into the run
    of marks that [s] starts with. *)
Fixpoint place (c : N) (s : ustring) : ustring :=
  match s with
  | [] => [c]
  | d :: s' =>
      if (combining d =? 0) || (combining c <=? combining d)
      then c :: s
      else d :: place c s'
  end.

Fixpoint reorder (s : ustring) : ustring :=
  match s with
  | [] => []
  | c :: s' => if combining c =? 0 then c :: reorder s' else place c (reorder s')
  end.

Definition nfd (s : ustring) : ustring := reorder (s ≫= decompose).

(** Canonical order: in a run of marks the classes ascend. *)
Fixpoint ordered (s : ustring) : bool :=
  match s with
  | a :: (b :: _) as t =>
      ((combining a =? 0) || (combining b =? 0)
       || (combining a <=? combining b))
      && ordered t
  | _ => true
  end.

Definition is_Mn (c : N) : bool := (768 <=? c) && (c <=? 879).

(** [int(s)]: optional whitespace around an optional sign and decimal
    digits, single underscores allowed between digits. *)
Fixpoint digits (acc : Z) (after_digit : bool) (s : ustring) : option Z :=
  match s with
  | [] => if after_digit then Some acc else None
  | c :: s' =>
      if c =? 95 then if after_digit then digits acc false s' else None
      else if isdecimal c then digits (10 * acc + Z.of_N (c - 48))%Z true s'
      else None
  end.

Fixpoint skip_spaces (s : ustring) : ustring :=
  match s with
  | [] => []
  | c :: s' => if isspace c then skip_spaces s' else s
  end.

Definition int_of_str (s : ustring) : option Z :=
  match reverse (skip_spaces (reverse (skip_spaces s))) with
  | 43 :: s' => digits 0 false s'
  | 45 :: s' => Z.opp <$> digits 0 false s'
  | s' => digits 0 false s'
  end.

Definition repr (v : json) : ustring :=
  match v with
  | JNull => u "None"
  | JBool true => u "True"
  | JBool false => u "False"
  | JInt z => u (pretty z)
  | _ => []
  end.

End Latin1.

Definition latin1 : PyUnicode := {|
  isspace := Latin1.isspace;
  isdecimal := Latin1.isdecimal;
  lower := Latin1.lower;
  nfd := Latin1.nfd;
  is_Mn := Latin1.is_Mn;
  int_of_str := Latin1.int_of_str;
  repr := Latin1.repr
|}.

(** ** Sample inputs *)

Module Samples.
Import DailyBuild.

(** Candidates as a generator returns them: mixed case, accents, spare
    whitespace, a repeated word, weights out of range or missing. *)
Definition raw_candidates : list dict :=
  [ [("word", JStr [73; 108; 117; 115; 105; 243; 110]%N); ("weight", JInt 2)];
    [("word", JStr (u "  Mar   adentro ")); ("weight", JInt 7)];
    [("k", JStr (u "AMOR")); ("w", JStr (u "3"))];
    [("word", JStr (u "ilusion")); ("weight", JInt 3)];
    [("word", JStr (u "   ")); ("weight", JInt 3)];
    [("word", JStr (u "noche"))] ]%string.

(** A canonical, tiered list of seven keywords. *)
Definition tiered_keywords : list Keyword :=
  [ mkKeyword (u "amor") 3; mkKeyword (u "ilusion") 3; mkKeyword (u "mar") 3;
    mkKeyword (u "noche") 3; mkKeyword (u "mar adentro") 3;
    mkKeyword (u "sal") 2; mkKeyword (u "orilla") 2 ].

(** Thirty candidates of weight 1, then one of weight 3. *)
Definition numbered (i : nat) : Keyword := mkKeyword (u "k" ++ u (pretty i)) 1.
Definition late_core : Keyword := mkKeyword (u "nucleo") 3.
Definition thirty_one : list Keyword := (numbered <$> seq 0 30) ++ [late_core].

Definition entry_of (d : string) : ArchiveEntry :=
  {| date := u d; month := take 7 (u d);
     file := u "textos/" ++ u d ++ u ".txt";
     my_poem_title := []; my_poem_snippet := [];
     analysis := mkAnalysis [] [] [] [];
     keywords := [] |}.

(** The archive of the specification's example: one entry, of
    2025-02-01. *)
Definition february : json := JObj [("date"%string, JStr (u "2025-02-01"))].
Definition archive_file : storage := JsonFile (JArr [february]).

(** An archive whose one entry holds the str that [json.loads] returns
    for "t\ud83d": a letter and a lone surrogate. *)
Definition lone_surrogate : json :=
  JObj [("date"%string, JStr (u "2025-02-01"));
        ("my_poem_title"%string, JStr [116; 55357]%N)].
Definition surrogate_file : storage := JsonFile (JArr [lone_surrogate]).

(** Metadata with a date and a title only, and metadata whose date has
    whitespace around it. *)
Definition dated_meta : gmap string ustring :=
  {[ "date"%string := u "2025-03-10"; "my_poem_title"%string := u " Orilla " ]}.
Definition padded_meta : gmap string ustring :=
  {[ "date"%string := u " 2025-03-10 " ]}.

End Samples.

(** ** Vocabulary of the further properties *)

Module More.

(** [kw] carries a word of [kws] with the heaviest weight that the word
    has in [kws]. *)
Definition is_best (kws : list Keyword) (kw : Keyword) : Prop :=
  (exists k, k ∈ kws /\ word k = word kw /\ weight k = weight kw)
  /\ forall k, k ∈ kws -> word k = word kw -> weight k <= weight kw.

(** What the loop of [dedupe_keep_best] keeps true of [seen] once it
    has gone through [done]: every word of [done] is a key, and a key's
    value is the heaviest weight of that word in [done]. *)
Definition best_inv (done : list Keyword) (seen : gmap (list N) Z) : Prop :=
  (forall k, k ∈ done -> is_Some (seen !! word k))
  /\ forall w v, seen !! w = Some v -> is_best done (mkKeyword w v).

(** The keywords of a list whose word no earlier keyword carries: on a
    repeated word the first occurrence stays, with its own weight. *)
Definition first_wins (kws : list Keyword) : list Keyword :=
  foldl (fun kept k =>
           if decide (word k ∈ word <$> kept) then kept else kept ++ [k])
    [] kws.

Section Candidates.
Context `{PyUnicode}.

(** The candidate that an item is for [enforce_keyword_rules]: its
    word once normalised, with its weight as [clamp_weight] of
    gen_keywords.py clamps it; none when the word comes out empty. *)
Definition candidate (it : dict) : option Keyword :=
  let word :=
    DailyBuild.normalize_no_accents
      (py_str (py_or (py_or (get "word" it) (get "k" it)) (JStr []))) in
  if decide (word = []) then None
  else Some (mkKeyword word
               (GenKeywords.clamp_weight
                  (py_or (py_or (get "weight" it) (get "w" it)) (JInt 1)))).

End Candidates.

(** The dates of the archive elements that have one. *)
Definition dates (entries : list json) : list (list N) :=
  omap (fun e =>
          match e with
          | JObj d =>
              match dict_get "date" d with Some (JStr s) => Some s | _ => None end
          | _ => None
          end) entries.

(** A file in order: it loads as a well-formed archive that is sorted by
    date descending, holds no date twice and can be written back, no str
    in it holding a lone surrogate. *)
Definition archive_ok (st : DailyBuild.storage) : Prop :=
  exists entries,
    DailyBuild.load_entries st = Ok entries
    /\ Forall Spec.archive_entry entries
    /\ NoDup (dates entries)
    /\ Spec.sorted_by_date_desc entries
    /\ DailyBuild.encodable (JArr entries) = true.

End More.

(** ** scripts/daily_build.py: the parser and [main] *)

Module Parser.

Definition SECTION_HEADERS : list string := ["POEMA"; "POEMA_CITADO"; "TEXTO"].

Definition META_ALIASES : list (string * string) :=
  [("FECHA", "date"); ("DATE", "date");
   ("POETA", "poet"); ("POET", "poet");
   ("POEM_TITLE", "poem_title"); ("TITULO_POEMA", "poem_title");
   ("POEM_SNIPPET", "poem_snippet"); ("FRAGMENTO_POEMA", "poem_snippet");
   ("BOOK_TITLE", "book_title"); ("TITULO_LIBRO", "book_title");
   ("MY_POEM_TITLE", "my_poem_title"); ("MI_TITULO", "my_poem_title");
   ("MY_POEM_SNIPPET", "my_poem_snippet");
   ("MI_FRAGMENTO", "my_poem_snippet")]%string.

(** [META_ALIASES[k]] when [k in META_ALIASES]. *)
Fixpoint alias_in (k : list N) (table : list (string * string))
  : option string :=
  match table with
  | [] => None
  | (surface, canonical) :: table' =>
      if bool_decide (u surface = k) then Some canonical
      else alias_in k table'
  end.

(** [s.lstrip("\ufeff")], U+FEFF being the byte-order mark. *)
Fixpoint _strip_bom (s : list N) : list N :=
  match s with
  | [] => []
  | c :: s' => if (c =? 65279)%N then _strip_bom s' else s
  end.

(** [s.replace("\r\n", "\n")]. *)
Fixpoint replace_crlf (s : list N) : list N :=
  match s with
  | [] => []
  | c :: s' =>
      match s' with
      | d :: s'' =>
          if (c =? 13)%N && (d =? 10)%N then 10%N :: replace_crlf s''
          else c :: replace_crlf s'
      | [] => [c]
      end
  end.

(** The line boundaries of [str.splitlines]. *)
Definition is_linebreak (c : N) : bool :=
  bool_decide (c ∈ [10; 13; 11; 12; 28; 29; 30; 133; 8232; 8233]%N).

(** [s.splitlines()], [cur] being the line read so far: a boundary ends
    the line, "\r\n" counts as one boundary, and no empty line follows
    the last boundary. *)
Fixpoint splitlines_from (cur s : list N) : list (list N) :=
  match s with
  | [] => match cur with [] => [] | _ => [cur] end
  | c :: s' =>
      if is_linebreak c then
        cur :: match s' with
               | d :: s'' =>
                   if (c =? 13)%N && (d =? 10)%N then splitlines_from [] s''
                   else splitlines_from [] s'
               | [] => []
               end
      else splitlines_from (cur ++ [c]) s'
  end.

Definition splitlines (s : list N) : list (list N) := splitlines_from [] s.

(** [raw[a:b]] for [0 <= a] and [0 <= b]. *)
Definition slice (a b : nat) (raw : list N) : list N :=
  take (b - a) (drop a raw).

(** *** Regular expressions

    A pattern is a function from the text at the current position to
    the outcome of the match, given the pattern [k] for what follows; it
    tries its alternatives in the order in which [re] backtracks. A
    match returns what follows it in the text. *)
Section Regex.
Context `{PyUnicode} {R : Type}.

(** [\s*], greedy. *)
Fixpoint ws_star (k : list N -> option R) (s : list N) : option R :=
  match s with
  | [] => k []
  | c :: s' =>
      if isspace c
      then match ws_star k s' with Some r => Some r | None => k s end
      else k s
  end.

(** [p*] for a class [p] of code points, greedy. *)
Fixpoint class_star (p : N -> bool) (k : list N -> option R) (s : list N)
  : option R :=
  match s with
  | [] => k []
  | c :: s' =>
      if p c
      then match class_star p k s' with Some r => Some r | None => k s end
      else k s
  end.

(** [p+], greedy. *)
Definition class_plus (p : N -> bool) (k : list N -> option R) (s : list N)
  : option R :=
  match s with
  | c :: s' => if p c then class_star p k s' else None
  | [] => None
  end.

(** [.*?]: lazy; [.] is any code point but the newline. *)
Fixpoint dot_lazy (k : list N -> option R) (s : list N) : option R :=
  match k s with
  | Some r => Some r
  | None =>
      match s with
      | c :: s' => if (c =? 10)%N then None else dot_lazy k s'
      | [] => None
      end
  end.

(** One code point. *)
Definition lit (c : N) (k : list N -> option R) (s : list N) : option R :=
  match s with
  | d :: s' => if (d =? c)%N then k s' else None
  | [] => None
  end.

(** A literal word. *)
Fixpoint lits (w : list N) (k : list N -> option R) (s : list N) : option R :=
  match w with
  | [] => k s
  | c :: w' => lit c (lits w' k) s
  end.

(** [$] under [re.MULTILINE]: the end of the text, or before a newline. *)
Definition eol (k : list N -> option R) (s : list N) : option R :=
  match s with
  | [] => k s
  | c :: _ => if (c =? 10)%N then k s else None
  end.

(** [$] without [re.MULTILINE]: the end of the text, or before a newline
    that ends it. *)
Definition eos (k : list N -> option R) (s : list N) : option R :=
  match s with
  | [] => k s
  | [c] => if (c =? 10)%N then k s else None
  | _ => None
  end.

End Regex.

Section Parse.
Context `{PyUnicode}.

(** [\s*#\s*(h1|h2|...)\s*$] under [re.MULTILINE], at a place where [^]
    holds: the header matched and the text after the match. *)
Fixpoint names_alt (names : list string) (s : list N)
  : option (string * list N) :=
  match names with
  | [] => None
  | h :: names' =>
      match lits (u h) (ws_star (eol (fun rest => Some (h, rest)))) s with
      | Some r => Some r
      | None => names_alt names' s
      end
  end.

Definition header_at (names : list string) (s : list N)
  : option (string * list N) :=
  ws_star (lit 35 (ws_star (names_alt names))) s.

(** The matches of the header pattern from position [pos] on, as
    [re.finditer] yields them: start, header, end. [bol] says that [^]
    holds at [pos]; [skip] counts the code points that are still inside
    the previous match. *)
Fixpoint finditer (names : list string) (bol : bool) (skip pos : nat)
    (s : list N) : list (nat * string * nat) :=
  match s with
  | [] => []
  | c :: s' =>
      match skip with
      | S skip' => finditer names (c =? 10)%N skip' (S pos) s'
      | O =>
          match (if bol then header_at names s else None) with
          | Some (h, rest) =>
              let len := (length s - length rest)%nat in
              (pos, h, (pos + len)%nat)
              :: finditer names (c =? 10)%N (len - 1) (S pos) s'
          | None => finditer names (c =? 10)%N 0 (S pos) s'
          end
      end
  end.

(** [m = re.search(rf"(?m)^\s*#\s*{re.escape(h)}\s*$", raw)] and
    [m.start()]. *)
Definition search_header (h : string) (raw : list N) : option nat :=
  match finditer [h] true 0 0 raw with
  | (start, _, _) :: _ => Some start
  | [] => None
  end.

Definition first_header_pos (raw : list N) : nat :=
  foldl (fun pos h =>
           match search_header h raw with
           | Some start => Nat.min pos start
           | None => pos
           end) (length raw) SECTION_HEADERS.

(** The class [[A-Za-zÁÉÍÓÚÑ_]]. *)
Definition key_char (c : N) : bool :=
  ((65 <=? c) && (c <=? 90))%N || ((97 <=? c) && (c <=? 122))%N
  || bool_decide (c ∈ [193; 201; 205; 211; 218; 209; 95]%N).

(** [re.match(r"^\s*([A-Za-zÁÉÍÓÚÑ_]+)\s*:\s*(.*?)\s*$", line)]: the two
    groups. *)
Definition match_meta_line (line : list N) : option (list N * list N) :=
  ws_star (fun s1 =>
    class_plus key_char (fun r1 =>
      ws_star (lit 58 (ws_star (fun s2 =>
        dot_lazy (fun r2 =>
          ws_star (eos (fun _ =>
            Some (take (length s1 - length r1) s1,
                  take (length s2 - length r2) s2))) r2) s2))) r1) s1) line.

(** [k.upper()] on a str of the class [[A-Za-zÁÉÍÓÚÑ_]]: only the letters
    a to z change. *)
Definition upper_key (k : list N) : list N :=
  (fun c => if ((97 <=? c) && (c <=? 122))%N then (c - 32)%N else c) <$> k.

(** One turn of the loop over the lines of the metadata block. *)
Definition meta_step (meta : gmap string (list N)) (line : list N)
  : gmap string (list N) :=
  match match_meta_line line with
  | None => meta
  | Some (g1, g2) =>
      let k := upper_key (strip g1) in
      let v := strip g2 in
      match v with
      | [] => meta
      | _ =>
          match alias_in k META_ALIASES with
          | Some canonical => <[canonical := v]> meta
          | None => meta
          end
      end
  end.

(** The loop over [matches] that fills [sections]. *)
Fixpoint sections_of (raw : list N) (matches : list (nat * string * nat))
    (sections : gmap string (list N)) : gmap string (list N) :=
  match matches with
  | [] => sections
  | (_, name, start) :: rest =>
      let stop :=
        match rest with
        | (next, _, _) :: _ => next
        | [] => length raw
        end in
      sections_of raw rest (<[name := strip (slice start stop raw)]> sections)
  end.

(** [re.search(r"\d{4}-\d{2}-\d{2}", name)] and [m.group(0)]. *)
Definition date_at (s : list N) : bool :=
  match s with
  | y1 :: y2 :: y3 :: y4 :: h1 :: m1 :: m2 :: h2 :: d1 :: d2 :: _ =>
      forallb isdecimal [y1; y2; y3; y4] && (h1 =? 45)%N
      && forallb isdecimal [m1; m2] && (h2 =? 45)%N
      && forallb isdecimal [d1; d2]
  | _ => false
  end.

Fixpoint search_date (s : list N) : option (list N) :=
  if date_at s then Some (take 10 s)
  else match s with
       | [] => None
       | _ :: s' => search_date s'
       end.

(** The first line of a section that is not blank, stripped: the loop
    [for line in poem.splitlines()] up to its [break]. *)
Fixpoint first_line (lines : list (list N)) : option (list N) :=
  match lines with
  | [] => None
  | line :: lines' =>
      match strip line with
      | [] => first_line lines'
      | stripped => Some stripped
      end
  end.

(** [if key not in meta: ...] of the fallbacks. *)
Definition fallback (key : string) (value : option (list N))
    (meta : gmap string (list N)) : gmap string (list N) :=
  match meta !! key with
  | Some _ => meta
  | None =>
      match value with
      | Some v => <[key := v]> meta
      | None => meta
      end
  end.

(** [parse_txt] on the text of the file and [txt_path.name]. *)
Definition parse_txt (text name : list N)
  : gmap string (list N) * gmap string (list N) :=
  let raw := replace_crlf (_strip_bom text) in
  let meta_block := take (first_header_pos raw) raw in
  let meta := foldl meta_step ∅ (splitlines meta_block) in
  let matches := finditer SECTION_HEADERS true 0 0 raw in
  let sections := sections_of raw matches ∅ in
  let meta := fallback "date" (search_date name) meta in
  let meta :=
    fallback "my_poem_snippet"
      (first_line (splitlines (default [] (sections !! "POEMA"%string))))
      meta in
  let meta :=
    fallback "poem_snippet"
      (first_line (splitlines (default [] (sections !! "POEMA_CITADO"%string))))
      meta in
  (meta, sections).

End Parse.

End Parser.

(** [main] of daily_build.py, from its arguments and the file on. *)
Module Main.
Import DailyBuild Parser.

(** The options of the command line: [None] for one that was not
    given. *)
Record Args := mkArgs {
  arg_fecha : option (list N);
  arg_poeta : option (list N);
  arg_poem_title : option (list N);
  arg_book_title : option (list N);
  arg_my_poem_title : option (list N);
  arg_my_poem_snippet : option (list N);
  arg_poem_snippet : option (list N)
}.

(** [if args.x: meta[key] = args.x]: an option that was not given, or
    given as the empty str, changes nothing. *)
Definition override (key : string) (arg : option (list N))
    (meta : gmap string (list N)) : gmap string (list N) :=
  match arg with
  | Some (c :: v) => <[key := c :: v]> meta
  | _ => meta
  end.

Definition apply_overrides (args : Args) (meta : gmap string (list N))
  : gmap string (list N) :=
  let meta := override "date" (arg_fecha args) meta in
  let meta := override "poet" (arg_poeta args) meta in
  let meta := override "poem_title" (arg_poem_title args) meta in
  let meta := override "book_title" (arg_book_title args) meta in
  let meta := override "my_poem_title" (arg_my_poem_title args) meta in
  let meta := override "my_poem_snippet" (arg_my_poem_snippet args) meta in
  override "poem_snippet" (arg_poem_snippet args) meta.

(** What [main] raises: the ValueError of a document without analysis
    text, or what one of the functions above raises. *)
Inductive main_error :=
| NoAnalysisText     (* ValueError: No encuentro contenido bajo '# TEXTO' *)
| Raised (e : exn).

Inductive outcome :=
| Done
| Failed (e : main_error).

Section Run.
Context `{PyUnicode}.

(** The list [missing] of [warn_missing], which it prints when it is
    not empty. *)
Definition warn_missing (meta : gmap string (list N)) : list string :=
  filter (fun k => strip (default [] (meta !! k)) = [])
    ["my_poem_title"; "poet"; "poem_title"]%string.

(** [main]. [txt] is the text of the file at [txt_path], [None] when
    there is no such file, [name] is [txt_path.name], [response] is what
    the generator's answer decodes to, or what asking for it or decoding
    it raised; [st] is the archive file. The outcome comes with the
    archive file afterwards. *)
Definition main (txt : option (list N)) (name txt_relpath : list N)
    (args : Args) (response : result json) (st : storage)
  : outcome * storage :=
  match txt with
  | None => (Failed (Raised SystemExit), st)
  | Some text =>
      let '(meta, sections) := parse_txt text name in
      let meta := apply_overrides args meta in
      let analysis_text := default [] (sections !! "TEXTO"%string) in
      match strip analysis_text with
      | [] => (Failed NoAnalysisText, st)
      | _ =>
          match
            data ← response;
            keywords ← call_openai_keywords data;
            build_entry meta txt_relpath keywords
          with
          | Err e => (Failed (Raised e), st)
          | Ok entry =>
              match merge st entry with
              | (Ok _, st') => (Done, st')
              | (Err e, st') => (Failed (Raised e), st')
              end
          end
      end
  end.

End Run.

End Main.

(** What the properties of the parser use of the tables besides
    [PyUnicodeLaws]: a decimal digit is no whitespace, and neither is a
    graphic code point of Basic Latin or of the Latin-1 Supplement, so
    none of the letters, digits and signs of those blocks. Both hold of
    CPython's tables (Unicode 14). *)
Class PyTextLaws `{PyUnicode} : Prop := {
  decimal_not_space : forall c, isdecimal c = true -> isspace c = false;
  graphic_not_space : forall c,
    (33 <= c <= 126)%N \/ (161 <= c <= 255)%N -> isspace c = false
}.

(** ** Vocabulary and sample inputs for the parser and [main] *)

Module Documents.
Import DailyBuild Parser.

(** The keys of [meta] that the docstring of [parse_txt] lists. *)
Definition meta_keys : list string :=
  ["date"; "poet"; "poem_title"; "poem_snippet"; "book_title";
   "my_poem_title"; "my_poem_snippet"]%string.

(** A metadata field as [parse_txt] stores it: under one of the keys,
    not empty, and with no whitespace at either end. *)
Definition wellformed_meta `{PyUnicode} (k : string) (v : list N) : Prop :=
  k ∈ meta_keys /\ v <> [] /\ strip v = v.

(** The scan for the headers has a line start ahead that only
    whitespace separates from the end of [a]: the scan is at the start of
    [a], [skip] code points are still inside the previous match, and
    [bol] says that a line starts where the scan is. *)
Definition line_start_ahead `{PyUnicode} (a : list N) (bol : bool)
    (skip : nat) : Prop :=
  exists a1 a2,
    a = a1 ++ a2
    /\ Forall (fun c => isspace c = true) a2
    /\ (skip <= length a1)%nat
    /\ ((a1 = [] /\ bol = true) \/ last a1 = Some 10%N).

(** The first place from [pos] on at which a line starts and [p] holds of
    the text from there. [bol] says that a line starts at [pos]. *)
Fixpoint first_match (p : list N -> bool) (bol : bool) (pos : nat)
    (s : list N) : option nat :=
  match s with
  | [] => None
  | c :: s' =>
      if bol && p s then Some pos
      else first_match p (c =? 10)%N (S pos) s'
  end.

(** Whether a pattern matched. *)
Definition matched {R} (o : option R) : bool :=
  match o with Some _ => true | None => false end.

(** The earlier of two places, of which either may be missing. *)
Definition earliest (a b : option nat) : option nat :=
  match a, b with
  | Some x, Some y => Some (x `min` y)%nat
  | Some x, None => Some x
  | None, _ => b
  end.

(** A text from its lines, each ended by a newline. *)
Definition of_lines (lines : list string) : list N :=
  concat ((fun l => u l ++ [10%N]) <$> lines).

(** A document with two metadata lines, a poem and an analysis, and no
    date of its own. *)
Definition sample_txt : list N :=
  of_lines ["POETA: Idea Vilarino"; "  mi_titulo :  Orilla  "; "";
            "# POEMA"; "   "; "  la casa  "; "otra linea"; "";
            "  #  TEXTO  "; "un analisis"]%string.

Definition sample_name : list N := u "borrador-2025-03-10.txt".

(** A text without sections. *)
Definition plain_txt : list N := of_lines ["FECHA: 2025-03-10"; "la casa"]%string.

(** An archive of two entries, in order. *)
Definition two_entries : list json :=
  [entry_json (Samples.entry_of "2025-02-01");
   entry_json (Samples.entry_of "2025-01-01")].

Definition no_args : Main.Args :=
  Main.mkArgs None None None None None None None.

(** The entry that [Samples.dated_meta] gives. *)
Definition orilla_entry : ArchiveEntry :=
  {| date := u "2025-03-10"; month := u "2025-03";
     file := u "textos/2025-03-10.txt";
     my_poem_title := u "Orilla"; my_poem_snippet := [];
     analysis := mkAnalysis [] [] [] []; keywords := [] |}.

(** The entry that a run on the sample document gives. *)
Definition sample_entry : ArchiveEntry :=
  {| date := u "2025-03-10"; month := u "2025-03";
     file := u "textos/borrador-2025-03-10.txt";
     my_poem_title := u "Orilla"; my_poem_snippet := u "la casa";
     analysis := mkAnalysis (u "Idea Vilarino") [] [] [];
     keywords := [mkKeyword (u "mar adentro") 3; mkKeyword (u "amor") 3;
                  mkKeyword (u "ilusion") 3; mkKeyword (u "noche") 3] |}.

(** A response of the generator whose one keyword is the lone
    surrogate that [json.loads] returns for "\ud83d". *)
Definition surrogate_response : json :=
  JObj [("keywords"%string,
         JArr [JObj [("word"%string, JStr [55357%N]);
                     ("weight"%string, JInt 3)]])].

(** A response of the generator with the sample candidates. *)
Definition sample_response : json :=
  JObj [("keywords"%string, JArr (JObj <$> Samples.raw_candidates))].

End Documents.

(** * Properties *)

(** ** The stable sort *)

Section StableSortFacts.
Context {A K : Type} (leb : K -> K -> bool) (key : A -> K).
Hypothesis leb_total : forall a b, leb a b = true \/ leb b a = true.
Hypothesis leb_trans :
  forall a b c, leb a b = true -> leb b c = true -> leb a c = true.

Local Abbreviation before := (fun x y : A => leb (key x) (key y) = true).

Lemma insert_on_perm x l : insert_on leb key x l ≡ₚ x :: l.
Proof.
  induction l as [|y l IH]; simpl; [done|].
  destruct (leb (key x) (key y)); [done|].
  rewrite IH. apply Permutation_swap.
Qed.

Lemma sort_on_perm l : sort_on leb key l ≡ₚ l.
Proof.
  induction l as [|x l IH]; simpl; [done|].
  by rewrite insert_on_perm, IH.
Qed.

Lemma insert_on_sorted x l :
  StronglySorted before l -> StronglySorted before (insert_on leb key x l).
Proof.
  induction 1 as [|y l Hl IH Hy]; simpl.
  - repeat constructor.
  - destruct (leb (key x) (key y)) eqn:Hxy.
    + constructor; [by constructor|].
      constructor; [done|].
      eapply Forall_impl; [exact Hy|].
      intros z Hz. simpl in *. eauto.
    + constructor; [done|].
      rewrite insert_on_perm. constructor; [|done].
      destruct (leb_total (key x) (key y)); [congruence|done].
Qed.

Lemma sort_on_sorted l : StronglySorted before (sort_on leb key l).
Proof.
  induction l as [|x l IH]; simpl; [constructor|].
  by apply insert_on_sorted.
Qed.


(** Stability: the elements of one key keep their order. *)
Lemma insert_on_filter `{EqDecision K} k x l :
  filter (fun y => key y = k) (insert_on leb key x l)
  = filter (fun y => key y = k) (x :: l).
Proof.
  induction l as [|y l IH]; simpl; [done|].
  destruct (leb (key x) (key y)) eqn:Hxy; [done|].
  assert (key x <> key y) as Hne.
  { intros Heq. rewrite Heq in Hxy.
    destruct (leb_total (key y) (key y)); congruence. }
  rewrite (filter_cons _ y (insert_on _ _ _ _)), IH, !filter_cons.
  repeat case_decide; congruence.
Qed.

Lemma sort_on_stable `{EqDecision K} k l :
  filter (fun y => key y = k) (sort_on leb key l)
  = filter (fun y => key y = k) l.
Proof.
  induction l as [|x l IH]; simpl; [done|].
  by rewrite insert_on_filter, !filter_cons, IH.
Qed.

End StableSortFacts.

(** ** Re-tiering *)

Section Retier.
Import DailyBuild.

(** The code's [top3] and [mid2] are the bands of the specification. *)
Lemma band_weight_tier n i :
  0 <= n ->
  band_weight
    (if 3 <=? n then Z.max 3 (Z.min 5 n) else n)
    (let r := n - (if 3 <=? n then Z.max 3 (Z.min 5 n) else n) in
     if 6 <=? r then Z.max 6 (Z.min 10 r) else r) i
  = Spec.tier_of_rank n i.
Proof.
  intros Hn. unfold band_weight, Spec.tier_of_rank, Spec.top_band, Spec.mid_band.
  cbv zeta.
  destruct (Z.leb_spec 3 n).
  - replace (Z.max 3 (Z.min 5 n)) with (Z.min 5 n) by lia.
    destruct (Z.leb_spec 6 (n - Z.min 5 n)); [|done].
    by replace (Z.max 6 (Z.min 10 (n - Z.min 5 n)))
      with (Z.min 10 (n - Z.min 5 n)) by lia.
  - destruct (Z.leb_spec 6 (n - n)); [lia|done].
Qed.

Lemma redistribute_lookup kws i :
  redistribute_weights kws !! i
  = (fun kw => mkKeyword (word kw)
                 (Spec.tier_of_rank (Z.of_nat (length kws)) (Z.of_nat i)))
    <$> kws !! i.
Proof.
  unfold redistribute_weights. cbv zeta.
  destruct (Z.eqb_spec (Z.of_nat (length kws)) 0) as [Hn|Hn].
  - destruct kws; [done|simpl in Hn; lia].
  - rewrite list_lookup_imap. destruct (kws !! i); [simpl|done].
    f_equal. f_equal. apply band_weight_tier. lia.
Qed.

Lemma redistribute_length kws :
  length (redistribute_weights kws) = length kws.
Proof.
  unfold redistribute_weights. cbv zeta.
  destruct (_ =? 0); [done|]. apply length_imap.
Qed.

Lemma redistribute_words kws :
  word <$> redistribute_weights kws = word <$> kws.
Proof.
  apply list_eq. intros i.
  rewrite !list_lookup_fmap, redistribute_lookup.
  by destruct (kws !! i).
Qed.

Lemma redistribute_weights_by_rank kws :
  weight <$> redistribute_weights kws
  = (fun i => Spec.tier_of_rank (Z.of_nat (length kws)) (Z.of_nat i))
    <$> seq 0 (length kws).
Proof.
  apply list_eq. intros i.
  rewrite !list_lookup_fmap, redistribute_lookup.
  destruct (kws !! i) as [kw|] eqn:Hi; simpl.
  - apply lookup_lt_Some in Hi. by rewrite lookup_seq_lt.
  - apply lookup_ge_None in Hi. by rewrite lookup_seq_ge.
Qed.

Lemma elem_of_123 (k : Z) : k ∈ [1; 2; 3] <-> k = 1 \/ k = 2 \/ k = 3.
Proof. rewrite !elem_of_cons, elem_of_nil. tauto. Qed.

Lemma tier_of_rank_range n i : Spec.tier_of_rank n i ∈ [1; 2; 3].
Proof.
  apply elem_of_123. unfold Spec.tier_of_rank. cbv zeta.
  destruct (_ <? _); [|destruct (_ <? _)]; auto.
Qed.

Lemma bands_fit n :
  0 <= n ->
  0 <= Spec.top_band n <= n
  /\ 0 <= Spec.mid_band (n - Spec.top_band n) <= n - Spec.top_band n.
Proof.
  intros Hn. unfold Spec.top_band, Spec.mid_band.
  destruct (Z.leb_spec 3 n).
  - destruct (Z.leb_spec 6 (n - Z.min 5 n)); lia.
  - destruct (Z.leb_spec 6 (n - n)); lia.
Qed.

(** C1. For a keyword list of size n, [redistribute_weights] gives
    weight 3 to the first min(5,n) entries when n >= 3 (to all n when
    n < 3), weight 2 to the next min(10,r) of the r remaining entries
    when r >= 6 (to all r when r < 6), and weight 1 to every entry after
    those; every weight it returns is 1, 2 or 3; and the weight of an
    entry is a function of its rank and of n alone, whatever weights the
    input carried. *)
Theorem redistribute_weights_bands (kws : list Keyword) :
  let n := Z.of_nat (length kws) in
  let top := Spec.top_band n in
  let mid := Spec.mid_band (n - top) in
  length (redistribute_weights kws) = length kws
  /\ (forall i kw, redistribute_weights kws !! i = Some kw ->
        (Z.of_nat i < top -> weight kw = 3)
        /\ (top <= Z.of_nat i < top + mid -> weight kw = 2)
        /\ (top + mid <= Z.of_nat i -> weight kw = 1)
        /\ weight kw ∈ [1; 2; 3]
        /\ weight kw = Spec.tier_of_rank n (Z.of_nat i))
  /\ (forall kws', length kws' = length kws ->
        weight <$> redistribute_weights kws'
        = weight <$> redistribute_weights kws).
Proof.
  cbv zeta. split; [apply redistribute_length|]. split.
  - intros i kw Hi. rewrite redistribute_lookup in Hi.
    destruct (kws !! i) as [kw0|]; [|done].
    injection Hi as <-. simpl.
    pose proof (bands_fit (Z.of_nat (length kws)) ltac:(lia)) as [_ Hmid].
    split_and!; try apply tier_of_rank_range; try done;
      unfold Spec.tier_of_rank; cbv zeta;
      destruct (Z.ltb_spec (Z.of_nat i) (Spec.top_band (Z.of_nat (length kws))));
      destruct (Z.ltb_spec (Z.of_nat i)
        (Spec.top_band (Z.of_nat (length kws))
         + Spec.mid_band (Z.of_nat (length kws)
                          - Spec.top_band (Z.of_nat (length kws)))));
      intros; first [done | lia].
  - intros kws' Hlen. by rewrite !redistribute_weights_by_rank, Hlen.
Qed.

(** C10. [redistribute_weights] returns a list of the same length with
    the same words in the same order; only the weights change. *)
Theorem redistribute_weights_frame (kws : list Keyword) :
  length (redistribute_weights kws) = length kws
  /\ word <$> redistribute_weights kws = word <$> kws.
Proof. split; [apply redistribute_length | apply redistribute_words]. Qed.

End Retier.

(** ** The text normaliser *)

Section TextFacts.
Context `{PyUnicode}.


Lemma lstrip_head s c : head (lstrip s) = Some c -> isspace c = false.
Proof.
  induction s as [|d s IH]; simpl; [done|].
  destruct (isspace d) eqn:Hd; [done|].
  simpl. by intros [= <-].
Qed.


(** What [strip] returns does not end in whitespace. *)
Lemma strip_last s c : last (strip s) = Some c -> isspace c = false.
Proof.
  unfold strip, rstrip. rewrite last_reverse. apply lstrip_head.
Qed.

Lemma sub_spaces_Forall (P : N -> Prop) b s :
  P 32%N -> Forall P s -> Forall P (sub_spaces b s).
Proof.
  intros Hsp Hs. revert b.
  induction Hs as [|c s Hc Hs IH]; intros b; simpl; [done|].
  destruct (isspace c); [destruct b|]; auto.
Qed.

Lemma sub_spaces_only_space b s :
  Forall (fun c => isspace c = true -> c = 32%N) (sub_spaces b s).
Proof.
  revert b. induction s as [|c s IH]; intros b; simpl; [done|].
  destruct (isspace c) eqn:Hc; [destruct b|]; auto.
  constructor; [congruence|done].
Qed.

Lemma sub_spaces_head s c :
  head (sub_spaces true s) = Some c -> isspace c = false.
Proof.
  induction s as [|d s IH]; simpl; [done|].
  destruct (isspace d) eqn:Hd; [done|].
  simpl. by intros [= <-].
Qed.

Lemma sub_spaces_adjacent b s i a c :
  sub_spaces b s !! i = Some a -> sub_spaces b s !! S i = Some c ->
  isspace a = true -> isspace c = false.
Proof.
  revert b i. induction s as [|d s IH]; intros b i; simpl; [done|].
  destruct (isspace d) eqn:Hd.
  - destruct b; [by apply IH|].
    destruct i as [|i]; simpl; [|by apply IH].
    intros _ Hc _. rewrite <- head_lookup in Hc. by eapply sub_spaces_head.
  - destruct i as [|i]; simpl; [|by apply IH].
    intros [= <-] _ Ha. congruence.
Qed.

Lemma normalize_collapsed s :
  Spec.whitespace_collapsed (DailyBuild.normalize_no_accents s).
Proof.
  split; [apply sub_spaces_only_space|].
  intros i a b. apply sub_spaces_adjacent.
Qed.

Lemma strip_accents_marks s :
  Forall (fun c => is_Mn c = false) (strip_accents s).
Proof.
  apply Forall_forall. intros c Hc.
  by apply list_elem_of_filter in Hc as [? _].
Qed.

Lemma strip_accents_Forall (P : N -> Prop) s :
  Forall P (nfd s) -> Forall P (strip_accents s).
Proof.
  rewrite !Forall_forall. intros Hs c Hc.
  apply list_elem_of_filter in Hc as [_ ?]. auto.
Qed.

Context `{!PyUnicodeLaws}.

Lemma normalize_lowercase s :
  Spec.lowercase (DailyBuild.normalize_no_accents s).
Proof.
  apply lowered_lower, sub_spaces_Forall; [apply space_lowered|].
  apply strip_accents_Forall, nfd_lowered, lower_lowered.
Qed.

Context `{!PyNfdLaws}.

Lemma nfd_nil : nfd [] = [].
Proof.
  destruct (nfd []) as [|c l] eqn:Hn; [done|].
  assert (c ∈ nfd []) as Hc by (rewrite Hn; left).
  apply nfd_elem_of in Hc as (d & Hd & _). by apply elem_of_nil in Hd.
Qed.

Lemma nfd_space_char : nfd [32%N] = [32%N].
Proof. by rewrite (nfd_space [] []), nfd_nil. Qed.

(** What the normaliser returns is made of code points that are no
    marks and are not decomposed further. *)
Lemma normalize_decomposed s :
  Forall (fun c => is_Mn c = false /\ nfd [c] = [c])
    (DailyBuild.normalize_no_accents s).
Proof.
  apply sub_spaces_Forall.
  { split; [apply space_not_Mn|apply nfd_space_char]. }
  apply Forall_forall. intros c Hc.
  apply list_elem_of_filter in Hc as [Hmark Hc]. split; [done|].
  apply nfd_elem_of in Hc as (d & _ & Hc). by eapply nfd_decomposed.
Qed.

(** So decomposing it brings no mark to light. *)
Lemma normalize_accent_free s :
  Spec.accent_free (DailyBuild.normalize_no_accents s).
Proof.
  pose proof (normalize_decomposed s) as Hs. rewrite Forall_forall in Hs.
  apply Forall_forall. intros c Hc.
  apply nfd_elem_of in Hc as (d & Hd & Hc).
  destruct (Hs d Hd) as [Hmark Hfix]. rewrite Hfix in Hc.
  by apply list_elem_of_singleton in Hc as ->.
Qed.

(** A word the normaliser returns, when it is not empty, is what the
    specification calls a clean word. *)
Lemma normalize_clean s :
  DailyBuild.normalize_no_accents s <> [] ->
  Spec.clean_word (DailyBuild.normalize_no_accents s).
Proof.
  intros Hne. split_and!; [done|..].
  - apply normalize_lowercase.
  - apply normalize_accent_free.
  - apply normalize_collapsed.
Qed.


End TextFacts.

(** ** Stripping *)

Section StripFacts.
Context `{PyUnicode}.

Lemma lstrip_fixed s :
  (forall c, head s = Some c -> isspace c = false) -> lstrip s = s.
Proof.
  destruct s as [|c s]; [done|]. simpl. intros Hc. by rewrite (Hc c).
Qed.

Lemma lstrip_last s c : last (lstrip s) = Some c -> last s = Some c.
Proof.
  induction s as [|d s IH]; [done|]. simpl.
  destruct (isspace d); [|done].
  intros Hc. specialize (IH Hc). destruct s; [done|]. by rewrite last_cons, IH.
Qed.

Lemma rstrip_fixed s :
  (forall c, last s = Some c -> isspace c = false) -> rstrip s = s.
Proof.
  intros Hc. unfold rstrip. rewrite lstrip_fixed; [apply reverse_involutive|].
  intros c. rewrite head_reverse. apply Hc.
Qed.

Lemma rstrip_head s c : head (rstrip s) = Some c -> head s = Some c.
Proof.
  unfold rstrip. rewrite head_reverse. intros Hc%lstrip_last.
  by rewrite last_reverse in Hc.
Qed.

Lemma strip_head s c : head (strip s) = Some c -> isspace c = false.
Proof. intros Hc%rstrip_head. by apply lstrip_head in Hc. Qed.

(** A str with no whitespace at either end is left alone. *)
Lemma strip_fixed s :
  (forall c, head s = Some c -> isspace c = false) ->
  (forall c, last s = Some c -> isspace c = false) ->
  strip s = s.
Proof.
  intros Hh Hl. unfold strip. rewrite lstrip_fixed by done.
  by apply rstrip_fixed.
Qed.

Lemma strip_idempotent s : strip (strip s) = strip s.
Proof. apply strip_fixed; [apply strip_head|apply strip_last]. Qed.

End StripFacts.

(** ** Words of single-spaced runs *)

Section SpacedFacts.
Context `{PyUnicode}.
Import Invariants.















End SpacedFacts.

(** ** Canonicalisation in daily_build.py *)

Lemma StronglySorted_weaken {A} (R R' : A -> A -> Prop) l :
  (forall a b, R a b -> R' a b) -> StronglySorted R l -> StronglySorted R' l.
Proof.
  intros HR. induction 1 as [|x l Hl IH Hx]; constructor; [done|].
  eapply Forall_impl; [exact Hx|]. auto.
Qed.

Lemma foldl_invariant {S B} (I : S -> Prop) (f : S -> B -> S) l s :
  I s -> (forall s b, b ∈ l -> I s -> I (f s b)) -> I (foldl f s l).
Proof.
  revert s. induction l as [|b l IH]; intros s Hs Hf; simpl; [done|].
  apply IH.
  - apply Hf; [left|done].
  - intros s' b' Hb'. apply Hf. by right.
Qed.

Section EnforceFacts.
Context `{PyUnicode}.
Import DailyBuild Invariants.

Lemma enforce_step_inv st it :
  enforce_inv st -> enforce_inv (enforce_step st it).
Proof.
  destruct st as [cleaned seen]. intros (Hseen & Hnd & Hall).
  unfold enforce_step.
  set (w := default 1 (py_int _)).
  set (wd := normalize_no_accents _).
  destruct (decide (wd = [])); [done|].
  destruct (decide (wd ∈ seen)) as [|Hnew]; [done|].
  simpl in *. split_and!; simpl.
  - intros x. rewrite fmap_app, elem_of_union, elem_of_singleton, elem_of_app,
      Hseen. simpl. rewrite list_elem_of_singleton. tauto.
  - rewrite fmap_app. apply NoDup_app. split_and!; [done| |apply NoDup_singleton].
    intros x Hx. simpl. rewrite list_elem_of_singleton. intros ->.
    by apply Hnew, Hseen.
  - apply Forall_app. split; [done|]. constructor; [|done]. simpl.
    split_and!; [by eexists|done|].
    apply elem_of_123. destruct (3 <=? w); [|destruct (w =? 2)]; auto.
Qed.

Lemma cleaned_of_inv items :
  enforce_inv (foldl enforce_step ([], ∅) items).
Proof.
  apply foldl_invariant; [|intros; by apply enforce_step_inv].
  split_and!; simpl; [set_solver|constructor|constructor].
Qed.

Lemma sort_by_weight_perm cleaned : sort_by_weight cleaned ≡ₚ cleaned.
Proof. apply sort_on_perm. Qed.

Lemma sort_by_weight_sorted cleaned :
  StronglySorted (fun a b => weight b <= weight a) (sort_by_weight cleaned).
Proof.
  eapply StronglySorted_weaken; [|apply (sort_on_sorted Z.leb)].
  - intros a b Hab. apply Z.leb_le in Hab. lia.
  - intros a b. destruct (Z.leb_spec a b), (Z.leb_spec b a); auto; lia.
  - intros a b c. rewrite !Z.leb_le. lia.
Qed.

Lemma sort_by_weight_stable w cleaned :
  filter (fun kw => weight kw = w) (sort_by_weight cleaned)
  = filter (fun kw => weight kw = w) cleaned.
Proof.
  transitivity (filter (fun kw => - weight kw = - w) (sort_by_weight cleaned)).
  { apply list_filter_iff. intros kw. lia. }
  unfold sort_by_weight. rewrite sort_on_stable.
  - apply list_filter_iff. intros kw. lia.
  - intros a b. destruct (Z.leb_spec a b), (Z.leb_spec b a); auto; lia.
Qed.

Lemma enforce_words_sub items :
  word <$> enforce_keyword_rules items ⊆ word <$> cleaned_of items.
Proof.
  unfold enforce_keyword_rules. intros w Hw.
  rewrite fmap_take in Hw. apply subseteq_take in Hw.
  by rewrite sort_by_weight_perm in Hw.
Qed.

Lemma enforce_length items :
  (length (enforce_keyword_rules items) <= 30)%nat.
Proof. unfold enforce_keyword_rules. rewrite length_take. lia. Qed.

Lemma enforce_NoDup items : NoDup (word <$> enforce_keyword_rules items).
Proof.
  unfold enforce_keyword_rules. rewrite fmap_take.
  eapply sublist_NoDup; [|apply sublist_take].
  rewrite sort_by_weight_perm. apply cleaned_of_inv.
Qed.

Lemma enforce_words_normalized items w :
  w ∈ word <$> enforce_keyword_rules items ->
  (exists s, w = normalize_no_accents s) /\ w <> [].
Proof.
  intros Hw. apply enforce_words_sub in Hw.
  apply list_elem_of_fmap in Hw as (kw & -> & Hkw).
  destruct (cleaned_of_inv items) as (_ & _ & Hall).
  rewrite Forall_forall in Hall. destruct (Hall kw Hkw) as (? & ? & _); auto.
Qed.

End EnforceFacts.

(** ** Canonicalisation in gen_keywords.py *)

Section GenFacts.
Context `{PyUnicode}.
Import GenKeywords Invariants.

Lemma normalize_word_eq s :
  normalize_word s = DailyBuild.normalize_no_accents s.
Proof. done. Qed.

Lemma clean_item_word item kw :
  clean_item item = Some kw ->
  (exists s, word kw = DailyBuild.normalize_no_accents s) /\ word kw <> [].
Proof.
  destruct item; simpl; try done.
  destruct (decide _) as [|Hne]; [done|].
  intros [= <-]. simpl. split; [by eexists|done].
Qed.

Lemma dedupe_step_inv st k : dedupe_inv st -> dedupe_inv (dedupe_step st k).
Proof.
  destruct st as [seen order]. intros [Hnd Hdom]. unfold dedupe_step.
  simpl in *. destruct (seen !! word k) as [best|] eqn:Hk; split; simpl.
  - done.
  - intros w. rewrite Hdom.
    destruct (decide (word k = w)) as [<-|Hne].
    + rewrite lookup_insert_eq, Hk. by split; eexists.
    + by rewrite lookup_insert_ne.
  - apply NoDup_app. split_and!; [done| |apply NoDup_singleton].
    intros w Hw. rewrite list_elem_of_singleton. intros ->.
    apply Hdom in Hw as [? Hw]. congruence.
  - intros w. rewrite elem_of_app, list_elem_of_singleton, Hdom.
    destruct (decide (word k = w)) as [<-|Hne].
    + rewrite lookup_insert_eq. split; [by eexists|by right].
    + rewrite lookup_insert_ne by done. split; [|by left].
      intros [?|?]; [done|congruence].
Qed.

Lemma dedupe_step_order (P : ustring -> Prop) st k :
  P (word k) -> Forall P st.2 -> Forall P (dedupe_step st k).2.
Proof.
  destruct st as [seen order]. intros Hk Ho. unfold dedupe_step. simpl in *.
  destruct (seen !! word k); simpl; [done|].
  apply Forall_app. split; [done|by constructor].
Qed.

Lemma dedupe_words keywords :
  word <$> dedupe_keep_best keywords
  = (foldl dedupe_step (∅, []) keywords).2.
Proof.
  unfold dedupe_keep_best. destruct (foldl _ _ _) as [seen order]. simpl.
  rewrite <- list_fmap_compose. apply list_fmap_id.
Qed.

Lemma dedupe_order_first st keywords :
  dedupe_inv st ->
  (foldl dedupe_step st keywords).2
  = foldl (fun order w => if decide (w ∈ order) then order else order ++ [w])
      st.2 (word <$> keywords).
Proof.
  revert st. induction keywords as [|k keywords IH]; intros st Hst; [done|].
  rewrite fmap_cons. cbn [foldl]. rewrite IH by by apply dedupe_step_inv.
  f_equal. destruct st as [seen order], Hst as [_ Hdom]. simpl in *.
  unfold dedupe_step. destruct (seen !! word k) as [best|] eqn:Hk; simpl.
  - rewrite decide_True; [done|]. apply Hdom. by eexists.
  - rewrite decide_False; [done|]. intros [? Hin]%Hdom. congruence.
Qed.

Lemma dedupe_first_occurrences keywords :
  word <$> dedupe_keep_best keywords
  = Spec.first_occurrences (word <$> keywords).
Proof.
  rewrite dedupe_words, dedupe_order_first; [done|].
  split; simpl; [constructor|].
  intros w. rewrite lookup_empty. split; [by intros ?%elem_of_nil|by intros []].
Qed.

Lemma dedupe_NoDup keywords : NoDup (word <$> dedupe_keep_best keywords).
Proof.
  rewrite dedupe_words.
  apply (foldl_invariant dedupe_inv); [|intros; by apply dedupe_step_inv].
  split; simpl; [constructor|].
  intros w. rewrite lookup_empty. split; [by intros ?%elem_of_nil|by intros []].
Qed.

Lemma dedupe_Forall (P : ustring -> Prop) keywords :
  Forall P (word <$> keywords) -> Forall P (word <$> dedupe_keep_best keywords).
Proof.
  intros HP. rewrite dedupe_words.
  apply (foldl_invariant (fun st => Forall P st.2)); [done|].
  intros st k Hk Hst. apply dedupe_step_order; [|done].
  rewrite Forall_forall in HP. by apply HP, list_elem_of_fmap_2.
Qed.

Lemma main_keywords_inv data out :
  main_keywords data = Ok out ->
  exists items, out = take 30 (dedupe_keep_best (omap clean_item items)).
Proof.
  unfold main_keywords, parse_keywords_json.
  destruct (match data with JObj d => _ | _ => data end); try done.
  simpl. intros [= <-]. by eexists.
Qed.

End GenFacts.

(** ** What canonicalisation returns *)

Section Canonical.
Context `{PyUnicode} `{!PyUnicodeLaws} `{!PyNfdLaws}.

(** C6. Whatever the candidate list, canonicalisation returns at most 30
    entries, and every returned word is non-empty, lowercase,
    accent-free (its canonical decomposition holds no combining mark, so
    that no precomposed accented letter is left either),
    whitespace-collapsed, and occurs once in the returned list. This
    holds of
    [enforce_keyword_rules] in daily_build.py and of the keywords that
    [main] of gen_keywords.py writes, which [normalize_word] cleans. *)
Theorem canonicalize_words :
  (forall items : list dict,
     let out := DailyBuild.enforce_keyword_rules items in
     (length out <= 30)%nat
     /\ Forall Spec.clean_word (word <$> out)
     /\ NoDup (word <$> out))
  /\ (forall (data : json) (out : list Keyword),
        GenKeywords.main_keywords data = Ok out ->
        (length out <= 30)%nat
        /\ Forall Spec.clean_word (word <$> out)
        /\ NoDup (word <$> out)).
Proof.
  split.
  - intros items. cbv zeta. split_and!.
    + apply enforce_length.
    + apply Forall_forall. intros w Hw.
      apply enforce_words_normalized in Hw as [[s ->] Hne].
      by apply normalize_clean.
    + apply enforce_NoDup.
  - intros data out Hout.
    apply main_keywords_inv in Hout as [items ->]. split_and!.
    + rewrite length_take. lia.
    + rewrite fmap_take. apply Forall_take, dedupe_Forall.
      apply Forall_forall. intros w Hw.
      apply list_elem_of_fmap in Hw as (kw & -> & Hkw).
      apply list_elem_of_omap in Hkw as (item & _ & Hitem).
      apply clean_item_word in Hitem as [[s Hs] Hne].
      rewrite Hs in *. by apply normalize_clean.
    + rewrite fmap_take. eapply sublist_NoDup; [|apply sublist_take].
      apply dedupe_NoDup.
Qed.

End Canonical.

(** ** Ranking before truncation *)

Section Ranking.
Context `{PyUnicode}.
Import DailyBuild.

(** C5, as it holds of the two scripts. [enforce_keyword_rules] of
    daily_build.py sorts the deduplicated surviving list by weight
    descending with a stable sort (entries of one weight keep their
    order) and only then truncates it to at most 30 entries: no entry
    that is cut off weighs more than one that is kept. [main] of
    gen_keywords.py truncates the deduplicated list as it stands, its
    words in the order of their first appearance. *)
Theorem enforce_sorts_then_truncates (items : list dict) :
  let cleaned := cleaned_of items in
  let ranked := sort_by_weight cleaned in
  NoDup (word <$> cleaned)
  /\ ranked ≡ₚ cleaned
  /\ StronglySorted (fun a b => weight b <= weight a) ranked
  /\ (forall w, filter (fun kw => weight kw = w) ranked
                = filter (fun kw => weight kw = w) cleaned)
  /\ enforce_keyword_rules items = take 30 ranked
  /\ (length (enforce_keyword_rules items) <= 30)%nat
  /\ (forall kept dropped,
        kept ∈ enforce_keyword_rules items -> dropped ∈ drop 30 ranked ->
        weight dropped <= weight kept)
  /\ (forall candidates : list json,
        GenKeywords.main_keywords (JArr candidates)
        = Ok (take 30 (GenKeywords.dedupe_keep_best
                         (omap GenKeywords.clean_item candidates))))
  /\ (forall kws,
        word <$> GenKeywords.dedupe_keep_best kws
        = Spec.first_occurrences (word <$> kws)).
Proof.
  cbv zeta. split_and!; [..|done|apply dedupe_first_occurrences].
  - apply cleaned_of_inv.
  - apply sort_by_weight_perm.
  - apply sort_by_weight_sorted.
  - intros w. apply sort_by_weight_stable.
  - done.
  - apply enforce_length.
  - intros kept dropped Hk Hd.
    pose proof (sort_by_weight_sorted (cleaned_of items)) as Hs.
    rewrite <- (take_drop 30 (sort_by_weight _)) in Hs.
    by apply (StronglySorted_app_1_elem_of _ _ _ _ _ Hs).
Qed.

End Ranking.

(** ** Idempotence on canonical input *)



Section Idempotence.
Context `{PyUnicode}.
Import DailyBuild Invariants.

(** A list is tiered exactly when re-tiering leaves it alone. *)
Lemma tiered_fixed kws : Spec.tiered kws <-> redistribute_weights kws = kws.
Proof.
  split.
  - intros Ht. apply list_eq. intros i. rewrite redistribute_lookup.
    destruct (kws !! i) as [kw|] eqn:Hi; [|done]. simpl.
    rewrite <- (Ht i kw Hi). by destruct kw.
  - intros Hfix i kw Hi. pose proof (redistribute_lookup kws i) as Hl.
    rewrite Hfix, Hi in Hl. simpl in Hl. by injection Hl as ->.
Qed.









Context `{!PyUnicodeLaws} `{!PyNfdLaws}.






End Idempotence.

(** ** The shapes of the generator's response *)

Section Shapes.
Context `{PyUnicode}.

Lemma mapM_as_dict dicts :
  mapM DailyBuild.as_dict (JObj <$> dicts) = Ok dicts.
Proof.
  induction dicts as [|d dicts IH]; [done|].
  rewrite fmap_cons. simpl. by rewrite IH.
Qed.

(** C4, as it holds of the two scripts. [parse_keywords_json] of
    gen_keywords.py takes both shapes, a flat list and an object with a
    [keywords] list, and extracts the same candidates from either.
    [call_openai_keywords] of daily_build.py takes the object with a
    [keywords] list of objects, the shape it asks its generator for, and
    raises on a flat list. *)
Theorem response_shapes (items : list json) :
  GenKeywords.parse_keywords_json (JArr items)
  = Ok (omap GenKeywords.clean_item items)
  /\ (forall d, dict_get "keywords" d = Some (JArr items) ->
        GenKeywords.parse_keywords_json (JObj d)
        = Ok (omap GenKeywords.clean_item items))
  /\ (forall d dicts, dict_get "keywords" d = Some (JArr (JObj <$> dicts)) ->
        DailyBuild.call_openai_keywords (JObj d)
        = Ok (DailyBuild.redistribute_weights
                (DailyBuild.enforce_keyword_rules dicts)))
  /\ DailyBuild.call_openai_keywords (JArr items) = Err AttributeError.
Proof.
  split_and!; [done| | |done].
  - intros d Hd. unfold GenKeywords.parse_keywords_json. by rewrite Hd.
  - intros d dicts Hd. unfold DailyBuild.call_openai_keywords, get_or.
    rewrite Hd. simpl. by rewrite mapM_as_dict.
Qed.

End Shapes.

(** ** Loading the archive *)

(** C3, as it holds of [load_entries]. A missing file loads as the empty
    sequence, a file holding a JSON list as that list, so the empty list
    as the empty sequence; a file whose root is not a list fails with
    MalformedArchiveError; a file of length zero is not read as an empty
    archive: decoding it raises. *)
Theorem load_entries_outcomes :
  DailyBuild.load_entries DailyBuild.NoFile = Ok []
  /\ DailyBuild.load_entries (DailyBuild.JsonFile (JArr [])) = Ok []
  /\ (forall l, DailyBuild.load_entries (DailyBuild.JsonFile (JArr l)) = Ok l)
  /\ (forall root, (forall l, root <> JArr l) ->
        DailyBuild.load_entries (DailyBuild.JsonFile root)
        = Err MalformedArchiveError)
  /\ DailyBuild.load_entries DailyBuild.EmptyFile = Err JSONDecodeError.
Proof.
  split_and!; try done.
  intros root Hroot. destruct root; try done. by destruct (Hroot items).
Qed.

(** ** Merging into the archive *)

Lemma ustr_leb_total a b : ustr_leb a b = true \/ ustr_leb b a = true.
Proof.
  revert b. induction a as [|x a IH]; intros [|y b]; simpl; auto.
  destruct (N.ltb_spec x y), (N.ltb_spec y x); auto; lia.
Qed.

Lemma ustr_leb_trans a b c :
  ustr_leb a b = true -> ustr_leb b c = true -> ustr_leb a c = true.
Proof.
  revert b c. induction a as [|x a IH]; intros [|y b] [|z c]; simpl; try done.
  destruct (N.ltb_spec x y), (N.ltb_spec y x), (N.ltb_spec y z),
    (N.ltb_spec z y), (N.ltb_spec x z), (N.ltb_spec z x);
    try done; try lia. apply IH.
Qed.

Section Merge.
Import DailyBuild.

Lemma entry_json_archive_entry entry : Spec.archive_entry (entry_json entry).
Proof. eexists. split; [done|]. right. by eexists. Qed.

Lemma date_key_archive_entry e :
  Spec.archive_entry e -> date_key e = Ok (Spec.entry_date e).
Proof.
  intros (d & -> & [Hd|[s Hd]]); unfold date_key, get_or; simpl; by rewrite Hd.
Qed.

Lemma mapM_date_key entries :
  Forall Spec.archive_entry entries ->
  mapM date_key entries = Ok (Spec.entry_date <$> entries).
Proof.
  induction 1 as [|e entries He _ IH]; [done|].
  simpl. rewrite (date_key_archive_entry e He). simpl. by rewrite IH.
Qed.

Lemma same_date_cases d e :
  Spec.archive_entry e ->
  (Spec.has_date d e /\ same_date d e = Ok true)
  \/ (~ Spec.has_date d e /\ same_date d e = Ok false).
Proof.
  intros (kv & -> & [Hd|[s Hd]]); unfold same_date, get, Spec.has_date;
    simpl; rewrite Hd; simpl.
  - right. split; [|done]. intros (? & [= <-] & ?). congruence.
  - destruct (decide (s = d)) as [->|Hne].
    + left. rewrite bool_decide_eq_true_2 by done. split; [by eexists|done].
    + right. rewrite bool_decide_eq_false_2 by done. split; [|done].
      intros (? & [= <-] & ?). congruence.
Qed.

Lemma any_same_date_found d entries :
  Forall Spec.archive_entry entries -> Exists (Spec.has_date d) entries ->
  any_same_date d entries = Ok true.
Proof.
  induction 1 as [|e entries He _ IH]; intros Hex; [by inv Hex|].
  simpl. destruct (same_date_cases d e He) as [[_ ->]|[Hno ->]]; [done|].
  simpl. apply IH. by inv Hex.
Qed.

Lemma any_same_date_fresh d entries :
  Forall Spec.archive_entry entries ->
  Forall (fun e => ~ Spec.has_date d e) entries ->
  any_same_date d entries = Ok false.
Proof.
  induction 1 as [|e entries He _ IH]; intros Hno; [done|].
  apply Forall_cons in Hno as [Hno Hnos]. simpl.
  destruct (same_date_cases d e He) as [[? _]|[_ ->]]; [done|].
  simpl. by apply IH.
Qed.

Lemma zip_keys {A B} (f : A -> B) (l : list A) :
  zip (f <$> l) l = (fun x => (f x, x)) <$> l.
Proof. induction l as [|x l IH]; [done|]. simpl. f_equal. exact IH. Qed.

(** What [sort_entries_desc] returns on a well-formed archive. *)
Lemma sort_entries_desc_archive entries :
  Forall Spec.archive_entry entries ->
  exists sorted,
    sort_entries_desc entries = Ok sorted
    /\ sorted ≡ₚ entries
    /\ Spec.sorted_by_date_desc sorted.
Proof.
  intros Hwf. unfold sort_entries_desc. rewrite (mapM_date_key _ Hwf). simpl.
  eexists. split; [done|].
  rewrite zip_keys.
  set (pairs := (fun e => (Spec.entry_date e, e)) <$> entries).
  set (flip_leb := fun a b => ustr_leb b a).
  assert (forall a b, flip_leb a b = true \/ flip_leb b a = true) as Htot
    by (intros a b; apply ustr_leb_total).
  assert (forall a b c, flip_leb a b = true -> flip_leb b c = true ->
            flip_leb a c = true) as Htrans
    by (intros a b c ??; by apply (ustr_leb_trans c b a)).
  pose proof (sort_on_perm flip_leb fst pairs) as Hperm.
  split.
  - rewrite Hperm. unfold pairs. rewrite <- list_fmap_compose.
    by rewrite list_fmap_id.
  - assert (Forall (fun p => p.1 = Spec.entry_date p.2)
              (sort_on flip_leb fst pairs)) as Hkeys.
    { rewrite Hperm. unfold pairs. by apply Forall_fmap, Forall_true. }
    pose proof (sort_on_sorted flip_leb fst Htot Htrans pairs) as Hs.
    revert Hkeys Hs. generalize (sort_on flip_leb fst pairs). intros l.
    induction l as [|p l IH]; intros Hkeys Hs; [constructor|].
    apply Forall_cons in Hkeys as [Hp Hkeys].
    apply StronglySorted_inv in Hs as [Hs Hhd]. rewrite fmap_cons.
    constructor; [by apply IH|].
    apply Forall_fmap, Forall_forall. intros q Hq. simpl.
    rewrite Forall_forall in Hhd, Hkeys.
    rewrite <- Hp, <- (Hkeys q Hq). by apply Hhd.
Qed.

(** C2. When the archive holds an entry whose date is the new entry's,
    the merge fails with DuplicateDateError and the file is left as it
    was: nothing is written. *)
Theorem merge_duplicate_date (st : storage) (entries : list json)
    (entry : ArchiveEntry) :
  load_entries st = Ok entries ->
  Forall Spec.archive_entry entries ->
  Exists (Spec.has_date (date entry)) entries ->
  merge st entry = (Err DuplicateDateError, st).
Proof.
  intros Hload Hwf Hdup. unfold merge. rewrite Hload. simpl.
  by rewrite any_same_date_found.
Qed.

Lemma encodable_Forall l :
  encodable (JArr l) = true <-> Forall (fun v => encodable v = true) l.
Proof.
  simpl. induction l as [|v l IH]; simpl; [by split|].
  rewrite andb_true_iff, IH. split.
  - intros [? ?]. by constructor.
  - intros [? ?]%Forall_cons. by split.
Qed.

(** Whether a list can be written does not depend on its order. *)
Lemma encodable_perm l l' :
  l ≡ₚ l' -> encodable (JArr l) = true -> encodable (JArr l') = true.
Proof. intros Hperm. rewrite !encodable_Forall. by rewrite Hperm. Qed.

Lemma write_text_encodable entries :
  encodable (JArr entries) = true ->
  write_text entries = (Ok tt, JsonFile (JArr entries)).
Proof. intros Henc. unfold write_text. by rewrite Henc. Qed.

(** C8, as it holds of the end of [main]. When no entry of the archive
    has the new entry's date, and no str of the archive or of the new
    entry holds a lone surrogate, the merge succeeds: it returns, and
    writes, the old entries together with the new one, sorted by date
    descending under str comparison; the file then loads as that sorted
    sequence. *)
Theorem merge_sorted_desc (st : storage) (entries : list json)
    (entry : ArchiveEntry) :
  load_entries st = Ok entries ->
  Forall Spec.archive_entry entries ->
  Forall (fun e => ~ Spec.has_date (date entry) e) entries ->
  encodable (JArr (entries ++ [entry_json entry])) = true ->
  exists sorted,
    merge st entry = (Ok sorted, JsonFile (JArr sorted))
    /\ sorted ≡ₚ entries ++ [entry_json entry]
    /\ entry_json entry ∈ sorted
    /\ Spec.sorted_by_date_desc sorted
    /\ load_entries (JsonFile (JArr sorted)) = Ok sorted.
Proof.
  intros Hload Hwf Hfresh Henc.
  destruct (sort_entries_desc_archive (entries ++ [entry_json entry]))
    as (sorted & Hsort & Hperm & Hsorted).
  { apply Forall_app. split; [done|].
    constructor; [apply entry_json_archive_entry|done]. }
  exists sorted. split_and!; try done.
  - unfold merge. rewrite Hload. simpl.
    rewrite any_same_date_fresh by done. simpl. rewrite Hsort.
    rewrite write_text_encodable; [done|].
    eapply encodable_perm; [|exact Henc]. by symmetry.
  - rewrite Hperm. apply elem_of_app. right. by left.
Qed.

End Merge.

(** ** Building an entry *)

Section BuildEntry.
Context `{PyUnicode}.
Import DailyBuild.

(** On a str that does not end in a newline, the regular expression of
    [build_entry] is the pattern YYYY-MM-DD. *)
Lemma match_date_iso s :
  last s <> Some 10%N -> match_date s = Spec.iso_date s.
Proof.
  intros Hlast.
  do 10 (destruct s as [|? s]; [done|]).
  destruct s as [|nl s].
  - simpl. repeat (destruct (isdecimal _); simpl; [|by rewrite ?andb_false_r]).
    by destruct (_ =? _)%N, (_ =? _)%N.
  - destruct s as [|? s].
    + simpl in *. destruct (N.eqb_spec nl 10) as [->|_]; [done|].
      by rewrite !andb_false_r.
    + simpl. by rewrite !andb_false_r.
Qed.

Lemma meta_field_absent (meta : gmap string ustring) key :
  meta !! key = None -> meta_field meta key = [].
Proof. intros Hk. unfold meta_field. by rewrite Hk. Qed.

Context `{!PyUnicodeLaws}.

Lemma match_date_strip s : match_date (strip s) = Spec.iso_date (strip s).
Proof.
  apply match_date_iso. intros Hlast. apply strip_last in Hlast.
  by rewrite newline_isspace in Hlast.
Qed.

(** C7, as it holds of [build_entry]. Building an entry fails, and with
    ValidationError, exactly when the metadata [date], once the
    whitespace around it is stripped, is absent or is not of the pattern
    YYYY-MM-DD. On success the entry's [date] is that stripped text, its
    [month] the first 7 code points of it, and every string field that
    the metadata lacks is the empty str: each member of the dict is a
    str, none is null or missing. *)
Theorem build_entry_validates (meta : gmap string ustring)
    (txt_relpath : ustring) (kws : list Keyword) :
  let d := strip (default [] (meta !! "date"%string)) in
  (build_entry meta txt_relpath kws = Err ValidationError
   <-> Spec.iso_date d = false)
  /\ (meta !! "date"%string = None ->
        build_entry meta txt_relpath kws = Err ValidationError)
  /\ (forall e, build_entry meta txt_relpath kws = Err e -> e = ValidationError)
  /\ (forall entry, build_entry meta txt_relpath kws = Ok entry ->
        Spec.iso_date d = true
        /\ date entry = d
        /\ month entry = take 7 (date entry)
        /\ file entry = txt_relpath
        /\ keywords entry = kws
        /\ (meta !! "my_poem_title"%string = None -> my_poem_title entry = [])
        /\ (meta !! "my_poem_snippet"%string = None -> my_poem_snippet entry = [])
        /\ (meta !! "poet"%string = None -> poet (analysis entry) = [])
        /\ (meta !! "poem_title"%string = None -> poem_title (analysis entry) = [])
        /\ (meta !! "poem_snippet"%string = None -> poem_snippet (analysis entry) = [])
        /\ (meta !! "book_title"%string = None -> book_title (analysis entry) = [])
        /\ entry_json entry
           = JObj [("date", JStr d);
                   ("month", JStr (take 7 d));
                   ("file", JStr txt_relpath);
                   ("my_poem_title", JStr (meta_field meta "my_poem_title"));
                   ("my_poem_snippet",
                     JStr (meta_field meta "my_poem_snippet"));
                   ("analysis",
                     JObj [("poet", JStr (meta_field meta "poet"));
                           ("poem_title", JStr (meta_field meta "poem_title"));
                           ("poem_snippet",
                             JStr (meta_field meta "poem_snippet"));
                           ("book_title", JStr (meta_field meta "book_title"))]);
                   ("keywords", JArr (keyword_json <$> kws))]%string).
Proof.
  cbv zeta. unfold build_entry.
  change (meta_field meta "date") with (strip (default [] (meta !! "date"%string))).
  rewrite match_date_strip.
  destruct (Spec.iso_date (strip (default [] (meta !! "date"%string)))) eqn:Hd;
    simpl.
  - split_and!; try done.
    + intros Hnone. by rewrite Hnone in Hd.
    + intros entry [= <-]. simpl.
      split_and!; try done; apply meta_field_absent.
  - split_and!; try done. by intros e [= <-].
Qed.

End BuildEntry.

(** ** The fragment of the tables satisfies the laws *)

Section Latin1Laws.
Local Open Scope N_scope.

Lemma latin1_lower_char_idem c :
  Latin1.lower_char (Latin1.lower_char c) = Latin1.lower_char c.
Proof.
  unfold Latin1.lower_char at 2 3.
  destruct (_ || _) eqn:Hc; unfold Latin1.lower_char; [|by rewrite Hc].
  rewrite !orb_true_iff, !andb_true_iff, !N.leb_le in Hc.
  destruct (N.leb_spec 65 (c + 32)), (N.leb_spec (c + 32) 90),
    (N.leb_spec 192 (c + 32)), (N.leb_spec (c + 32) 214),
    (N.leb_spec 216 (c + 32)), (N.leb_spec (c + 32) 222); simpl;
    first [done | lia].
Qed.

Lemma latin1_lowered c : @lowered latin1 c <-> Latin1.lower_char c = c.
Proof. unfold lowered. simpl. split; [by intros [= ->]|by intros ->]. Qed.

Lemma latin1_assoc {V} (P : N -> V -> bool) table c v :
  forallb (fun kv => P kv.1 kv.2) table = true ->
  Latin1.assoc c table = Some v -> P c v = true.
Proof.
  induction table as [|[k v'] table IH]; simpl; [done|].
  intros [Hk Ht]%andb_true_iff.
  destruct (N.eqb_spec k c) as [->|_]; [by intros [= <-]|by apply IH].
Qed.

Lemma latin1_decompose_lowered c :
  Latin1.lower_char c = c ->
  Forall (fun x => Latin1.lower_char x = x) (Latin1.decompose c).
Proof.
  intros Hc. unfold Latin1.decompose.
  destruct (Latin1.assoc c Latin1.decompositions) as [l|] eqn:Hl; simpl;
    [|by constructor].
  apply (latin1_assoc
           (fun k l => implb (Latin1.lower_char k =? k)
                         (forallb (fun x => Latin1.lower_char x =? x) l)))
    in Hl; [|by vm_compute].
  rewrite Hc, N.eqb_refl in Hl. simpl in Hl.
  apply Forall_forall. intros x Hx.
  rewrite forallb_forall in Hl. apply N.eqb_eq, Hl. by apply list_elem_of_In.
Qed.

Lemma latin1_place_Forall (P : N -> Prop) c s :
  P c -> Forall P s -> Forall P (Latin1.place c s).
Proof.
  intros Hc. induction 1 as [|d s Hd Hs IH]; simpl; [by constructor|].
  destruct (_ || _); by repeat constructor.
Qed.

Lemma latin1_reorder_Forall (P : N -> Prop) s :
  Forall P s -> Forall P (Latin1.reorder s).
Proof.
  induction 1 as [|c s Hc Hs IH]; simpl; [done|].
  destruct (_ =? 0); [by constructor|by apply latin1_place_Forall].
Qed.

Lemma latin1_laws : @PyUnicodeLaws latin1.
Proof.
  split.
  - done.
  - done.
  - done.
  - intros s. apply Forall_forall. intros c Hc.
    apply list_elem_of_fmap in Hc as (c0 & -> & _).
    apply latin1_lowered, latin1_lower_char_idem.
  - intros s Hs. simpl. unfold Latin1.lower.
    induction Hs as [|c s Hc Hs IH]; [done|].
    rewrite fmap_cons, IH. f_equal. by apply latin1_lowered.
  - intros s Hs. simpl. unfold Latin1.nfd.
    apply latin1_reorder_Forall, Forall_bind.
    eapply Forall_impl; [exact Hs|]. intros c Hc. simpl.
    eapply Forall_impl; [apply latin1_decompose_lowered|].
    + by apply latin1_lowered.
    + intros x Hx. by apply latin1_lowered.
Qed.

End Latin1Laws.

(** ** The fragment of the tables satisfies the laws of decomposition *)

Section Latin1NfdLaws.
Local Open Scope N_scope.

Lemma latin1_place_perm c s : Latin1.place c s ≡ₚ c :: s.
Proof.
  induction s as [|d s IH]; simpl; [done|].
  destruct (_ || _); [done|]. rewrite IH. apply perm_swap.
Qed.

Lemma latin1_reorder_perm s : Latin1.reorder s ≡ₚ s.
Proof.
  induction s as [|c s IH]; simpl; [done|].
  destruct (_ =? 0); [by rewrite IH|].
  by rewrite latin1_place_perm, IH.
Qed.

Lemma latin1_nfd_elem_of s c :
  c ∈ Latin1.nfd s <-> exists d, d ∈ s /\ c ∈ Latin1.decompose d.
Proof.
  unfold Latin1.nfd. rewrite latin1_reorder_perm, list_elem_of_bind.
  split; intros (d & ? & ?); by exists d.
Qed.

Lemma latin1_nfd_char c d : d ∈ Latin1.nfd [c] <-> d ∈ Latin1.decompose c.
Proof.
  rewrite latin1_nfd_elem_of. split.
  - by intros (c' & ->%list_elem_of_singleton & Hd).
  - intros Hd. exists c. split; [left|done].
Qed.

(** The table is fully expanded, and none of its entries is empty or
    holds whitespace. *)
Lemma latin1_decompose_table c :
  Latin1.decompose c <> []
  /\ (forall d, d ∈ Latin1.decompose c -> Latin1.decompose d = [d])
  /\ (Latin1.isspace c = false ->
      forall d, d ∈ Latin1.decompose c -> Latin1.isspace d = false).
Proof.
  unfold Latin1.decompose at 1 2 4.
  destruct (Latin1.assoc c Latin1.decompositions) as [l|] eqn:Hl; simpl.
  - apply (latin1_assoc
             (fun _ l => negb (bool_decide (l = []))
                && forallb (fun d =>
                     bool_decide (Latin1.decompose d = [d])
                     && negb (Latin1.isspace d)) l))
      in Hl; [|by vm_compute].
    apply andb_true_iff in Hl as [Hne Hall].
    apply negb_true_iff, bool_decide_eq_false in Hne.
    rewrite forallb_forall in Hall.
    split_and!; [done| |]; intros; 
      match goal with Hd : _ ∈ l |- _ =>
        apply list_elem_of_In, Hall, andb_true_iff in Hd as [Hfix Hsp] end.
    + by apply bool_decide_eq_true in Hfix.
    + by apply negb_true_iff in Hsp.
  - split_and!; [done| |].
    + intros d ->%list_elem_of_singleton. unfold Latin1.decompose.
      by rewrite Hl.
    + by intros Hc d ->%list_elem_of_singleton.
Qed.

Lemma latin1_reorder_one c : Latin1.reorder [c] = [c].
Proof. simpl. by destruct (_ =? 0). Qed.

Lemma latin1_ordered_cons a b t :
  Latin1.ordered (a :: b :: t)
  = ((Latin1.combining a =? 0) || (Latin1.combining b =? 0)
     || (Latin1.combining a <=? Latin1.combining b))
    && Latin1.ordered (b :: t).
Proof. done. Qed.

Lemma latin1_ordered_tail c s :
  Latin1.ordered (c :: s) = true -> Latin1.ordered s = true.
Proof.
  destruct s as [|d s]; [done|]. rewrite latin1_ordered_cons.
  by intros [_ ?]%andb_true_iff.
Qed.

Lemma latin1_ordered_fixed s :
  Latin1.ordered s = true -> Latin1.reorder s = s.
Proof.
  induction s as [|c s IH]; [done|]. intros Hord.
  simpl. rewrite (IH (latin1_ordered_tail c s Hord)).
  destruct (Latin1.combining c =? 0) eqn:Hc; [done|].
  destruct s as [|d s]; [done|].
  rewrite latin1_ordered_cons, Hc in Hord. simpl in Hord.
  apply andb_true_iff in Hord as [Hcd _]. simpl. by rewrite Hcd.
Qed.

Lemma latin1_place_ordered c s :
  Latin1.ordered s = true -> Latin1.ordered (Latin1.place c s) = true.
Proof.
  induction s as [|d s IH]; [done|]. intros Hord.
  specialize (IH (latin1_ordered_tail d s Hord)). cbn [Latin1.place].
  destruct ((Latin1.combining d =? 0)
            || (Latin1.combining c <=? Latin1.combining d)) eqn:Hcd.
  { rewrite latin1_ordered_cons, Hord, andb_true_r.
    apply orb_true_iff in Hcd as [-> | ->]; by rewrite ?orb_true_r. }
  apply orb_false_iff in Hcd as [Hd Hcd].
  assert ((Latin1.combining d <=? Latin1.combining c) = true) as Hdc.
  { apply N.leb_le. apply N.leb_gt in Hcd. lia. }
  destruct s as [|e s].
  { simpl. by rewrite Hdc, !orb_true_r. }
  rewrite latin1_ordered_cons in Hord.
  apply andb_true_iff in Hord as [Hde _].
  cbn [Latin1.place] in *.
  destruct ((Latin1.combining e =? 0)
            || (Latin1.combining c <=? Latin1.combining e)).
  - by rewrite latin1_ordered_cons, Hdc, IH, !orb_true_r.
  - by rewrite latin1_ordered_cons, Hde, IH.
Qed.

Lemma latin1_reorder_ordered s : Latin1.ordered (Latin1.reorder s) = true.
Proof.
  induction s as [|c s IH]; [done|]. simpl.
  destruct (Latin1.combining c =? 0) eqn:Hc; [|by apply latin1_place_ordered].
  destruct (Latin1.reorder s); [done|].
  by rewrite latin1_ordered_cons, Hc, IH.
Qed.

Lemma latin1_bind_fixed t :
  Forall (fun d => Latin1.decompose d = [d]) t -> t ≫= Latin1.decompose = t.
Proof.
  induction 1 as [|d t Hd _ IH]; [done|].
  by rewrite bind_cons, Hd, IH.
Qed.

Lemma latin1_nfd_idempotent s : Latin1.nfd (Latin1.nfd s) = Latin1.nfd s.
Proof.
  unfold Latin1.nfd. set (t := s ≫= Latin1.decompose).
  assert (Forall (fun d => Latin1.decompose d = [d]) t) as Ht.
  { apply Forall_forall. intros d (c & Hd & _)%list_elem_of_bind.
    by apply (latin1_decompose_table c). }
  rewrite latin1_bind_fixed by (by rewrite latin1_reorder_perm).
  apply latin1_ordered_fixed, latin1_reorder_ordered.
Qed.

Lemma latin1_place_starter c l r :
  Latin1.place c (l ++ 32 :: r) = Latin1.place c l ++ 32 :: r.
Proof.
  induction l as [|d l IH]; [done|]. simpl.
  destruct (_ || _); [done|]. by rewrite IH.
Qed.

Lemma latin1_reorder_starter l r :
  Latin1.reorder (l ++ 32 :: r) = Latin1.reorder l ++ 32 :: Latin1.reorder r.
Proof.
  induction l as [|c l IH]; [done|]. simpl. rewrite IH.
  destruct (_ =? 0); [done|]. apply latin1_place_starter.
Qed.

Lemma latin1_nfd_laws : @PyNfdLaws latin1.
Proof.
  split; simpl.
  - intros s c. rewrite latin1_nfd_elem_of.
    split; intros (d & Hd & Hc); exists d; by rewrite latin1_nfd_char in *.
  - intros c d Hd%latin1_nfd_char. unfold Latin1.nfd.
    rewrite bind_singleton.
    rewrite (proj1 (proj2 (latin1_decompose_table c)) d Hd).
    apply latin1_reorder_one.
  - intros c Hnil. destruct (latin1_decompose_table c) as (Hne & _).
    destruct (Latin1.decompose c) as [|d l] eqn:Hd; [done|].
    assert (d ∈ Latin1.nfd [c]) as Hin.
    { apply latin1_nfd_char. rewrite Hd. left. }
    rewrite Hnil in Hin. by apply elem_of_nil in Hin.
  - apply latin1_nfd_idempotent.
  - intros a b. unfold Latin1.nfd.
    rewrite bind_app, bind_cons. apply latin1_reorder_starter.
  - intros c d Hc Hd%latin1_nfd_char.
    by apply (latin1_decompose_table c).
Qed.

End Latin1NfdLaws.

(** ** The properties at the sample inputs *)

Section Instances.
Import DailyBuild Samples.

Ltac by_compute := apply (bool_decide_unpack _); vm_compute; exact I.

(** The Spanish example of the prompt: accents go, case folds. *)
Example ilusion_normalized :
  @normalize_no_accents latin1 [73; 108; 117; 115; 105; 243; 110]%N
  = u "ilusion".
Proof. by vm_compute. Qed.

(** Stripping comes before the marks are removed, so whitespace that a
    mark shielded stays at the end of the word. *)
Example shielded_space :
  @normalize_no_accents latin1 [97; 32; 769]%N = u "a "
  /\ @normalize_no_accents latin1 (u "a ") = u "a".
Proof. by vm_compute. Qed.

(** The precomposed spelling is not accent-free: its decomposition
    holds U+0301. *)
Example precomposed_not_accent_free :
  ~ @Spec.accent_free latin1 [105; 108; 117; 115; 105; 243; 110]%N
  /\ @Spec.accent_free latin1 (u "ilusion").
Proof. split; by_compute. Qed.

(** C6 at the sample candidates, in both scripts. *)
Lemma canonicalize_words_witness :
  (@enforce_keyword_rules latin1 raw_candidates
   = [mkKeyword (u "mar adentro") 3; mkKeyword (u "amor") 3;
      mkKeyword (u "ilusion") 2; mkKeyword (u "noche") 1]
   /\ (length (@enforce_keyword_rules latin1 raw_candidates) <= 30)%nat
   /\ Forall (@Spec.clean_word latin1)
        (word <$> @enforce_keyword_rules latin1 raw_candidates)
   /\ NoDup (word <$> @enforce_keyword_rules latin1 raw_candidates))
  /\ (@GenKeywords.main_keywords latin1 (JArr (JObj <$> raw_candidates))
      = Ok [mkKeyword (u "ilusion") 3; mkKeyword (u "mar adentro") 3;
            mkKeyword (u "noche") 1]
      /\ Forall (@Spec.clean_word latin1)
           (u <$> ["ilusion"; "mar adentro"; "noche"]%string)).
Proof.
  destruct (@canonicalize_words latin1 latin1_laws latin1_nfd_laws)
    as [Hdaily Hgen].
  split.
  - split; [by vm_compute|]. apply Hdaily.
  - split; [by vm_compute|].
    apply (Hgen (JArr (JObj <$> raw_candidates))
             [mkKeyword (u "ilusion") 3; mkKeyword (u "mar adentro") 3;
              mkKeyword (u "noche") 1]).
    by vm_compute.
Defined.

(** A word that begins with a space is lowercase, accent-free and
    whitespace-collapsed, so the list that holds it alone is canonical
    and tiered. The first application strips it; the second changes
    nothing more. *)
Example padded_word_settles :
  @Spec.canonical_tiered latin1 [mkKeyword (u " a") 3]
  /\ @Spec.pipeline latin1 [keyword_dict (mkKeyword (u " a") 3)]
     = [mkKeyword (u "a") 3]
  /\ @Spec.pipeline latin1 [keyword_dict (mkKeyword (u "a") 3)]
     = [mkKeyword (u "a") 3].
Proof.
  split; [|by vm_compute].
  split; [|split; [|split]].
  - constructor; [|constructor].
    split; [done|]. split; [by vm_compute|]. split; [by_compute|].
    split; [by_compute|].
    intros [|[|i]] a b Ha Hb; simplify_eq/=. by vm_compute.
  - by_compute.
  - apply tiered_fixed. by vm_compute.
  - simpl. lia.
Qed.


(** C2 at the sample archive: a second entry of 2025-02-01 is refused
    and the file stays as it was. *)
Lemma merge_duplicate_date_witness :
  merge archive_file (entry_of "2025-02-01")
  = (Err DuplicateDateError, archive_file).
Proof.
  apply (merge_duplicate_date archive_file [february]).
  - reflexivity.
  - repeat constructor. exists [("date"%string, JStr (u "2025-02-01"))].
    split; [reflexivity|]. right. by eexists.
  - constructor. by eexists.
Defined.

(** C8 at the specification's example: merging 2025-01-01 into an
    archive that holds 2025-02-01 yields 2025-02-01, then 2025-01-01. *)
Lemma merge_sorted_desc_witness :
  merge archive_file (entry_of "2025-01-01")
  = (Ok [february; entry_json (entry_of "2025-01-01")],
     JsonFile (JArr [february; entry_json (entry_of "2025-01-01")]))
  /\ Spec.sorted_by_date_desc [february; entry_json (entry_of "2025-01-01")].
Proof.
  destruct (merge_sorted_desc archive_file [february] (entry_of "2025-01-01"))
    as (sorted & Hmerge & _ & _ & Hsorted & _).
  - reflexivity.
  - repeat constructor. exists [("date"%string, JStr (u "2025-02-01"))].
    split; [reflexivity|]. right. by eexists.
  - repeat constructor. intros (kv & [= <-] & Hd). by vm_compute in Hd.
  - reflexivity.
  - assert (merge archive_file (entry_of "2025-01-01")
            = (Ok [february; entry_json (entry_of "2025-01-01")],
               JsonFile (JArr [february; entry_json (entry_of "2025-01-01")])))
      as Heq by (by vm_compute).
    split; [done|]. rewrite Heq in Hmerge. by injection Hmerge as <-.
Defined.

(** C7 at the sample metadata: the date is of the pattern, the entry is
    built, its month is 2025-03 and the fields without metadata are
    empty. *)
Lemma build_entry_validates_witness :
  @build_entry latin1 dated_meta (u "textos/2025-03-10.txt") []
  = Ok {| date := u "2025-03-10"; month := u "2025-03";
          file := u "textos/2025-03-10.txt";
          my_poem_title := u "Orilla"; my_poem_snippet := [];
          analysis := mkAnalysis [] [] [] []; keywords := [] |}
  /\ @Spec.iso_date latin1 (u "2025-03-10") = true.
Proof.
  assert (@build_entry latin1 dated_meta (u "textos/2025-03-10.txt") []
          = Ok {| date := u "2025-03-10"; month := u "2025-03";
                  file := u "textos/2025-03-10.txt";
                  my_poem_title := u "Orilla"; my_poem_snippet := [];
                  analysis := mkAnalysis [] [] [] []; keywords := [] |})
    as Hbuilt by (by vm_compute).
  split; [done|].
  destruct (@build_entry_validates latin1 latin1_laws dated_meta
              (u "textos/2025-03-10.txt") []) as (_ & _ & _ & Hok).
  destruct (Hok _ Hbuilt) as (Hiso & _). exact Hiso.
Defined.

(** C3: a file of length zero does not load as the empty sequence. *)
Lemma empty_file_raises :
  load_entries EmptyFile = Err JSONDecodeError
  /\ load_entries EmptyFile <> Ok [].
Proof. done. Qed.

(** C4: [call_openai_keywords] raises on a flat list, which
    [parse_keywords_json] takes. *)
Lemma flat_list_refused :
  @call_openai_keywords latin1 (JArr (keyword_json <$> tiered_keywords))
  = Err AttributeError
  /\ @GenKeywords.parse_keywords_json latin1
       (JArr (keyword_json <$> tiered_keywords))
     = Ok tiered_keywords.
Proof. by vm_compute. Qed.

(** C5: [main] of gen_keywords.py truncates without sorting: of 31
    distinct candidates, the last one, of weight 3, is cut off while 30
    of weight 1 are kept. *)
Lemma late_core_dropped :
  @GenKeywords.main_keywords latin1 (JArr (keyword_json <$> thirty_one))
  = Ok (numbered <$> seq 0 30)
  /\ (late_core ∈ thirty_one)
  /\ (late_core ∉ numbered <$> seq 0 30)
  /\ Forall (fun kw => weight kw < weight late_core) (numbered <$> seq 0 30).
Proof. split_and!; [by vm_compute|by_compute..]. Qed.

(** C7: a date with whitespace around it is not of the pattern
    YYYY-MM-DD, and the entry is built all the same. *)
Lemma padded_date_accepted :
  padded_meta !! "date"%string = Some (u " 2025-03-10 ")
  /\ @Spec.iso_date latin1 (u " 2025-03-10 ") = false
  /\ @build_entry latin1 padded_meta (u "textos/2025-03-10.txt") []
     = Ok (entry_of "2025-03-10").
Proof. by vm_compute. Qed.

(** C8: an archive that holds a lone surrogate cannot be written back.
    It loads, it is well formed, and 2025-01-01 is a new date for it;
    yet the merge raises UnicodeEncodeError at the write and leaves the
    file empty, which then does not load. *)
Lemma surrogate_not_written :
  load_entries surrogate_file = Ok [lone_surrogate]
  /\ Forall Spec.archive_entry [lone_surrogate]
  /\ Forall (fun e => ~ Spec.has_date (date (entry_of "2025-01-01")) e)
       [lone_surrogate]
  /\ merge surrogate_file (entry_of "2025-01-01")
     = (Err UnicodeEncodeError, EmptyFile)
  /\ load_entries EmptyFile = Err JSONDecodeError.
Proof.
  split_and!; try reflexivity.
  - repeat constructor. eexists. split; [reflexivity|]. right. by eexists.
  - repeat constructor. intros (kv & [= <-] & Hd). by vm_compute in Hd.
Qed.

End Instances.

(** * Further properties of the code *)

(** ** More on re-tiering *)

Section RetierMore.
Import DailyBuild.

Lemma fmap_const_replicate {A B} (f : A -> B) (c : B) (l : list A) :
  Forall (fun x => f x = c) l -> f <$> l = replicate (length l) c.
Proof.
  induction 1 as [|x l Hx _ IH]; [done|].
  rewrite fmap_cons, Hx, IH. done.
Qed.

(** Re-tiering a list that is already tiered changes nothing. *)
Theorem redistribute_weights_idempotent (kws : list Keyword) :
  redistribute_weights (redistribute_weights kws) = redistribute_weights kws.
Proof.
  apply list_eq. intros i.
  rewrite (redistribute_lookup (redistribute_weights kws)),
    redistribute_length, redistribute_lookup.
  by destruct (kws !! i).
Qed.

(** The weights that [redistribute_weights] returns, read from the
    first entry on: the top band of threes, the middle band of twos,
    then ones. Thirty keywords get 5, 10 and 15 of them. *)
Theorem redistribute_weights_shape (kws : list Keyword) :
  let n := Z.of_nat (length kws) in
  let top := Spec.top_band n in
  let mid := Spec.mid_band (n - top) in
  weight <$> redistribute_weights kws
  = replicate (Z.to_nat top) 3 ++ replicate (Z.to_nat mid) 2
    ++ replicate (Z.to_nat (n - top - mid)) 1.
Proof.
  cbv zeta. rewrite redistribute_weights_by_rank.
  set (n := Z.of_nat (length kws)).
  destruct (bands_fit n ltac:(lia)) as [Htop Hmid].
  set (top := Spec.top_band n) in *.
  set (mid := Spec.mid_band (n - top)) in *.
  replace (length kws)
    with (Z.to_nat top + (Z.to_nat mid + Z.to_nat (n - top - mid)))%nat
    by lia.
  rewrite !seq_app, !fmap_app.
  assert (forall a len c,
            (forall i, (a <= i < a + len)%nat ->
               Spec.tier_of_rank n (Z.of_nat i) = c) ->
            (fun i => Spec.tier_of_rank n (Z.of_nat i)) <$> seq a len
            = replicate len c) as Hband.
  { intros a len c Hc. rewrite (fmap_const_replicate _ c), length_seq; [done|].
    apply Forall_forall. intros i Hi%elem_of_seq. by apply Hc. }
  f_equal; [|f_equal]; apply Hband; intros i Hi;
    unfold Spec.tier_of_rank; cbv zeta; fold n top mid;
    destruct (Z.ltb_spec (Z.of_nat i) top),
      (Z.ltb_spec (Z.of_nat i) (top + mid)); first [done | lia].
Qed.

End RetierMore.

(** ** More on [dedupe_keep_best] *)

Section DedupeMore.
Import GenKeywords Invariants More.

Lemma best_inv_step done seen order k :
  best_inv done seen ->
  best_inv (done ++ [k]) (dedupe_step (seen, order) k).1.
Proof.
  intros [Hkeys Hbest]. unfold dedupe_step.
  destruct (seen !! word k) as [best|] eqn:Hk; simpl; split.
  - intros k' [Hk' | ->%list_elem_of_singleton]%elem_of_app.
    + destruct (decide (word k = word k')) as [Heq|Hne].
      * rewrite Heq, lookup_insert_eq. by eexists.
      * rewrite lookup_insert_ne by done. by apply Hkeys.
    + rewrite lookup_insert_eq. by eexists.
  - intros w v. destruct (decide (word k = w)) as [<-|Hne].
    + rewrite lookup_insert_eq. intros [= <-].
      destruct (Hbest _ _ Hk) as [(k0 & Hk0 & Hw0 & Hv0) Hmax].
      simpl in *. split; simpl.
      * destruct (Z.max_spec best (weight k)) as [[_ ->]|[_ ->]].
        -- exists k. split_and!; [|done..]. apply elem_of_app. right. by left.
        -- exists k0. split_and!; [|done..]. apply elem_of_app. by left.
      * intros k' [Hk' | ->%list_elem_of_singleton]%elem_of_app Hw; [|lia].
        specialize (Hmax k' Hk' Hw). lia.
    + rewrite lookup_insert_ne by done. intros Hw.
      destruct (Hbest _ _ Hw) as [(k0 & Hk0 & Hw0 & Hv0) Hmax]. simpl in *.
      split; simpl.
      * exists k0. split_and!; [|done..]. apply elem_of_app. by left.
      * intros k' [Hk' | ->%list_elem_of_singleton]%elem_of_app Hw';
          [by apply Hmax|done].
  - intros k' [Hk' | ->%list_elem_of_singleton]%elem_of_app.
    + destruct (decide (word k = word k')) as [Heq|Hne].
      * rewrite Heq, lookup_insert_eq. by eexists.
      * rewrite lookup_insert_ne by done. by apply Hkeys.
    + rewrite lookup_insert_eq. by eexists.
  - intros w v. destruct (decide (word k = w)) as [<-|Hne].
    + rewrite lookup_insert_eq. intros [= <-]. split; simpl.
      * exists k. split_and!; [|done..]. apply elem_of_app. right. by left.
      * intros k' [Hk' | ->%list_elem_of_singleton]%elem_of_app Hw; [|lia].
        destruct (Hkeys k' Hk') as [? Hsome]. congruence.
    + rewrite lookup_insert_ne by done. intros Hw.
      destruct (Hbest _ _ Hw) as [(k0 & Hk0 & Hw0 & Hv0) Hmax]. simpl in *.
      split; simpl.
      * exists k0. split_and!; [|done..]. apply elem_of_app. by left.
      * intros k' [Hk' | ->%list_elem_of_singleton]%elem_of_app Hw';
          [by apply Hmax|done].
Qed.

Lemma best_inv_foldl keywords done st :
  best_inv done st.1 ->
  best_inv (done ++ keywords) (foldl dedupe_step st keywords).1.
Proof.
  revert done st. induction keywords as [|k keywords IH]; intros done st Hst.
  { by rewrite app_nil_r. }
  cbn [foldl]. rewrite (assoc_L (++) done [k] keywords : done ++ k :: keywords = _).
  apply IH. destruct st as [seen order]. by apply best_inv_step.
Qed.

Lemma dedupe_state keywords :
  dedupe_inv (foldl dedupe_step (∅, []) keywords)
  /\ best_inv keywords (foldl dedupe_step (∅, []) keywords).1.
Proof.
  split.
  - apply (foldl_invariant dedupe_inv); [|intros; by apply dedupe_step_inv].
    split; simpl; [constructor|]. intros w. rewrite lookup_empty.
    split; [by intros ?%elem_of_nil|by intros []].
  - apply (best_inv_foldl keywords [] (∅, [])). split; simpl.
    + by intros k ?%elem_of_nil.
    + intros w v. by rewrite lookup_empty.
Qed.

Lemma dedupe_elem_of keywords kw :
  kw ∈ dedupe_keep_best keywords <-> is_best keywords kw.
Proof.
  destruct (dedupe_state keywords) as [[_ Hdom] [Hkeys Hbest]].
  unfold dedupe_keep_best.
  destruct (foldl dedupe_step (∅, []) keywords) as [seen order]. simpl in *.
  rewrite list_elem_of_fmap. split.
  - intros (w & -> & [v Hv]%Hdom).
    rewrite (lookup_total_correct _ _ _ Hv). by apply Hbest.
  - intros [(k & Hk & Hw & Hv) Hmax].
    destruct (Hkeys k Hk) as [v' Hv'].
    destruct (Hbest _ _ Hv') as [(k' & Hk' & Hw' & Hv'') Hmax']. simpl in *.
    assert (v' = weight kw) as ->.
    { apply Z.le_antisymm.
      - rewrite <- Hv''. apply Hmax; congruence.
      - rewrite <- Hv. by apply Hmax'. }
    exists (word kw). split.
    + rewrite <- Hw, (lookup_total_correct _ _ _ Hv'), Hw. by destruct kw.
    + apply Hdom. rewrite <- Hw. by eexists.
Qed.

(** [dedupe_keep_best] returns every distinct word of its input once, in
    the order of first appearance, with the heaviest weight the word
    carries anywhere in the input. *)
Theorem dedupe_keep_best_best (keywords : list Keyword) :
  NoDup (word <$> dedupe_keep_best keywords)
  /\ word <$> dedupe_keep_best keywords
     = Spec.first_occurrences (word <$> keywords)
  /\ forall kw, kw ∈ dedupe_keep_best keywords <-> is_best keywords kw.
Proof.
  split_and!.
  - apply dedupe_NoDup.
  - apply dedupe_first_occurrences.
  - apply dedupe_elem_of.
Qed.

End DedupeMore.

Section DedupeFixed.
Import GenKeywords More.

Lemma first_occurrences_from (order ws : list (list N)) :
  NoDup (order ++ ws) ->
  foldl (fun order w => if decide (w ∈ order) then order else order ++ [w])
    order ws
  = order ++ ws.
Proof.
  revert order. induction ws as [|w ws IH]; intros order Hnd; simpl.
  { by rewrite app_nil_r. }
  rewrite decide_False.
  - rewrite IH; [by rewrite <- app_assoc|]. by rewrite <- app_assoc.
  - apply NoDup_app in Hnd as (_ & Hdisj & _). intros Hw.
    apply (Hdisj w Hw). by left.
Qed.

Lemma keywords_eq_by_words (l1 l2 : list Keyword) :
  word <$> l1 = word <$> l2 -> NoDup (word <$> l2) ->
  (forall o, o ∈ l1 ->
     exists k, k ∈ l2 /\ word k = word o /\ weight k = weight o) ->
  l1 = l2.
Proof.
  revert l2. induction l1 as [|o l1 IH]; intros [|k l2] Hw Hnd Hin;
    try done.
  rewrite !fmap_cons in Hw. injection Hw as Hwo Hws.
  rewrite fmap_cons in Hnd. apply NoDup_cons in Hnd as [Hk Hnd].
  f_equal.
  - destruct (Hin o) as (k' & Hk' & Hw' & Hv'); [by left|].
    apply elem_of_cons in Hk' as [->|Hk'].
    + destruct o, k. simpl in *. congruence.
    + destruct Hk. rewrite <- Hwo, <- Hw'. by apply list_elem_of_fmap_2.
  - apply IH; [done|done|]. intros o' Ho'.
    destruct (Hin o') as (k' & Hk' & Hw' & Hv'); [by right|].
    apply elem_of_cons in Hk' as [->|Hk']; [|by eauto].
    destruct Hk. rewrite Hw', <- Hws. by apply list_elem_of_fmap_2.
Qed.

Lemma dedupe_distinct keywords :
  NoDup (word <$> keywords) -> dedupe_keep_best keywords = keywords.
Proof.
  intros Hnd. apply keywords_eq_by_words; [|done|].
  - rewrite dedupe_first_occurrences. unfold Spec.first_occurrences.
    by rewrite first_occurrences_from.
  - intros o Ho. by apply dedupe_elem_of in Ho as [? _].
Qed.

(** [dedupe_keep_best] leaves a list of distinct words as it is, and so
    a second pass over its own result changes nothing. *)
Theorem dedupe_keep_best_idempotent (keywords : list Keyword) :
  (NoDup (word <$> keywords) -> dedupe_keep_best keywords = keywords)
  /\ dedupe_keep_best (dedupe_keep_best keywords) = dedupe_keep_best keywords.
Proof.
  split; [apply dedupe_distinct|]. apply dedupe_distinct, dedupe_NoDup.
Qed.

End DedupeFixed.

(** ** The first occurrence wins in [enforce_keyword_rules] *)

Section FirstWins.
Context `{PyUnicode}.
Import DailyBuild More.

(** The two scripts clamp a weight alike. *)
Lemma clamp_alike w :
  (if 3 <=? w then 3 else if w =? 2 then 2 else 1)
  = (if 3 <? w then 3 else if w <? 1 then 1 else w).
Proof.
  destruct (Z.leb_spec 3 w), (Z.eqb_spec w 2), (Z.ltb_spec 3 w),
    (Z.ltb_spec w 1); lia.
Qed.

Lemma enforce_step_candidate cleaned seen it :
  enforce_step (cleaned, seen) it
  = match candidate it with
    | Some kw =>
        if decide (word kw ∈ seen) then (cleaned, seen)
        else (cleaned ++ [kw], {[word kw]} ∪ seen)
    | None => (cleaned, seen)
    end.
Proof.
  unfold enforce_step, candidate, GenKeywords.clamp_weight. cbv zeta.
  destruct (decide (_ = [])); [done|]. simpl. by rewrite clamp_alike.
Qed.

Lemma cleaned_of_from items cleaned seen :
  (forall w, w ∈ seen <-> w ∈ word <$> cleaned) ->
  (foldl enforce_step (cleaned, seen) items).1
  = foldl (fun kept k =>
             if decide (word k ∈ word <$> kept) then kept else kept ++ [k])
      cleaned (omap candidate items).
Proof.
  revert cleaned seen.
  induction items as [|it items IH]; intros cleaned seen Hseen; [done|].
  cbn [foldl]. rewrite enforce_step_candidate.
  change (omap candidate (it :: items))
    with (match candidate it with
          | Some kw => kw :: omap candidate items
          | None => omap candidate items
          end).
  destruct (candidate it) as [kw|]; [|by apply IH]. cbn [foldl].
  destruct (decide (word kw ∈ seen)) as [Hin|Hout].
  - rewrite decide_True by by apply Hseen. by apply IH.
  - rewrite decide_False by by rewrite <- Hseen. apply IH.
    intros w. rewrite fmap_app, elem_of_union, elem_of_singleton, elem_of_app,
      Hseen. simpl. rewrite list_elem_of_singleton. tauto.
Qed.

Lemma first_wins_snoc kws k :
  first_wins (kws ++ [k])
  = if decide (word k ∈ word <$> first_wins kws) then first_wins kws
    else first_wins kws ++ [k].
Proof. unfold first_wins. by rewrite foldl_snoc. Qed.

Lemma first_wins_words kws w :
  w ∈ word <$> first_wins kws <-> w ∈ word <$> kws.
Proof.
  induction kws as [|k kws IH] using rev_ind; [done|].
  rewrite first_wins_snoc, !fmap_app, elem_of_app. simpl.
  rewrite list_elem_of_singleton. case_decide as Hk.
  - rewrite IH. split; [tauto|]. intros [?| ->]; [done|]. by apply IH.
  - rewrite fmap_app, elem_of_app, IH. simpl.
    by rewrite list_elem_of_singleton.
Qed.

Lemma first_wins_elem_of kws kw :
  kw ∈ first_wins kws
  <-> exists before after,
        kws = before ++ kw :: after /\ word kw ∉ word <$> before.
Proof.
  induction kws as [|k kws IH] using rev_ind.
  { split; [by intros ?%elem_of_nil|]. by intros ([|??] & ? & ? & _). }
  rewrite first_wins_snoc. case_decide as Hk.
  - rewrite IH. split.
    + intros (b & a & -> & Hb). exists b, (a ++ [k]).
      by rewrite <- app_assoc.
    + intros (b & a & Heq & Hb).
      destruct a as [|x a _] using rev_ind.
      * apply app_inj_tail in Heq as [<- <-].
        destruct Hb. by apply first_wins_words.
      * rewrite app_comm_cons, app_assoc in Heq.
        apply app_inj_tail in Heq as [-> _]. by exists b, a.
  - rewrite elem_of_app, list_elem_of_singleton, IH. split.
    + intros [(b & a & -> & Hb)| ->].
      * exists b, (a ++ [k]). by rewrite <- app_assoc.
      * exists kws, []. split; [done|]. by rewrite <- first_wins_words.
    + intros (b & a & Heq & Hb).
      destruct a as [|x a _] using rev_ind.
      * apply app_inj_tail in Heq as [_ <-]. by right.
      * rewrite app_comm_cons, app_assoc in Heq.
        apply app_inj_tail in Heq as [-> _]. left. by exists b, a.
Qed.

(** On a repeated word [enforce_keyword_rules] keeps the first
    occurrence, with its own weight, and ignores the later ones, heavier
    or not: before it sorts, its list is the first-wins selection of the
    items' candidates, a candidate being the normalised word with the
    weight clamped as gen_keywords.py clamps it. *)
Theorem enforce_first_occurrence_wins (items : list dict) :
  cleaned_of items = first_wins (omap candidate items)
  /\ word <$> cleaned_of items
     = Spec.first_occurrences (word <$> omap candidate items)
  /\ forall kw,
       kw ∈ cleaned_of items
       <-> exists before after,
             omap candidate items = before ++ kw :: after
             /\ word kw ∉ word <$> before.
Proof.
  assert (cleaned_of items = first_wins (omap candidate items)) as Heq.
  { unfold cleaned_of, first_wins. apply cleaned_of_from. set_solver. }
  split_and!; [done| |].
  - rewrite Heq. generalize (omap candidate items). intros kws.
    unfold Spec.first_occurrences.
    induction kws as [|k kws IH] using rev_ind; [done|].
    rewrite first_wins_snoc, (fmap_app word kws [k]).
    change (word <$> [k]) with [word k]. rewrite foldl_snoc, <- IH.
    destruct (decide (word k ∈ word <$> first_wins kws)); [done|].
    by rewrite fmap_app.
  - intros kw. rewrite Heq. apply first_wins_elem_of.
Qed.

End FirstWins.

(** ** Weights stay in range *)

Section WeightRange.
Context `{PyUnicode}.
Import More.

Lemma clamp_weight_range v : GenKeywords.clamp_weight v ∈ [1; 2; 3].
Proof.
  unfold GenKeywords.clamp_weight. cbv zeta. apply elem_of_123.
  destruct (Z.ltb_spec 3 (default 1 (py_int v))),
    (Z.ltb_spec (default 1 (py_int v)) 1); lia.
Qed.

Lemma clean_item_weight item kw :
  GenKeywords.clean_item item = Some kw -> weight kw ∈ [1; 2; 3].
Proof.
  destruct item; simpl; try done.
  destruct (decide _); [done|]. intros [= <-]. apply clamp_weight_range.
Qed.

(** Whatever a candidate carries as its weight (a number out of range,
    a float, a str, nothing at all), every keyword that either script
    returns before re-tiering has weight 1, 2 or 3: [clamp_weight] always
    lands there, and so do [enforce_keyword_rules] and the keywords that
    [main] of gen_keywords.py keeps. *)
Theorem weights_in_range :
  (forall v : json, GenKeywords.clamp_weight v ∈ [1; 2; 3])
  /\ (forall (items : list dict) kw,
        kw ∈ DailyBuild.enforce_keyword_rules items -> weight kw ∈ [1; 2; 3])
  /\ (forall (data : json) out kw,
        GenKeywords.main_keywords data = Ok out -> kw ∈ out ->
        weight kw ∈ [1; 2; 3]).
Proof.
  split_and!.
  - apply clamp_weight_range.
  - intros items kw Hkw. unfold DailyBuild.enforce_keyword_rules in Hkw.
    apply subseteq_take in Hkw. rewrite sort_by_weight_perm in Hkw.
    destruct (cleaned_of_inv items) as (_ & _ & Hall).
    rewrite Forall_forall in Hall. by destruct (Hall kw Hkw) as (_ & _ & ?).
  - intros data out kw Hout Hkw.
    apply main_keywords_inv in Hout as [items ->].
    apply subseteq_take in Hkw.
    apply dedupe_elem_of in Hkw as [(k & Hk & _ & <-) _].
    apply list_elem_of_omap in Hk as (item & _ & Hitem).
    by apply clean_item_weight in Hitem.
Qed.

End WeightRange.

(** ** What [call_openai_keywords] does with a response *)

Section Response.
Context `{PyUnicode}.
Import DailyBuild.

Lemma mapM_as_dict_cases (kws : list json) :
  (exists items, kws = JObj <$> items /\ mapM as_dict kws = Ok items)
  \/ (mapM as_dict kws = Err AttributeError
      /\ exists v, v ∈ kws /\ forall d, v <> JObj d).
Proof.
  induction kws as [|v kws IH].
  { left. by exists []. }
  destruct v as [| | | | | |d];
    try (right; split; [done|]; eexists; split; [by left|done]).
  destruct IH as [(items & -> & Hm)|(Hm & v & Hv & Hno)].
  - left. exists (d :: items). split; [done|]. simpl. by rewrite Hm.
  - right. split; [simpl; by rewrite Hm|]. exists v. split; [by right|done].
Qed.

(** [call_openai_keywords] fails only with AttributeError, and exactly
    when the decoded response is not an object or its [keywords] list
    holds something that is not an object. An object without a
    [keywords] member, or with one that is not a list, gives no
    keywords and no error. What it returns on success has at most 30
    keywords, no word twice, and is tiered: re-tiering would not change
    it. *)
Theorem call_openai_keywords_outcome (data : json) :
  (forall e, call_openai_keywords data = Err e -> e = AttributeError)
  /\ (call_openai_keywords data = Err AttributeError
      <-> (forall d, data <> JObj d)
          \/ exists d kws v,
               data = JObj d /\ dict_get "keywords" d = Some (JArr kws)
               /\ v ∈ kws /\ forall d', v <> JObj d')
  /\ (forall d, data = JObj d -> dict_get "keywords" d = None ->
        call_openai_keywords data = Ok [])
  /\ (forall d v, data = JObj d -> dict_get "keywords" d = Some v ->
        (forall l, v <> JArr l) -> call_openai_keywords data = Ok [])
  /\ (forall kws, call_openai_keywords data = Ok kws ->
        (length kws <= 30)%nat
        /\ NoDup (word <$> kws)
        /\ redistribute_weights kws = kws).
Proof.
  assert (forall items,
            let kws := redistribute_weights (enforce_keyword_rules items) in
            (length kws <= 30)%nat /\ NoDup (word <$> kws)
            /\ redistribute_weights kws = kws) as Hgood.
  { intros items. cbv zeta. split_and!.
    - rewrite redistribute_length. apply enforce_length.
    - rewrite redistribute_words. apply enforce_NoDup.
    - apply list_eq. intros i.
      rewrite (redistribute_lookup (redistribute_weights _)),
        redistribute_length, redistribute_lookup.
      by destruct (_ !! i). }
  assert ((0 <= 30)%nat /\ NoDup (word <$> @nil Keyword)
          /\ redistribute_weights [] = []) as Hnil.
  { split_and!; [lia|constructor|done]. }
  destruct data as [| | | | | |d];
    try (split_and!; try done; [by intros ? [= <-]|];
         split; [by left|done]).
  unfold call_openai_keywords, get_or.
  destruct (dict_get "keywords" d) as [v|] eqn:Hd; simpl.
  2: { split_and!; try done.
       - split; [done|]. intros [Hno|(? & ? & ? & [= <-] & ? & _)];
           [by destruct (Hno d)|congruence].
       - intros kws [= <-]. exact Hnil. }
  destruct v as [| | | | |kws|];
    try (split_and!; try done;
         [split; [done|];
          intros [Hno|(? & ? & ? & [= <-] & ? & _)];
            [by destruct (Hno d)|congruence]
         |intros kws [= <-]; exact Hnil]).
  destruct (mapM_as_dict_cases kws) as [(items & -> & Hm)|(Hm & v & Hv & Hno)];
    rewrite Hm; simpl.
  - split_and!; try done.
    + split; [done|].
      intros [Hnod|(? & ? & v & [= <-] & Hd' & Hv & Hno)];
        [by destruct (Hnod d)|].
      rewrite Hd in Hd'. injection Hd' as <-.
      apply list_elem_of_fmap in Hv as (d' & -> & _). by destruct (Hno d').
    + intros d' [= <-]. congruence.
    + intros d' v' [= <-]. rewrite Hd. intros [= <-] Hno.
      by destruct (Hno (JObj <$> items)).
    + intros kws [= <-]. apply Hgood.
  - split_and!; try done.
    + by intros e [= <-].
    + split; [|done]. intros _. right. by exists d, kws, v.
    + intros d' [= <-]. congruence.
    + intros d' v' [= <-]. rewrite Hd. intros [= <-] Hnol.
      by destruct (Hnol kws).
Qed.

End Response.

(** ** The archive across merges *)

Section SortedInsert.
Context {A K : Type} (leb : K -> K -> bool) (key : A -> K).
Hypothesis leb_total : forall a b, leb a b = true \/ leb b a = true.
Hypothesis leb_trans :
  forall a b c, leb a b = true -> leb b c = true -> leb a c = true.

(** Sorting a sorted list with one more element at its end puts that
    element in, after the elements that do not come later than it. *)
Lemma sort_on_snoc l x :
  StronglySorted (fun a b => leb (key a) (key b) = true) l ->
  exists l1 l2,
    l = l1 ++ l2
    /\ sort_on leb key (l ++ [x]) = l1 ++ x :: l2
    /\ Forall (fun y => leb (key y) (key x) = true) l1
    /\ Forall (fun y => leb (key y) (key x) = false) l2.
Proof.
  induction 1 as [|a l Hl IH Ha].
  { exists [], []. by repeat split. }
  destruct IH as (l1 & l2 & -> & Hsort & H1 & H2).
  assert (leb (key a) (key a) = true) as Hrefl
    by (by destruct (leb_total (key a) (key a))).
  change (sort_on leb key ((a :: l1 ++ l2) ++ [x]))
    with (insert_on leb key a (sort_on leb key ((l1 ++ l2) ++ [x]))).
  rewrite Hsort. rewrite Forall_forall in Ha.
  destruct l1 as [|y l1].
  - simpl. destruct (leb (key a) (key x)) eqn:Hax.
    + exists [a], l2. repeat split; [by constructor|done].
    + exists [], (a :: l2). split; [done|]. split; [|split; [done|]].
      * f_equal. destruct l2 as [|y l2]; [done|]. simpl.
        by rewrite (Ha y) by by left.
      * by constructor.
  - simpl. rewrite (Ha y) by by left.
    exists (a :: y :: l1), l2. repeat split; [|done].
    constructor; [|done]. apply Forall_cons in H1 as [Hy _].
    eapply leb_trans; [|exact Hy]. apply Ha. by left.
Qed.

End SortedInsert.

Section ArchiveMore.
Import DailyBuild More.

Lemma any_same_date_cases d entries :
  Forall Spec.archive_entry entries ->
  (Exists (Spec.has_date d) entries /\ any_same_date d entries = Ok true)
  \/ (Forall (fun e => ~ Spec.has_date d e) entries
      /\ any_same_date d entries = Ok false).
Proof.
  induction 1 as [|e entries He Hes IH].
  { right. by split. }
  destruct (same_date_cases d e He) as [[Hhas Hsame]|[Hno Hsame]].
  - left. split; [by left|]. simpl. by rewrite Hsame.
  - destruct IH as [[Hex Hany]|[Hall Hany]].
    + left. split; [by right|]. simpl. by rewrite Hsame.
    + right. split; [by constructor|]. simpl. by rewrite Hsame.
Qed.

Lemma dates_elem_of d entries :
  d ∈ dates entries -> Exists (Spec.has_date d) entries.
Proof.
  intros (e & He & Hd)%list_elem_of_omap. apply Exists_exists. exists e.
  split; [done|]. destruct e as [| | | | | |kv]; try done.
  destruct (dict_get "date" kv) as [[| | | |s| |]|] eqn:Hkv; try done.
  injection Hd as ->. by exists kv.
Qed.

Lemma dates_snoc entries entry :
  dates (entries ++ [entry_json entry]) = dates entries ++ [date entry].
Proof. unfold dates. by rewrite omap_app. Qed.

Lemma Forall_Exists_absurd {A} (P : A -> Prop) l :
  Forall (fun x => ~ P x) l -> Exists P l -> False.
Proof. induction 1; inv 1; auto. Qed.

(** The archive stays in order across runs of entries that can be
    written. A missing file is in order; and whatever a merge of an
    entry without a lone surrogate does to a file in order, succeed or
    fail, the file is in order afterwards: it loads as a well-formed
    archive, sorted by date descending, with no date twice, that can be
    written back. *)
Theorem merge_keeps_archive_ok :
  archive_ok NoFile
  /\ forall st entry,
       archive_ok st -> encodable (entry_json entry) = true ->
       archive_ok (merge st entry).2.
Proof.
  split.
  { exists []. split_and!; [done|done|constructor|constructor|done]. }
  intros st entry (entries & Hload & Hwf & Hnd & Hsorted & Henc) Hentry.
  unfold merge. rewrite Hload. simpl.
  destruct (any_same_date_cases (date entry) entries Hwf)
    as [[_ ->]|[Hfresh ->]]; simpl.
  { by exists entries. }
  destruct (sort_entries_desc_archive (entries ++ [entry_json entry]))
    as (sorted & -> & Hperm & Hsd).
  { apply Forall_app. split; [done|].
    constructor; [apply entry_json_archive_entry|done]. }
  assert (encodable (JArr sorted) = true) as Hsenc.
  { apply (encodable_perm (entries ++ [entry_json entry])); [done|].
    apply encodable_Forall, Forall_app. split.
    - by apply encodable_Forall.
    - by constructor. }
  rewrite write_text_encodable by done.
  simpl. exists sorted. split_and!; [done| | |done|done].
  - rewrite Hperm. apply Forall_app. split; [done|].
    constructor; [apply entry_json_archive_entry|done].
  - unfold dates in *. rewrite Hperm. fold (dates (entries ++ [entry_json entry])).
    rewrite dates_snoc. apply NoDup_app. split_and!; [done| |apply NoDup_singleton].
    intros d Hd ->%list_elem_of_singleton.
    eapply Forall_Exists_absurd; [exact Hfresh|]. by apply dates_elem_of.
Qed.

(** Merging into a sorted archive moves no old entry: when the archive
    and the new entry hold no lone surrogate, so that the write
    succeeds, the new entry goes in between the entries dated on or
    after it and the entries dated before it, and the rest of the list
    is as it was. *)
Theorem merge_inserts_in_place (st : storage) (entries : list json)
    (entry : ArchiveEntry) :
  load_entries st = Ok entries ->
  Forall Spec.archive_entry entries ->
  Spec.sorted_by_date_desc entries ->
  Forall (fun e => ~ Spec.has_date (date entry) e) entries ->
  encodable (JArr (entries ++ [entry_json entry])) = true ->
  exists newer older,
    entries = newer ++ older
    /\ merge st entry
       = (Ok (newer ++ entry_json entry :: older),
          JsonFile (JArr (newer ++ entry_json entry :: older)))
    /\ Forall (fun e => ustr_leb (date entry) (Spec.entry_date e) = true) newer
    /\ Forall (fun e => ustr_leb (date entry) (Spec.entry_date e) = false) older.
Proof.
  intros Hload Hwf Hsorted Hfresh Henc.
  set (pair_of := fun e : json => (Spec.entry_date e, e)).
  destruct (sort_on_snoc (fun a b => ustr_leb b a) fst
              (fun a b => ustr_leb_total b a)
              (fun a b c Hab Hbc => ustr_leb_trans c b a Hbc Hab)
              (pair_of <$> entries) (pair_of (entry_json entry)))
    as (l1 & l2 & Hsplit & Hsort & H1 & H2).
  { eapply StronglySorted_fmap; [|exact Hsorted]. by intros a b. }
  assert (forall l, l ⊆ pair_of <$> entries -> pair_of <$> l.*2 = l) as Hsnd.
  { induction l as [|p l IH]; intros Hl; [done|].
    rewrite !fmap_cons, IH by set_solver. f_equal.
    pose proof (Hl p ltac:(by left)) as Hp.
    by apply list_elem_of_fmap in Hp as (e & -> & _). }
  assert (entries = l1.*2 ++ l2.*2) as Hentries.
  { rewrite <- fmap_app, <- Hsplit, <- list_fmap_compose.
    by rewrite list_fmap_id. }
  exists (l1.*2), (l2.*2). split_and!.
  - done.
  - unfold merge. rewrite Hload. simpl.
    rewrite any_same_date_fresh by done. simpl.
    unfold sort_entries_desc. rewrite mapM_date_key.
    2: { apply Forall_app. split; [done|].
         constructor; [apply entry_json_archive_entry|done]. }
    simpl. rewrite zip_keys, fmap_app. fold pair_of.
    change (pair_of <$> [entry_json entry]) with [pair_of (entry_json entry)].
    rewrite Hsort, fmap_app. cbn [fmap list_fmap snd].
    rewrite write_text_encodable; [done|].
    eapply encodable_perm; [|exact Henc].
    rewrite Hentries at 1. rewrite <- !app_assoc.
    apply Permutation_app_head. symmetry. apply Permutation_cons_append.
  - rewrite <- (Hsnd l1) in H1 by (rewrite Hsplit; set_solver).
    by rewrite Forall_fmap in H1.
  - rewrite <- (Hsnd l2) in H2 by (rewrite Hsplit; set_solver).
    by rewrite Forall_fmap in H2.
Qed.

End ArchiveMore.

(** ** The fields of a built entry *)

Section EntryFields.
Context `{PyUnicode} `{!PyUnicodeLaws}.
Import DailyBuild.

Lemma iso_date_length s : Spec.iso_date s = true -> length s = 10%nat.
Proof. do 11 (destruct s as [|? s]; try done). Qed.

(** An entry that [build_entry] returns has a date of exactly ten code
    points and a month of seven, the month being the date's first seven;
    and its date, titles, snippets, poet and book title carry no
    whitespace at either end, whatever surrounded them in the
    metadata. *)
Theorem build_entry_fields (meta : gmap string (list N))
    (txt_relpath : list N) (kws : list Keyword) (entry : ArchiveEntry) :
  build_entry meta txt_relpath kws = Ok entry ->
  length (date entry) = 10%nat
  /\ length (month entry) = 7%nat
  /\ date entry = month entry ++ drop 7 (date entry)
  /\ Forall (fun field => strip field = field)
       [date entry; my_poem_title entry; my_poem_snippet entry;
        poet (analysis entry); poem_title (analysis entry);
        poem_snippet (analysis entry); book_title (analysis entry)].
Proof.
  unfold build_entry. cbv zeta.
  destruct (match_date (meta_field meta "date")) eqn:Hd; [|done]. simpl.
  intros [= <-]. simpl.
  unfold meta_field in Hd. rewrite match_date_strip in Hd.
  apply iso_date_length in Hd. fold (meta_field meta "date") in Hd.
  split_and!.
  - done.
  - rewrite length_take. lia.
  - by rewrite take_drop.
  - repeat constructor; apply strip_idempotent.
Qed.

End EntryFields.

(** ** The parser *)

Section RegexFacts.
Context `{PyUnicode} {R : Type}.
Implicit Types (k : list N -> option R) (s : list N).
Import Parser.

(** A match of [\s*] followed by [k] is a match of [k] after some
    whitespace. *)
Lemma ws_star_some k s r :
  ws_star k s = Some r ->
  exists n,
    k (drop n s) = Some r /\ Forall (fun c => isspace c = true) (take n s).
Proof.
  induction s as [|c s IH]; simpl.
  - intros Hk. exists 0%nat. by split.
  - destruct (isspace c) eqn:Hc.
    + destruct (ws_star k s) as [r'|] eqn:Hs.
      * intros [= ->]. destruct (IH eq_refl) as (n & Hn & Hf).
        exists (S n). simpl. split; [done|by constructor].
      * intros Hk. exists 0%nat. by split.
    + intros Hk. exists 0%nat. by split.
Qed.

Lemma lit_some c k s r :
  lit c k s = Some r -> exists s', s = c :: s' /\ k s' = Some r.
Proof.
  destruct s as [|d s]; simpl; [done|].
  destruct (d =? c)%N eqn:Hd; [|done].
  apply N.eqb_eq in Hd as ->. intros Hk. by exists s.
Qed.

Lemma lits_some w k s r :
  lits w k s = Some r -> exists s', s = w ++ s' /\ k s' = Some r.
Proof.
  revert s. induction w as [|c w IH]; intros s; simpl.
  - intros Hk. by exists s.
  - intros (s1 & -> & (s' & -> & Hk)%IH)%lit_some. by exists s'.
Qed.

Lemma eol_some k s r : eol k s = Some r -> k s = Some r.
Proof. destruct s as [|c s]; simpl; [done|]. by destruct (c =? 10)%N. Qed.

End RegexFacts.

Section HeaderFacts.
Context `{PyUnicode}.
Import Parser.

Lemma names_alt_name names s h rest :
  names_alt names s = Some (h, rest) -> h ∈ names.
Proof.
  induction names as [|h' names IH]; simpl; [done|].
  destruct (lits (u h') _ s) as [[h0 r0]|] eqn:Hl.
  - intros [= -> ->]. apply lits_some in Hl as (s' & _ & Hk).
    apply ws_star_some in Hk as (n & Hk & _).
    apply eol_some in Hk. injection Hk as -> _. left.
  - intros Hn. right. by apply IH.
Qed.

Lemma header_at_name names s h rest :
  header_at names s = Some (h, rest) -> h ∈ names.
Proof.
  unfold header_at. intros (n & Hk & _)%ws_star_some.
  apply lit_some in Hk as (s' & _ & Hk).
  apply ws_star_some in Hk as (n' & Hk & _).
  by eapply names_alt_name.
Qed.

(** Every match of the header pattern names one of the headers. *)
Lemma finditer_names names bol skip pos s :
  Forall (fun m => m.1.2 ∈ names) (finditer names bol skip pos s).
Proof.
  revert bol skip pos. induction s as [|c s IH]; intros bol skip pos; simpl.
  { constructor. }
  destruct skip as [|skip]; [|apply IH].
  destruct bol; [|apply IH].
  destruct (header_at names (c :: s)) as [[h rest]|] eqn:Hh; [|apply IH].
  constructor; [|apply IH]. simpl. by eapply header_at_name.
Qed.

Lemma sections_of_wellformed (names : list string) raw matches sections :
  Forall (fun m => m.1.2 ∈ names) matches ->
  map_Forall (fun h c => h ∈ names /\ strip c = c) sections ->
  map_Forall (fun h c => h ∈ names /\ strip c = c)
    (sections_of raw matches sections).
Proof.
  intros Hm. revert sections.
  induction Hm as [|[[a h] b] matches Hh _ IH]; intros sections Hs; simpl.
  { done. }
  apply IH. apply map_Forall_insert_2; [|done].
  split; [done|apply strip_idempotent].
Qed.

End HeaderFacts.

Section MetaFacts.
Context `{PyUnicode}.
Import Parser Documents.

Lemma alias_in_keys k canonical :
  alias_in k META_ALIASES = Some canonical -> canonical ∈ meta_keys.
Proof.
  unfold META_ALIASES. simpl.
  repeat (case_bool_decide; [intros [= <-]; apply (bool_decide_unpack _);
                             vm_compute; exact I|]).
  done.
Qed.

Lemma first_line_stripped lines v :
  first_line lines = Some v -> v <> [] /\ strip v = v.
Proof.
  induction lines as [|line lines IH]; simpl; [done|].
  destruct (strip line) as [|c l] eqn:Hs; [done|].
  intros [= <-]. split; [done|]. rewrite <- Hs. apply strip_idempotent.
Qed.

Lemma date_at_iso s : date_at s = true -> Spec.iso_date (take 10 s) = true.
Proof.
  do 10 (destruct s as [|? s]; [done|]). simpl.
  repeat (destruct (isdecimal _); simpl; [|by rewrite ?andb_false_r]).
  by destruct (_ =? _)%N, (_ =? _)%N.
Qed.

(** What the search in the name of the file finds is a date of the
    pattern. *)
Lemma search_date_iso s d : search_date s = Some d -> Spec.iso_date d = true.
Proof.
  induction s as [|c s IH]; [done|].
  cbn [search_date]. destruct (date_at (c :: s)) eqn:Hd; [|done].
  intros [= <-]. by apply date_at_iso in Hd.
Qed.

Context `{!PyTextLaws}.

Lemma iso_date_stripped d : Spec.iso_date d = true -> d <> [] /\ strip d = d.
Proof.
  do 10 (destruct d as [|? d]; [done|]). destruct d; [|done].
  intros Hd. split; [done|]. simpl in Hd.
  apply strip_fixed; simpl; intros c [= <-]; apply decimal_not_space.
  - by destruct (isdecimal n).
  - destruct (isdecimal n8); [done|]. by rewrite !andb_false_r in Hd.
Qed.

Lemma meta_step_wellformed meta line :
  map_Forall wellformed_meta meta ->
  map_Forall wellformed_meta (meta_step meta line).
Proof.
  intros Hm. unfold meta_step.
  destruct (match_meta_line line) as [[g1 g2]|]; [|done].
  destruct (strip g2) as [|c v] eqn:Hv; [done|].
  destruct (alias_in _ META_ALIASES) as [canonical|] eqn:Ha; [|done].
  apply map_Forall_insert_2; [|done].
  split_and!; [by eapply alias_in_keys|done|].
  rewrite <- Hv. apply strip_idempotent.
Qed.

Lemma fallback_wellformed key value meta :
  key ∈ meta_keys ->
  (forall v, value = Some v -> v <> [] /\ strip v = v) ->
  map_Forall wellformed_meta meta ->
  map_Forall wellformed_meta (fallback key value meta).
Proof.
  intros Hk Hv Hm. unfold fallback.
  destruct (meta !! key); [done|]. destruct value as [v|]; [|done].
  apply map_Forall_insert_2; [|done].
  destruct (Hv v eq_refl). by split_and!.
Qed.

Lemma parse_txt_meta_wellformed (text name : list N) :
  map_Forall wellformed_meta (parse_txt text name).1.
Proof.
  unfold parse_txt. cbv zeta. cbn [fst].
  repeat apply fallback_wellformed.
  - apply (bool_decide_unpack _). vm_compute. exact I.
  - intros v Hv. by apply first_line_stripped in Hv.
  - apply (bool_decide_unpack _). vm_compute. exact I.
  - intros v Hv. by apply first_line_stripped in Hv.
  - apply (bool_decide_unpack _). vm_compute. exact I.
  - intros v Hv. by apply search_date_iso, iso_date_stripped in Hv.
  - apply foldl_invariant; [apply map_Forall_empty|].
    intros meta line _. apply meta_step_wellformed.
Qed.

(** What [parse_txt] returns is well formed. The keys of the metadata
    are among the seven that the entry is built from, and a key that is
    present has a value that is not empty and has no whitespace at either
    end: a field without content is left out, never stored empty. The
    sections are among POEMA, POEMA_CITADO and TEXTO, and their texts
    have no whitespace at either end. *)
Theorem parse_txt_wellformed (text name : list N) :
  map_Forall wellformed_meta (parse_txt text name).1
  /\ map_Forall (fun h c => h ∈ SECTION_HEADERS /\ strip c = c)
       (parse_txt text name).2.
Proof.
  split; [apply parse_txt_meta_wellformed|].
  unfold parse_txt. cbv zeta. cbn [snd].
  apply sections_of_wellformed; [apply finditer_names|].
  apply map_Forall_empty.
Qed.

(** The warning about missing metadata, on what [parse_txt] returns:
    it names, in the order my_poem_title, poet, poem_title, exactly
    those of the three that the metadata do not have. A key that is
    there is never reported, since no empty or blank value is stored. *)
Theorem warn_missing_names_absent (text name : list N) :
  Main.warn_missing (parse_txt text name).1
  = filter (fun k => (parse_txt text name).1 !! k = None)
      ["my_poem_title"; "poet"; "poem_title"]%string.
Proof.
  unfold Main.warn_missing. apply list_filter_iff. intros k.
  destruct ((parse_txt text name).1 !! k) as [v|] eqn:Hk; simpl; [|done].
  apply parse_txt_meta_wellformed in Hk as (_ & Hne & Hstrip).
  rewrite Hstrip. by split.
Qed.

End MetaFacts.

(** ** Where the metadata block ends *)

Section FirstHeader.
Context `{PyUnicode}.
Import Parser Documents.

Lemma matched_or_else {R} (a b : option R) :
  matched (match a with Some r => Some r | None => b end)
  = matched a || matched b.
Proof. by destruct a. Qed.

Lemma ws_star_matched {R} (k k1 k2 : list N -> option R) s :
  (forall s, matched (k s) = matched (k1 s) || matched (k2 s)) ->
  matched (ws_star k s) = matched (ws_star k1 s) || matched (ws_star k2 s).
Proof.
  intros Hk. induction s as [|c s IH]; simpl; [apply Hk|].
  destruct (isspace c); [|apply Hk].
  rewrite !matched_or_else, IH, Hk.
  by destruct (matched (ws_star k1 s)), (matched (ws_star k2 s)),
       (matched (k1 (c :: s))), (matched (k2 (c :: s))).
Qed.

Lemma lit_matched {R} c (k k1 k2 : list N -> option R) s :
  (forall s, matched (k s) = matched (k1 s) || matched (k2 s)) ->
  matched (lit c k s) = matched (lit c k1 s) || matched (lit c k2 s).
Proof.
  intros Hk. destruct s as [|d s]; simpl; [done|].
  destruct (d =? c)%N; [apply Hk|done].
Qed.

Lemma names_alt_matched h names s :
  matched (names_alt (h :: names) s)
  = matched (names_alt [h] s) || matched (names_alt names s).
Proof. simpl. by destruct (lits (u h) _ s). Qed.

(** A header of a list of names is a header of one of the names. *)
Lemma header_at_matched h names s :
  matched (header_at (h :: names) s)
  = matched (header_at [h] s) || matched (header_at names s).
Proof.
  unfold header_at. apply ws_star_matched. intros s1.
  apply lit_matched. intros s2. apply ws_star_matched. intros s3.
  apply names_alt_matched.
Qed.

Lemma first_match_range p bol pos s n :
  first_match p bol pos s = Some n -> (pos <= n < pos + length s)%nat.
Proof.
  revert bol pos. induction s as [|c s IH]; intros bol pos; simpl; [done|].
  destruct (bol && p (c :: s)).
  - intros [= <-]. lia.
  - intros Hn%IH. lia.
Qed.

Lemma first_match_either p q bol pos s :
  first_match (fun s => p s || q s) bol pos s
  = earliest (first_match p bol pos s) (first_match q bol pos s).
Proof.
  revert bol pos. induction s as [|c s IH]; intros bol pos; simpl; [done|].
  rewrite IH.
  destruct bol, (p (c :: s)), (q (c :: s)); simpl; try done.
  - by rewrite Nat.min_id.
  - destruct (first_match q _ _ s) as [n|] eqn:Hn; simpl; [|done].
    apply first_match_range in Hn. f_equal. lia.
  - destruct (first_match p _ _ s) as [n|] eqn:Hn; simpl; [|done].
    apply first_match_range in Hn. f_equal. lia.
Qed.

Lemma first_match_ext p q bol pos s :
  (forall s, p s = q s) -> first_match p bol pos s = first_match q bol pos s.
Proof.
  intros Hpq. revert bol pos.
  induction s as [|c s IH]; intros bol pos; simpl; [done|].
  by rewrite Hpq, IH.
Qed.

(** The first match that [finditer] yields starts at the first place
    where a line starts with a header. *)
Lemma finditer_first names bol pos s :
  (fun m => m.1.1) <$> head (finditer names bol 0 pos s)
  = first_match (fun s => matched (header_at names s)) bol pos s.
Proof.
  revert bol pos. induction s as [|c s IH]; intros bol pos; simpl; [done|].
  destruct bol; simpl; [|apply IH].
  destruct (header_at names (c :: s)) as [[h rest]|]; simpl; [done|apply IH].
Qed.

Lemma search_header_first h raw :
  search_header h raw
  = first_match (fun s => matched (header_at [h] s)) true 0 raw.
Proof.
  unfold search_header. rewrite <- finditer_first.
  by destruct (finditer [h] true 0 0 raw) as [|[[start h'] stop] l].
Qed.

(** The metadata block and the sections do not overlap and leave
    nothing out: the three searches that bound the metadata block, one
    for each header, end it where the first match of the scan for the
    sections starts, and a text without a header is all metadata. *)
Theorem meta_block_ends_at_first_section (raw : list N) :
  first_header_pos raw
  = match finditer SECTION_HEADERS true 0 0 raw with
    | (start, _, _) :: _ => start
    | [] => length raw
    end.
Proof.
  assert (default (length raw)
            ((fun m => m.1.1) <$> head (finditer SECTION_HEADERS true 0 0 raw))
          = match finditer SECTION_HEADERS true 0 0 raw with
            | (start, _, _) :: _ => start
            | [] => length raw
            end) as <-.
  { by destruct (finditer _ _ _ _ raw) as [|[[start h] stop] l]. }
  rewrite finditer_first. unfold first_header_pos, SECTION_HEADERS.
  cbn [foldl]. rewrite !search_header_first.
  rewrite (first_match_ext
             (fun s => matched (header_at ["POEMA"; "POEMA_CITADO"; "TEXTO"]%string s))
             (fun s => matched (header_at ["POEMA"%string] s)
                       || (matched (header_at ["POEMA_CITADO"%string] s)
                           || matched (header_at ["TEXTO"%string] s)))).
  2:{ intros s.
      by rewrite (header_at_matched "POEMA" ["POEMA_CITADO"; "TEXTO"]%string),
           (header_at_matched "POEMA_CITADO" ["TEXTO"]%string). }
  rewrite !first_match_either.
  destruct (first_match (fun s => matched (header_at ["POEMA"%string] s))
              true 0 raw) as [a|] eqn:Ha,
           (first_match (fun s => matched (header_at ["POEMA_CITADO"%string] s))
              true 0 raw) as [b|] eqn:Hb,
           (first_match (fun s => matched (header_at ["TEXTO"%string] s))
              true 0 raw) as [c|] eqn:Hc; cbn [earliest default from_option id];
    repeat match goal with
           | Hn : first_match _ _ _ _ = Some _ |- _ =>
               apply first_match_range in Hn
           end; unfold id; lia.
Qed.

End FirstHeader.

(** ** Metadata lines *)

Section MetaLines.
Context `{PyUnicode}.
Import Parser Documents.

Lemma ws_star_skip {R} (k : list N -> option R) pad s r :
  Forall (fun c => isspace c = true) pad ->
  (forall c, head s = Some c -> isspace c = false) ->
  k s = Some r -> ws_star k (pad ++ s) = Some r.
Proof.
  intros Hpad Hs Hk. induction Hpad as [|c pad Hc _ IH]; simpl.
  - destruct s as [|c s]; simpl; [done|]. by rewrite (Hs c eq_refl).
  - by rewrite Hc, IH.
Qed.

Lemma class_star_take {R} p (k : list N -> option R) key s r :
  Forall (fun c => p c = true) key ->
  (forall c, head s = Some c -> p c = false) ->
  k s = Some r -> class_star p k (key ++ s) = Some r.
Proof.
  intros Hkey Hs Hk. induction Hkey as [|c key Hc _ IH]; simpl.
  - destruct s as [|c s]; simpl; [done|]. by rewrite (Hs c eq_refl).
  - by rewrite Hc, IH.
Qed.

Lemma dot_lazy_skip {R} (k : list N -> option R) v rest r :
  10%N ∉ v ->
  (forall v1 v2, v = v1 ++ v2 -> v2 <> [] -> k (v2 ++ rest) = None) ->
  k rest = Some r -> dot_lazy k (v ++ rest) = Some r.
Proof.
  intros Hnl Hv Hk. induction v as [|c v IH]; simpl.
  - destruct rest; simpl; by rewrite Hk.
  - pose proof (Hv [] (c :: v) eq_refl ltac:(done)) as Hc.
    simpl in Hc. rewrite Hc.
    destruct (N.eqb_spec c 10) as [-> | _].
    { exfalso. apply Hnl. left. }
    apply IH.
    + intros Hin. apply Hnl. by right.
    + intros v1 v2 -> Hv2. by apply (Hv (c :: v1) v2).
Qed.

(** [\s*$] matches whitespace and newlines only. *)
Lemma ws_eos_some {R} (k : list N -> option R) s r :
  ws_star (eos k) s = Some r ->
  Forall (fun c => isspace c = true \/ c = 10%N) s.
Proof.
  intros (n & Hk & Hsp)%ws_star_some.
  rewrite <- (take_drop n s). apply Forall_app. split.
  - eapply Forall_impl; [exact Hsp|]. by left.
  - destruct (drop n s) as [|c [|d l]]; simpl in Hk; [done| |done].
    destruct (N.eqb_spec c 10) as [Hc | _]; [subst c|done].
    constructor; [by right|constructor].
Qed.

Context `{!PyTextLaws}.

Lemma key_char_not_space c : key_char c = true -> isspace c = false.
Proof.
  intros Hc. apply graphic_not_space. unfold key_char in Hc.
  rewrite !orb_true_iff, !andb_true_iff, !N.leb_le in Hc.
  destruct Hc as [[Hc|Hc]|Hc]; [lia|lia|].
  apply bool_decide_eq_true in Hc.
  repeat (apply elem_of_cons in Hc as [-> | Hc]; [lia|]).
  by apply elem_of_nil in Hc.
Qed.

Lemma space_not_key_char c : isspace c = true -> key_char c = false.
Proof.
  intros Hc. destruct (key_char c) eqn:Hk; [|done].
  apply key_char_not_space in Hk. congruence.
Qed.

(** The pattern of a metadata line on a line that is a key, a colon
    and a value, with whitespace around each: the groups are the key and
    the value. *)
Lemma match_meta_line_fields pad1 key pad2 pad3 v pad4 :
  Forall (fun c => isspace c = true) pad1 ->
  Forall (fun c => isspace c = true) pad2 ->
  Forall (fun c => isspace c = true) pad3 ->
  Forall (fun c => isspace c = true) pad4 ->
  key <> [] -> Forall (fun c => key_char c = true) key ->
  v <> [] -> strip v = v -> 10%N ∉ v ->
  match_meta_line (pad1 ++ key ++ pad2 ++ [58%N] ++ pad3 ++ v ++ pad4)
  = Some (key, v).
Proof.
  intros H1 H2 H3 H4 Hkey Hchars Hv Hstrip Hnl.
  assert (forall c, head v = Some c -> isspace c = false) as Hhead.
  { intros c. rewrite <- Hstrip. apply strip_head. }
  assert (forall c, last v = Some c -> isspace c = false) as Hlast.
  { intros c. rewrite <- Hstrip. apply strip_last. }
  destruct key as [|c key]; [done|].
  apply Forall_cons in Hchars as [Hc Hchars].
  unfold match_meta_line. apply ws_star_skip; [done| |].
  { intros c' [= <-]. by apply key_char_not_space. }
  cbv beta. cbn [app class_plus]. rewrite Hc.
  apply class_star_take; [done| |].
  { intros c'. destruct pad2 as [|d pad2]; simpl.
    - by intros [= <-].
    - intros [= <-]. apply Forall_cons in H2 as [Hd _].
      by apply space_not_key_char. }
  apply ws_star_skip; [done| |].
  { intros c' [= <-]. apply graphic_not_space. lia. }
  cbn [app lit]. rewrite N.eqb_refl.
  apply ws_star_skip; [done| |].
  { intros c'. destruct v as [|d v]; [done|]. apply Hhead. }
  apply dot_lazy_skip; [done| |].
  - intros v1 v2 -> Hv2.
    destruct (ws_star _ (v2 ++ pad4)) as [r|] eqn:Hr; [|done].
    exfalso. apply ws_eos_some in Hr. apply Forall_app in Hr as [Hr _].
    destruct (proj2 (last_is_Some v2) Hv2) as [d Hd].
    assert (last (v1 ++ v2) = Some d) as Hd' by (by apply last_app_Some; left).
    apply last_Some_elem_of in Hd as Hin.
    rewrite Forall_forall in Hr. destruct (Hr d Hin) as [Hs| ->].
    + apply Hlast in Hd'. congruence.
    + apply Hnl. apply elem_of_app. by right.
  - rewrite <- (app_nil_r pad4) at 1.
    erewrite ws_star_skip; [|done|done|reflexivity]. f_equal. f_equal.
    + apply (take_app_length' (c :: key)). simpl. rewrite !length_app. lia.
    + apply take_app_length'. rewrite length_app. lia.
Qed.

End MetaLines.

Section MetaRecognised.
Context `{PyUnicode} `{!PyTextLaws}.
Import Parser Documents.

(** The keys of the table are capitals and underscores, and no key is
    listed twice. *)
Lemma alias_table surface canonical :
  (surface, canonical) ∈ META_ALIASES ->
  alias_in (u surface) META_ALIASES = Some canonical
  /\ u surface <> []
  /\ Forall (fun c => (65 <= c <= 90)%N \/ c = 95%N) (u surface).
Proof.
  intros Hin.
  assert (forallb (fun sc : string * string =>
            bool_decide (alias_in (u sc.1) META_ALIASES = Some sc.2)
            && negb (bool_decide (u sc.1 = []))
            && forallb (fun c => (65 <=? c)%N && (c <=? 90)%N || (c =? 95)%N)
                 (u sc.1))
          META_ALIASES = true) as Htable by (by vm_compute).
  rewrite forallb_forall in Htable.
  apply list_elem_of_In, Htable in Hin. simpl in Hin.
  apply andb_true_iff in Hin as [[Ha Hne]%andb_true_iff Hcaps].
  apply bool_decide_eq_true in Ha. apply negb_true_iff in Hne.
  apply bool_decide_eq_false in Hne. split_and!; [done|done|].
  apply Forall_forall. intros c Hc%list_elem_of_In.
  rewrite forallb_forall in Hcaps. apply Hcaps in Hc.
  apply orb_true_iff in Hc as [[? ?]%andb_true_iff|Hc].
  - left. split; by apply N.leb_le.
  - right. by apply N.eqb_eq.
Qed.

Lemma upper_key_chars key :
  Forall (fun c => (65 <= c <= 90)%N \/ c = 95%N) (upper_key key) ->
  Forall (fun c => key_char c = true) key.
Proof.
  intros Hup. unfold upper_key in Hup. apply Forall_fmap in Hup.
  eapply Forall_impl; [exact Hup|]. intros c. simpl. unfold key_char.
  destruct ((97 <=? c)%N && (c <=? 122)%N) eqn:Hlow.
  { intros _. by rewrite orb_true_r. }
  intros [Hc| ->]; [|done].
  assert ((65 <=? c)%N && (c <=? 90)%N = true) as ->; [|done].
  apply andb_true_iff. split; apply N.leb_le; lia.
Qed.

(** A metadata line is read whatever the case of its key and the
    whitespace around its parts. Take a key that, in capitals, is one of
    the table, and a value that is not empty, has no whitespace at either
    end and no newline inside: the line made of the key, a colon and the
    value, with any whitespace before the key, around the colon and
    after the value, stores the value under the key's canonical
    name. *)
Theorem meta_line_recognised (meta : gmap string (list N))
    (surface canonical : string) (key v pad1 pad2 pad3 pad4 : list N) :
  (surface, canonical) ∈ META_ALIASES ->
  upper_key key = u surface ->
  Forall (fun c => isspace c = true) (pad1 ++ pad2 ++ pad3 ++ pad4) ->
  v <> [] -> strip v = v -> 10%N ∉ v ->
  meta_step meta (pad1 ++ key ++ pad2 ++ [58%N] ++ pad3 ++ v ++ pad4)
  = <[canonical := v]> meta.
Proof.
  intros Hin Hkey Hpads Hv Hstrip Hnl.
  apply Forall_app in Hpads as [Hpad1 Hpads].
  apply Forall_app in Hpads as [Hpad2 Hpads].
  apply Forall_app in Hpads as [Hpad3 Hpad4].
  destruct (alias_table surface canonical Hin) as (Halias & Hne & Hcaps).
  assert (Forall (fun c => key_char c = true) key) as Hchars.
  { apply upper_key_chars. by rewrite Hkey. }
  assert (key <> []) as Hkey_ne.
  { intros ->. by apply Hne. }
  assert (strip key = key) as Hskey.
  { rewrite Forall_forall in Hchars.
    apply strip_fixed; intros c Hc; apply key_char_not_space, Hchars.
    - by apply head_Some_elem_of.
    - by apply last_Some_elem_of. }
  unfold meta_step.
  rewrite match_meta_line_fields by done.
  rewrite Hskey, Hkey, Hstrip, Halias.
  by destruct v.
Qed.

End MetaRecognised.

(** ** Where the date comes from *)

Section DateFallback.
Context `{PyUnicode} `{!PyUnicodeLaws} `{!PyTextLaws}.
Import DailyBuild Parser Documents.

Lemma fallback_lookup_ne key key' value (meta : gmap string (list N)) :
  key <> key' -> fallback key value meta !! key' = meta !! key'.
Proof.
  intros Hne. unfold fallback.
  destruct (meta !! key); [done|]. destruct value; [|done].
  by rewrite lookup_insert_ne.
Qed.

Lemma fallback_lookup key value (meta : gmap string (list N)) :
  fallback key value meta !! key
  = match meta !! key with Some v => Some v | None => value end.
Proof.
  unfold fallback. destruct (meta !! key) eqn:Hk; [done|].
  destruct value; [by rewrite lookup_insert_eq|done].
Qed.

(** The date of the metadata: the one of the metadata block, and for
    want of one the first date in the name of the file. *)
Lemma parse_txt_date text name :
  (parse_txt text name).1 !! "date"%string
  = match (parse_txt text []).1 !! "date"%string with
    | Some v => Some v
    | None => search_date name
    end.
Proof.
  unfold parse_txt. cbv zeta. cbn [fst].
  rewrite !(fallback_lookup_ne "poem_snippet") by done.
  rewrite !(fallback_lookup_ne "my_poem_snippet") by done.
  rewrite !fallback_lookup. by destruct (foldl meta_step _ _ !! _).
Qed.

(** The date of the entry comes from the document first and from the
    name of the file second. A date in the metadata block is the one
    that the metadata carry, whatever the file is called. Without one,
    the first YYYY-MM-DD in the name of the file is taken, and then
    [build_entry] accepts the metadata: the entry is built, dated with
    that date. *)
Theorem date_from_file_name (text name txt_relpath : list N)
    (kws : list Keyword) :
  (forall v, (parse_txt text []).1 !! "date"%string = Some v ->
     (parse_txt text name).1 !! "date"%string = Some v)
  /\ (forall d, (parse_txt text []).1 !! "date"%string = None ->
        search_date name = Some d ->
        Spec.iso_date d = true
        /\ exists entry,
             build_entry (parse_txt text name).1 txt_relpath kws = Ok entry
             /\ date entry = d /\ month entry = take 7 d).
Proof.
  split.
  - intros v Hv. by rewrite parse_txt_date, Hv.
  - intros d Hnone Hd.
    pose proof (search_date_iso _ _ Hd) as Hiso.
    destruct (iso_date_stripped d Hiso) as [_ Hstrip].
    split; [done|].
    assert (match_date d = true) as Hm.
    { rewrite <- Hstrip, match_date_strip. by rewrite Hstrip. }
    unfold build_entry, meta_field.
    rewrite parse_txt_date, Hnone, Hd. cbn [default from_option id].
    rewrite Hstrip, Hm. simpl.
    eexists. by split_and!.
Qed.

End DateFallback.

(** ** A run of [main] *)

Section MainFacts.
Context `{PyUnicode} `{!PyUnicodeLaws}.
Import DailyBuild Parser Main Documents.

Lemma call_openai_keywords_length data kws :
  call_openai_keywords data = Ok kws -> (length kws <= 30)%nat.
Proof.
  destruct data as [| | | | | |d]; try done. simpl.
  destruct (get_or "keywords" (JArr []) d) as [| | | | |l|];
    try (intros [= <-]; simpl; lia).
  destruct (mapM as_dict l) as [items|e]; simpl; [|done].
  intros [= <-]. rewrite redistribute_length. apply enforce_length.
Qed.

Lemma mapM_result_length {A B} (f : A -> result B) l k :
  mapM f l = Ok k -> length k = length l.
Proof.
  revert k. induction l as [|x l IH]; intros k; simpl.
  { by intros [= <-]. }
  destruct (f x) as [y|e]; simpl; [|done].
  destruct (mapM f l) as [k'|e]; simpl; [|done].
  intros [= <-]. simpl. f_equal. by apply IH.
Qed.

(** Sorting loses and adds nothing. *)
Lemma sort_entries_desc_perm entries sorted :
  sort_entries_desc entries = Ok sorted -> sorted ≡ₚ entries.
Proof.
  unfold sort_entries_desc.
  destruct (mapM date_key entries) as [keys|e] eqn:Hkeys; simpl; [|done].
  intros [= <-]. apply mapM_result_length in Hkeys.
  rewrite sort_on_perm. rewrite snd_zip; [done|lia].
Qed.

Lemma build_entry_ok meta txt_relpath kws entry :
  build_entry meta txt_relpath kws = Ok entry ->
  Spec.iso_date (date entry) = true /\ file entry = txt_relpath
  /\ keywords entry = kws.
Proof.
  unfold build_entry.
  destruct (match_date (meta_field meta "date")) eqn:Hd; simpl; [|done].
  intros [= <-]. simpl. split; [|done].
  unfold meta_field in *. by rewrite <- match_date_strip.
Qed.

(** What a run of [main] can do to the archive file. It succeeds and
    has written the file once: the file then holds the entries that it
    held, none lost and none twice, and one more, whose date is of the
    pattern YYYY-MM-DD and was the date of no entry before, whose file
    is the path given and which carries at most 30 keywords. Or it
    fails, and then the file is as it was, with one exception: when
    everything up to the write has succeeded and the list to write holds
    a lone surrogate, the write raises UnicodeEncodeError and leaves the
    file empty. *)
Theorem main_archive_outcomes (txt : option (list N))
    (name txt_relpath : list N) (args : Args) (response : result json)
    (st : storage) :
  match main txt name txt_relpath args response st with
  | (Done, st') =>
      exists entries entry sorted,
        load_entries st = Ok entries
        /\ any_same_date (date entry) entries = Ok false
        /\ st' = JsonFile (JArr sorted)
        /\ sorted ≡ₚ entries ++ [entry_json entry]
        /\ encodable (JArr sorted) = true
        /\ Spec.iso_date (date entry) = true
        /\ file entry = txt_relpath
        /\ (length (keywords entry) <= 30)%nat
  | (Failed e, st') =>
      st' = st
      \/ (e = Raised UnicodeEncodeError
          /\ st' = EmptyFile
          /\ exists entries entry,
               load_entries st = Ok entries
               /\ any_same_date (date entry) entries = Ok false
               /\ Spec.iso_date (date entry) = true
               /\ encodable (JArr (entries ++ [entry_json entry])) = false)
  end.
Proof.
  unfold main. destruct txt as [text|]; [|by left].
  destruct (parse_txt text name) as [meta sections].
  destruct (strip _); [by left|].
  destruct response as [data|e]; simpl; [|by left].
  destruct (call_openai_keywords data) as [kws|e] eqn:Hkws; simpl; [|by left].
  destruct (build_entry _ txt_relpath kws) as [entry|e] eqn:Hentry;
    [|by left].
  apply call_openai_keywords_length in Hkws.
  apply build_entry_ok in Hentry as (Hiso & Hfile & Hk).
  unfold merge.
  destruct (load_entries st) as [entries|e] eqn:Hload; simpl; [|by left].
  destruct (any_same_date (date entry) entries) as [[|]|e] eqn:Hdup; simpl;
    [by left| |by left].
  destruct (sort_entries_desc _) as [sorted|e] eqn:Hsort; [|by left].
  apply sort_entries_desc_perm in Hsort.
  unfold write_text.
  destruct (encodable (JArr sorted)) eqn:Henc.
  - exists entries, entry, sorted. rewrite Hk. by split_and!.
  - right. split_and!; [done|done|].
    exists entries, entry. split_and!; [done|done|done|].
    destruct (encodable (JArr (entries ++ [entry_json entry]))) eqn:Hall;
      [|done].
    apply (encodable_perm _ sorted) in Hall; [congruence|by symmetry].
Qed.

End MainFacts.

(** ** A document without sections *)

Section NoHeader.
Context `{PyUnicode}.
Import DailyBuild Parser Main.

Lemma _strip_bom_elem_of x s : x ∈ _strip_bom s -> x ∈ s.
Proof.
  induction s as [|c s IH]; simpl; [done|].
  destruct (c =? 65279)%N; [|done]. intros Hx. right. by apply IH.
Qed.

Lemma replace_crlf_elem_of x s : x ∈ replace_crlf s -> x ∈ s.
Proof.
  assert ((x ∈ replace_crlf s -> x ∈ s)
          /\ forall c, x ∈ replace_crlf (c :: s) -> x ∈ c :: s) as [Hs _];
    [|done].
  induction s as [|d s [IH1 IH2]].
  { split; [done|]. intros c. simpl. done. }
  split; [apply IH2|]. intros c.
  change (replace_crlf (c :: d :: s))
    with (if (c =? 13)%N && (d =? 10)%N then 10%N :: replace_crlf s
          else c :: replace_crlf (d :: s)).
  destruct ((c =? 13)%N && (d =? 10)%N) eqn:Hcd.
  - apply andb_true_iff in Hcd as [_ ->%N.eqb_eq].
    intros [-> | Hx]%elem_of_cons; right; [left|right; by apply IH1].
  - intros [-> | Hx]%elem_of_cons; [left|right; by apply IH2].
Qed.

Lemma header_at_hash names s r : header_at names s = Some r -> 35%N ∈ s.
Proof.
  unfold header_at. intros (n & Hk & _)%ws_star_some.
  apply lit_some in Hk as (s' & Hs & _).
  rewrite <- (take_drop n s), Hs. apply elem_of_app. right. left.
Qed.

Lemma finditer_no_hash names bol skip pos s :
  35%N ∉ s -> finditer names bol skip pos s = [].
Proof.
  revert bol skip pos. induction s as [|c s IH]; intros bol skip pos Hs;
    simpl; [done|].
  assert (35%N ∉ s) as Hs' by (intros Hin; apply Hs; by right).
  destruct skip; [|by apply IH].
  destruct bol; [|by apply IH].
  destruct (header_at names (c :: s)) as [r|] eqn:Hh; [|by apply IH].
  by apply header_at_hash in Hh.
Qed.

(** A text without the sign # has no sections, so no analysis: the
    run fails for want of content under TEXTO, whatever the options, the
    response of the generator and the archive, and the archive file stays
    as it was. *)
Theorem no_section_no_entry (text name txt_relpath : list N) (args : Args)
    (response : result json) (st : storage) :
  35%N ∉ text ->
  main (Some text) name txt_relpath args response st
  = (Failed NoAnalysisText, st).
Proof.
  intros Htext. unfold main, parse_txt. cbv zeta.
  rewrite finditer_no_hash; [done|].
  intros Hin. by apply Htext, _strip_bom_elem_of, replace_crlf_elem_of.
Qed.

End NoHeader.

(** ** The last section of a document *)

Section HeaderShape.
Context `{PyUnicode} `{!PyTextLaws}.
Import Parser Documents.

Lemma lits_app {R} w (k : list N -> option R) s : lits w k (w ++ s) = k s.
Proof.
  induction w as [|c w IH]; simpl; [done|]. by rewrite N.eqb_refl.
Qed.

(** [\s*] followed by [k] matches where [k] matches after whitespace. *)
Lemma ws_star_complete {R} (k : list N -> option R) pad s :
  Forall (fun c => isspace c = true) pad ->
  is_Some (k s) -> is_Some (ws_star k (pad ++ s)).
Proof.
  intros Hpad Hk. induction Hpad as [|c pad Hc _ IH]; simpl.
  - destruct s as [|c s]; simpl; [done|].
    destruct (isspace c); [|done]. by destruct (ws_star k s).
  - rewrite Hc. destruct IH as [r ->]. by eexists.
Qed.

Lemma hash_not_space : isspace 35 = false.
Proof. apply graphic_not_space. lia. Qed.

Lemma header_first_not_space h c :
  h ∈ SECTION_HEADERS -> head (u h) = Some c -> isspace c = false.
Proof.
  intros Hh Hc. apply graphic_not_space.
  unfold SECTION_HEADERS in Hh.
  repeat (apply elem_of_cons in Hh as [-> | Hh];
          [vm_compute in Hc; injection Hc as <-; lia|]).
  by apply elem_of_nil in Hh.
Qed.

Lemma header_no_hash h : h ∈ SECTION_HEADERS -> 35%N ∉ u h.
Proof.
  intros Hh. unfold SECTION_HEADERS in Hh.
  repeat (apply elem_of_cons in Hh as [-> | Hh];
          [apply (bool_decide_unpack _); vm_compute; exact I|]).
  by apply elem_of_nil in Hh.
Qed.

(** What the alternation of the three names matches. *)
Lemma names_alt_span names s h rest :
  names_alt names s = Some (h, rest) ->
  h ∈ names
  /\ exists ws, s = u h ++ ws ++ rest
       /\ Forall (fun c => isspace c = true) ws
       /\ (rest = [] \/ head rest = Some 10%N).
Proof.
  induction names as [|h' names IH]; simpl; [done|].
  destruct (lits (u h') _ s) as [[h0 r0]|] eqn:Hl.
  - intros [= -> ->]. apply lits_some in Hl as (s' & -> & Hk).
    apply ws_star_some in Hk as (n & Hk & Hws).
    pose proof (take_drop n s') as Hs'.
    destruct (drop n s') as [|c t] eqn:Hd; simpl in Hk.
    + injection Hk as -> <-. split; [left|]. exists (take n s').
      split_and!; [|done|by left]. by rewrite <- Hs' at 1.
    + destruct (N.eqb_spec c 10) as [Hc|_]; [subst c|done].
      injection Hk as -> <-. split; [left|]. exists (take n s').
      split_and!; [|done|by right]. by rewrite <- Hs' at 1.
  - intros (Hin & Hspan)%IH. split; [by right|done].
Qed.

(** What a match of the header pattern spans: whitespace, the sign #,
    then no further #, up to the end of a line. *)
Lemma header_at_span s h rest :
  header_at SECTION_HEADERS s = Some (h, rest) ->
  exists ws mid,
    s = ws ++ 35%N :: mid ++ rest
    /\ Forall (fun c => isspace c = true) ws
    /\ (35%N ∉ mid)
    /\ (rest = [] \/ head rest = Some 10%N).
Proof.
  unfold header_at. intros (n & Hk & Hws)%ws_star_some.
  apply lit_some in Hk as (s1 & Hs1 & Hk).
  apply ws_star_some in Hk as (n2 & Hk & Hws2).
  apply names_alt_span in Hk as (Hh & ws3 & Hs2 & Hws3 & Heol).
  exists (take n s), (take n2 s1 ++ u h ++ ws3). split_and!; [|done| |done].
  - rewrite <- (take_drop n s) at 1. rewrite Hs1. do 2 f_equal.
    rewrite <- (take_drop n2 s1) at 1. rewrite Hs2.
    by rewrite <- !app_assoc.
  - intros [Hin|[Hin|Hin]%elem_of_app]%elem_of_app.
    + rewrite Forall_forall in Hws2. apply Hws2 in Hin.
      by rewrite hash_not_space in Hin.
    + by apply header_no_hash in Hin.
    + rewrite Forall_forall in Hws3. apply Hws3 in Hin.
      by rewrite hash_not_space in Hin.
Qed.

(** The header pattern on a header line: it matches, with the name of
    the line, from any whitespace before the sign # on, up to a place in
    the whitespace that follows the name. *)
Lemma header_at_here h pad2 pad3 tail :
  h ∈ SECTION_HEADERS ->
  Forall (fun c => isspace c = true) pad2 ->
  Forall (fun c => isspace c = true) pad3 ->
  tail = [] \/ head tail = Some 10%N ->
  exists ws rest,
    pad3 ++ tail = ws ++ rest
    /\ Forall (fun c => isspace c = true) ws
    /\ forall a, Forall (fun c => isspace c = true) a ->
         header_at SECTION_HEADERS (a ++ 35%N :: pad2 ++ u h ++ pad3 ++ tail)
         = Some (h, rest).
Proof.
  intros Hh Hpad2 Hpad3 Htail.
  destruct (ws_star_complete (eol (fun rest => Some (h, rest))) pad3 tail Hpad3)
    as [[h0 rest] Hrest].
  { destruct Htail as [-> | Ht]; [by eexists|].
    destruct tail as [|c tail]; [done|]. injection Ht as ->. by eexists. }
  pose proof Hrest as Hrest'.
  apply ws_star_some in Hrest' as (n & Hk & Hws).
  apply eol_some in Hk. injection Hk as <- <-.
  exists (take n (pad3 ++ tail)), (drop n (pad3 ++ tail)).
  split_and!; [by rewrite take_drop|done|].
  assert (names_alt SECTION_HEADERS (u h ++ pad3 ++ tail)
          = Some (h, drop n (pad3 ++ tail))) as Hnames.
  { unfold SECTION_HEADERS in *.
    apply elem_of_cons in Hh as [-> | Hh].
    { cbn [names_alt]. by rewrite lits_app, Hrest. }
    apply elem_of_cons in Hh as [-> | Hh].
    { cbn [names_alt].
      change (u "POEMA_CITADO" ++ pad3 ++ tail)
        with (u "POEMA" ++ 95%N :: u "CITADO" ++ pad3 ++ tail) at 1.
      rewrite lits_app. cbn [ws_star].
      rewrite (graphic_not_space 95) by lia. cbn [eol]. simpl (95 =? 10)%N.
      cbv iota. by rewrite lits_app, Hrest. }
    apply elem_of_cons in Hh as [-> | Hh]; [|by apply elem_of_nil in Hh].
    cbn [names_alt].
    change (lits (u "POEMA") _ (u "TEXTO" ++ pad3 ++ tail)) with (@None (string * list N)).
    change (lits (u "POEMA_CITADO") _ (u "TEXTO" ++ pad3 ++ tail))
      with (@None (string * list N)).
    cbv iota. by rewrite lits_app, Hrest. }
  intros a Ha. unfold header_at.
  apply ws_star_skip; [done| |].
  { intros c [= <-]. apply hash_not_space. }
  cbn [lit]. rewrite N.eqb_refl.
  apply ws_star_skip; [done| |done].
  intros c Hc. apply (header_first_not_space h); [done|].
  destruct (u h) as [|d l] eqn:Hu; [|done].
  exfalso. unfold SECTION_HEADERS in Hh.
  repeat (apply elem_of_cons in Hh as [-> | Hh]; [by vm_compute in Hu|]).
  by apply elem_of_nil in Hh.
Qed.

End HeaderShape.

Section LastSection.
Context `{PyUnicode} `{!PyTextLaws}.
Import Parser Documents.

Lemma finditer_skip_no_hash names bol skip pos s :
  35%N ∉ drop skip s -> finditer names bol skip pos s = [].
Proof.
  revert bol skip pos. induction s as [|c s IH]; intros bol skip pos Hs.
  { done. }
  destruct skip as [|skip]; [by apply finditer_no_hash|].
  simpl. by apply IH.
Qed.

(** After a match, the scan goes on behind it. *)
Lemma match_rest_skipped names c s X rest bol pos :
  c :: s = X ++ rest -> X <> [] -> 35%N ∉ rest ->
  finditer names bol (length (c :: s) - length rest - 1) pos s = [].
Proof.
  intros Hs HX Hrest. destruct X as [|x X]; [done|].
  injection Hs as -> ->. apply finditer_skip_no_hash.
  replace (length (x :: X ++ rest) - length rest - 1)%nat with (length X)
    by (simpl; rewrite length_app; lia).
  by rewrite drop_app_length.
Qed.

Lemma ahead_step c a1 a2 skip :
  last (c :: a1) = Some 10%N -> (skip <= S (length a1))%nat ->
  Forall (fun c => isspace c = true) a2 ->
  line_start_ahead (a1 ++ a2) (c =? 10)%N (pred skip).
Proof.
  intros Hlast Hskip Ha2. exists a1, a2. split_and!; [done|done|lia|].
  destruct a1 as [|d a1].
  - left. split; [done|]. injection Hlast as ->. done.
  - right. by rewrite last_cons_cons in Hlast.
Qed.

(** The first sign # of a text that does not start with whitespace
    only. *)
Lemma first_hash_split a B ws t :
  a ++ 35%N :: B = ws ++ 35%N :: t ->
  Forall (fun c => isspace c = true) ws ->
  ~ Forall (fun c => isspace c = true) a ->
  exists a3, a = ws ++ 35%N :: a3 /\ t = a3 ++ 35%N :: B.
Proof.
  revert a. induction ws as [|w ws IH]; intros a Heq Hws Ha.
  - destruct a as [|x a]; [by destruct Ha|].
    injection Heq as -> <-. by exists a.
  - apply Forall_cons in Hws as [Hw Hws].
    destruct a as [|x a].
    + injection Heq as <- _. by rewrite hash_not_space in Hw.
    + injection Heq as -> Heq.
      destruct (IH a Heq Hws) as (a3 & -> & ->).
      { intros Hall. apply Ha. by constructor. }
      by exists a3.
Qed.

Lemma no_hash_split mid rest a3 B :
  mid ++ rest = a3 ++ 35%N :: B -> 35%N ∉ mid ->
  exists k, a3 = mid ++ k /\ rest = k ++ 35%N :: B.
Proof.
  revert a3. induction mid as [|m mid IH]; intros a3 Heq Hmid.
  - by exists a3.
  - destruct a3 as [|x a3].
    + injection Heq as -> _. exfalso. apply Hmid. left.
    + injection Heq as -> Heq.
      destruct (IH a3 Heq) as (k & -> & ->).
      { intros Hin. apply Hmid. by right. }
      by exists k.
Qed.

(** A header before the last one ends before it, at a newline. *)
Lemma earlier_header_span a B ws mid rest :
  a ++ 35%N :: B = ws ++ 35%N :: mid ++ rest ->
  Forall (fun c => isspace c = true) ws ->
  35%N ∉ mid ->
  rest = [] \/ head rest = Some 10%N ->
  ~ Forall (fun c => isspace c = true) a ->
  exists k, a = (ws ++ 35%N :: mid) ++ 10%N :: k
            /\ rest = 10%N :: k ++ 35%N :: B.
Proof.
  intros Heq Hws Hmid Heol Ha.
  destruct (first_hash_split a B ws (mid ++ rest) Heq Hws Ha) as (a3 & -> & Ht).
  destruct (no_hash_split mid rest a3 B Ht Hmid) as (k & -> & ->).
  destruct k as [|x k].
  - destruct Heol as [Heol|Heol]; done.
  - destruct Heol as [Heol|Heol]; [done|]. injection Heol as ->.
    exists k. by rewrite <- app_assoc.
Qed.

(** The scan for the headers, with a header line ahead and no sign #
    after it: the last match is that line's. *)
Lemma finditer_last a B h rest bol skip pos :
  (forall ws, Forall (fun c => isspace c = true) ws ->
     header_at SECTION_HEADERS (ws ++ 35%N :: B) = Some (h, rest)) ->
  35%N ∉ rest ->
  line_start_ahead a bol skip ->
  exists ms p,
    finditer SECTION_HEADERS bol skip pos (a ++ 35%N :: B)
    = ms ++ [(p, h, (pos + length (a ++ 35%N :: B) - length rest)%nat)].
Proof.
  intros Hhdr Hrest.
  assert (forall ws pos', Forall (fun c => isspace c = true) ws ->
            exists p,
              finditer SECTION_HEADERS true 0 pos' (ws ++ 35%N :: B)
              = [(p, h, (pos' + length (ws ++ 35%N :: B) - length rest)%nat)])
    as Hours.
  { intros ws pos' Hws. exists pos'.
    pose proof (Hhdr ws Hws) as Hm.
    destruct (header_at_span _ _ _ Hm) as (ws' & mid & Hs & _ & _ & _).
    destruct (ws ++ 35%N :: B) as [|c s] eqn:Hcs.
    { by destruct ws. }
    cbn [finditer]. rewrite Hm.
    rewrite (match_rest_skipped _ c s (ws' ++ 35%N :: mid) rest).
    - f_equal. f_equal. rewrite Hs, !length_app. simpl.
      rewrite !length_app. lia.
    - by rewrite Hs, <- app_assoc.
    - by destruct ws'.
    - done. }
  revert bol skip pos.
  induction a as [|c a IH]; intros bol skip pos (a1 & a2 & Ha & Ha2 & Hskip & Hbol).
  { symmetry in Ha. apply app_eq_nil in Ha as [-> ->].
    destruct Hbol as [[_ ->]|Hbol]; [|done].
    simpl in Hskip. replace skip with 0%nat by lia.
    destruct (Hours [] pos) as [p Hp]; [done|].
    exists [], p. exact Hp. }
  assert (forall a1t,
            a1 = c :: a1t ->
            exists ms p,
              finditer SECTION_HEADERS (c =? 10)%N (pred skip) (S pos)
                (a ++ 35%N :: B)
              = ms ++ [(p, h, (pos + length ((c :: a) ++ 35%N :: B)
                               - length rest)%nat)]) as Hnext.
  { intros a1t ->. injection Ha as ->.
    destruct (IH (c =? 10)%N (pred skip) (S pos)) as (ms & p & Hms).
    - apply ahead_step; [|simpl in Hskip; lia|done].
      by destruct Hbol as [[? _]|?].
    - exists ms, p. rewrite Hms. do 3 f_equal. simpl. lia. }
  destruct skip as [|skip].
  2:{ destruct a1 as [|c' a1t]; [simpl in Hskip; lia|].
      injection Ha as <- Ha. cbn [finditer app].
      by apply (Hnext a1t). }
  destruct (decide (Forall (fun c => isspace c = true) (c :: a))) as [Hall|Hnot].
  { destruct bol.
    - destruct (Hours (c :: a) pos Hall) as [p Hp]. by exists [], p.
    - destruct a1 as [|c' a1t]; [by destruct Hbol as [[_ ?]|?]|].
      injection Ha as <- Ha. cbn [finditer app]. by apply (Hnext a1t). }
  destruct a1 as [|c' a1t].
  { simpl in Ha. subst a2. done. }
  injection Ha as <- Ha.
  cbn [finditer app].
  destruct (if bol then header_at SECTION_HEADERS (c :: a ++ 35%N :: B)
            else None) as [[h' rest']|] eqn:Hm.
  2:{ by apply (Hnext a1t). }
  destruct bol; [|done].
  destruct (header_at_span _ _ _ Hm) as (ws & mid & Hs & Hws & Hmid & Heol).
  destruct (earlier_header_span (c :: a) B ws mid rest' Hs Hws Hmid Heol Hnot)
    as (k & Hca & ->).
  destruct (ws ++ 35%N :: mid) as [|x X] eqn:HX; [by destruct ws|].
  injection Hca as <- Hak.
  destruct (IH (c =? 10)%N (length X) (S pos)) as (ms & p & Hms).
  { destruct (decide (length (c :: a1t) <= S (length (c :: X)))%nat)
      as [Hle|Hgt].
    - exists (X ++ [10%N]), k. split_and!.
      + by rewrite Hak, <- app_assoc.
      + assert (k = drop (S (length (c :: X)) - length (c :: a1t)) a2) as ->.
        { rewrite <- (drop_app_ge (c :: a1t)) by done.
          simpl. rewrite <- Ha, Hak.
          change (10%N :: k) with ([10%N] ++ k). rewrite app_assoc.
          symmetry. apply drop_app_length'. rewrite length_app. simpl. lia. }
        by apply Forall_drop.
      + rewrite length_app. lia.
      + right. apply last_snoc.
    - rewrite Ha. apply (ahead_step c a1t a2 (S (length X))).
      + by destruct Hbol as [[? _]|?].
      + simpl in Hgt. lia.
      + done. }
  eexists (_ :: ms), p.
  replace (length (c :: a ++ 35%N :: B)
           - length (10%N :: k ++ 35%N :: B) - 1)%nat with (length X).
  2:{ rewrite Hak. simpl. rewrite !length_app. simpl. rewrite ?length_app.
      simpl. lia. }
  rewrite Hms. simpl. do 4 f_equal. lia.
Qed.

Lemma sections_of_last raw ms p h e sections :
  sections_of raw (ms ++ [(p, h, e)]) sections !! h
  = Some (strip (slice e (length raw) raw)).
Proof.
  revert sections. induction ms as [|[[p' h'] e'] ms IH]; intros sections.
  - simpl. by rewrite lookup_insert_eq.
  - cbn [app sections_of]. apply IH.
Qed.

Lemma lstrip_skip ws s :
  Forall (fun c => isspace c = true) ws -> lstrip (ws ++ s) = lstrip s.
Proof. induction 1 as [|c ws Hc _ IH]; simpl; [done|]. by rewrite Hc. Qed.

(** The last section of a document is found. Take a text, as it is
    once the byte-order mark and the carriage returns are gone, whose
    last sign # opens a header line: the line starts the text or follows
    a newline, and is made of whitespace, the sign, whitespace, one of
    the three names and whitespace. The section of that name is then
    what follows the line, up to the end of the text, without the
    whitespace at its ends, whatever comes before the line. *)
Theorem last_section_found (text name pre pad1 pad2 pad3 tail : list N)
    (h : string) :
  replace_crlf (_strip_bom text)
  = pre ++ pad1 ++ [35%N] ++ pad2 ++ u h ++ pad3 ++ tail ->
  h ∈ SECTION_HEADERS ->
  pre = [] \/ last pre = Some 10%N ->
  Forall (fun c => isspace c = true) (pad1 ++ pad2 ++ pad3) ->
  tail = [] \/ head tail = Some 10%N ->
  35%N ∉ tail ->
  (parse_txt text name).2 !! h = Some (strip tail).
Proof.
  intros Hraw Hh Hpre Hpads Htail Hhash.
  apply Forall_app in Hpads as [Hpad1 Hpads].
  apply Forall_app in Hpads as [Hpad2 Hpad3].
  destruct (header_at_here h pad2 pad3 tail Hh Hpad2 Hpad3 Htail)
    as (ws & rest & Hsplit & Hws & Hhdr).
  assert (35%N ∉ rest) as Hrest.
  { intros Hin.
    assert (35%N ∈ pad3 ++ tail) as [Hp|Ht]%elem_of_app.
    { rewrite Hsplit. apply elem_of_app. by right. }
    - rewrite Forall_forall in Hpad3. apply Hpad3 in Hp.
      by rewrite hash_not_space in Hp.
    - done. }
  destruct (finditer_last (pre ++ pad1) (pad2 ++ u h ++ pad3 ++ tail) h rest
              true 0 0 Hhdr Hrest) as (ms & p & Hms).
  { exists pre, pad1. split_and!; [done|done|lia|].
    destruct Hpre as [-> | Hpre]; [by left|by right]. }
  destruct (header_at_span _ _ _ (Hhdr [] ltac:(constructor)))
    as (ws' & mid & Hs & _ & _ & _).
  unfold parse_txt. cbv zeta. cbn [snd].
  rewrite Hraw. cbn [app] in *. rewrite <- app_assoc in Hms.
  rewrite Hms, sections_of_last. f_equal.
  set (raw := pre ++ pad1 ++ 35%N :: pad2 ++ u h ++ pad3 ++ tail) in *.
  assert (raw = (pre ++ pad1 ++ ws' ++ 35%N :: mid) ++ rest) as Hsuffix.
  { unfold raw. rewrite Hs. by rewrite <- !app_assoc. }
  assert (slice (0 + length raw - length rest) (length raw) raw = rest) as ->.
  { unfold slice.
    replace (0 + length raw - length rest)%nat
      with (length (pre ++ pad1 ++ ws' ++ 35%N :: mid))
      by (rewrite Hsuffix, (length_app _ rest); lia).
    rewrite Hsuffix at 2. rewrite drop_app_length. apply take_ge.
    rewrite Hsuffix, (length_app _ rest). lia. }
  unfold strip. f_equal.
  by rewrite <- (lstrip_skip ws rest), <- Hsplit, lstrip_skip.
Qed.

End LastSection.

(** ** The fragment of the tables satisfies the laws of the parser *)

Lemma latin1_text_laws : @PyTextLaws latin1.
Proof.
  split; intros c; simpl; unfold Latin1.isdecimal, Latin1.isspace.
  - intros [H1 H2]%andb_true_iff. apply N.leb_le in H1, H2.
    apply bool_decide_eq_false. intros Hin.
    repeat (apply elem_of_cons in Hin as [-> | Hin]; [lia|]).
    by apply elem_of_nil in Hin.
  - intros Hc. apply bool_decide_eq_false. intros Hin.
    repeat (apply elem_of_cons in Hin as [-> | Hin]; [lia|]).
    by apply elem_of_nil in Hin.
Qed.

(** ** The further properties at the sample inputs *)

Section MoreInstances.
Import DailyBuild Parser Main Samples Documents.

(** The archive of 2025-02-01 is in order, and still is after the entry
    of 2025-03-01 has been merged into it. *)
Lemma merge_keeps_archive_ok_witness :
  More.archive_ok archive_file
  /\ encodable (entry_json (entry_of "2025-03-01")) = true
  /\ More.archive_ok (merge archive_file (entry_of "2025-03-01")).2.
Proof.
  assert (More.archive_ok archive_file) as Hok.
  { exists [february]. split; [reflexivity|]. split; [|split; [|split]].
    - apply Forall_cons_2; [|apply Forall_nil_2].
      exists [("date"%string, JStr (u "2025-02-01"))].
      split; [reflexivity|]. right. by eexists.
    - apply NoDup_singleton.
    - repeat constructor.
    - reflexivity. }
  split; [exact Hok|]. split; [reflexivity|].
  by apply (proj2 merge_keeps_archive_ok).
Defined.

(** Merging 2025-01-15 into the archive of 2025-02-01 and 2025-01-01
    puts it between the two. *)
Lemma merge_inserts_in_place_witness :
  merge (JsonFile (JArr two_entries)) (entry_of "2025-01-15")
  = (Ok [entry_json (entry_of "2025-02-01");
         entry_json (entry_of "2025-01-15");
         entry_json (entry_of "2025-01-01")],
     JsonFile (JArr [entry_json (entry_of "2025-02-01");
                     entry_json (entry_of "2025-01-15");
                     entry_json (entry_of "2025-01-01")]))
  /\ exists newer older,
       two_entries = newer ++ older
       /\ merge (JsonFile (JArr two_entries)) (entry_of "2025-01-15")
          = (Ok (newer ++ entry_json (entry_of "2025-01-15") :: older),
             JsonFile
               (JArr (newer ++ entry_json (entry_of "2025-01-15") :: older)))
       /\ Forall (fun e =>
                    ustr_leb (date (entry_of "2025-01-15")) (Spec.entry_date e)
                    = true) newer
       /\ Forall (fun e =>
                    ustr_leb (date (entry_of "2025-01-15")) (Spec.entry_date e)
                    = false) older.
Proof.
  split; [by vm_compute|].
  apply (merge_inserts_in_place (JsonFile (JArr two_entries)) two_entries
           (entry_of "2025-01-15")).
  - reflexivity.
  - repeat constructor; apply entry_json_archive_entry.
  - repeat constructor.
  - repeat constructor; intros (kv & [= <-] & Hd); by vm_compute in Hd.
  - reflexivity.
Defined.

(** The sample metadata give an entry of 2025-03-10, month 2025-03,
    whose title has lost the blanks around it. *)
Lemma build_entry_fields_witness :
  @build_entry latin1 dated_meta (u "textos/2025-03-10.txt") []
  = Ok orilla_entry
  /\ length (date orilla_entry) = 10%nat
  /\ length (month orilla_entry) = 7%nat
  /\ date orilla_entry = month orilla_entry ++ drop 7 (date orilla_entry)
  /\ Forall (fun field => @strip latin1 field = field)
       [date orilla_entry; my_poem_title orilla_entry;
        my_poem_snippet orilla_entry;
        poet (analysis orilla_entry); poem_title (analysis orilla_entry);
        poem_snippet (analysis orilla_entry);
        book_title (analysis orilla_entry)].
Proof.
  assert (@build_entry latin1 dated_meta (u "textos/2025-03-10.txt") []
          = Ok orilla_entry) as Hbuilt by (by vm_compute).
  split; [done|].
  apply (@build_entry_fields latin1 latin1_laws dated_meta
           (u "textos/2025-03-10.txt") [] orilla_entry Hbuilt).
Defined.

(** The sample document: its title line is read though its key is in
    small letters, and what is parsed is well formed. *)
Lemma parse_txt_wellformed_witness :
  (@parse_txt latin1 sample_txt sample_name).1 !! "my_poem_title"%string
  = Some (u "Orilla")
  /\ (@parse_txt latin1 sample_txt sample_name).2 !! "TEXTO"%string
     = Some (u "un analisis")
  /\ map_Forall (@wellformed_meta latin1)
       (@parse_txt latin1 sample_txt sample_name).1
  /\ map_Forall (fun h c => h ∈ SECTION_HEADERS /\ @strip latin1 c = c)
       (@parse_txt latin1 sample_txt sample_name).2.
Proof.
  split; [by vm_compute|]. split; [by vm_compute|].
  apply (@parse_txt_wellformed latin1 latin1_text_laws sample_txt sample_name).
Defined.

(** The sample document has a title and a poet of its own, and no title
    of the poem it cites: the warning names poem_title alone. *)
Lemma warn_missing_names_absent_witness :
  @warn_missing latin1 (@parse_txt latin1 sample_txt sample_name).1
  = ["poem_title"%string]
  /\ @warn_missing latin1 (@parse_txt latin1 sample_txt sample_name).1
     = filter (fun k => (@parse_txt latin1 sample_txt sample_name).1 !! k = None)
         ["my_poem_title"; "poet"; "poem_title"]%string.
Proof.
  split; [by vm_compute|].
  apply (@warn_missing_names_absent latin1 latin1_text_laws
           sample_txt sample_name).
Defined.

(** A date line with a key in mixed case, a blank before the key, a
    blank and a tab after the colon and a blank at the end. *)
Lemma meta_line_recognised_witness :
  @meta_step latin1 ∅
    ([32%N] ++ u "Fecha" ++ [] ++ [58%N] ++ [32%N; 9%N] ++ u "2025-03-10"
     ++ [32%N])
  = <["date"%string := u "2025-03-10"]> ∅.
Proof.
  apply (@meta_line_recognised latin1 latin1_text_laws ∅ "FECHA" "date"
           (u "Fecha") (u "2025-03-10") [32%N] [] [32%N; 9%N] [32%N]).
  - left.
  - by vm_compute.
  - repeat constructor.
  - done.
  - by vm_compute.
  - apply (bool_decide_unpack _). vm_compute. exact I.
Defined.

(** The sample document has no date line, and its file is called
    borrador-2025-03-10.txt: the entry is of 2025-03-10. A document with
    a date line keeps its date under any name of the file. *)
Lemma date_from_file_name_witness :
  (@parse_txt latin1 plain_txt (u "2024-01-01.txt")).1 !! "date"%string
  = Some (u "2025-03-10")
  /\ @Spec.iso_date latin1 (u "2025-03-10") = true
  /\ exists entry,
       @build_entry latin1 (@parse_txt latin1 sample_txt sample_name).1
         (u "textos/borrador-2025-03-10.txt") [] = Ok entry
       /\ date entry = u "2025-03-10"
       /\ month entry = take 7 (u "2025-03-10").
Proof.
  split.
  - destruct (@date_from_file_name latin1 latin1_laws latin1_text_laws
                plain_txt (u "2024-01-01.txt") [] []) as [Hblock _].
    apply Hblock. by vm_compute.
  - destruct (@date_from_file_name latin1 latin1_laws latin1_text_laws
                sample_txt sample_name (u "textos/borrador-2025-03-10.txt") [])
      as [_ Hname].
    apply Hname; by vm_compute.
Defined.

(** A run on the sample document with no archive yet writes an archive
    of one entry. A second run on the archive of 2025-02-01, with a
    response whose one keyword is a lone surrogate, fails at the write
    and leaves the file empty. *)
Lemma main_archive_outcomes_witness :
  (@main latin1 (Some sample_txt) sample_name
     (u "textos/borrador-2025-03-10.txt") no_args (Ok sample_response) NoFile
   = (Done, JsonFile (JArr [entry_json sample_entry]))
   /\ exists entries entry sorted,
        load_entries NoFile = Ok entries
        /\ any_same_date (date entry) entries = Ok false
        /\ JsonFile (JArr [entry_json sample_entry]) = JsonFile (JArr sorted)
        /\ sorted ≡ₚ entries ++ [entry_json entry]
        /\ encodable (JArr sorted) = true
        /\ @Spec.iso_date latin1 (date entry) = true
        /\ file entry = u "textos/borrador-2025-03-10.txt"
        /\ (length (keywords entry) <= 30)%nat)
  /\ (@main latin1 (Some sample_txt) sample_name
        (u "textos/borrador-2025-03-10.txt") no_args (Ok surrogate_response)
        archive_file
      = (Failed (Raised UnicodeEncodeError), EmptyFile)
      /\ (EmptyFile = archive_file
          \/ (Raised UnicodeEncodeError = Raised UnicodeEncodeError
              /\ EmptyFile = EmptyFile
              /\ exists entries entry,
                   load_entries archive_file = Ok entries
                   /\ any_same_date (date entry) entries = Ok false
                   /\ @Spec.iso_date latin1 (date entry) = true
                   /\ encodable (JArr (entries ++ [entry_json entry]))
                      = false))).
Proof.
  split.
  - assert (@main latin1 (Some sample_txt) sample_name
              (u "textos/borrador-2025-03-10.txt") no_args
              (Ok sample_response) NoFile
            = (Done, JsonFile (JArr [entry_json sample_entry]))) as Hmain
      by (by vm_compute).
    split; [done|].
    pose proof (@main_archive_outcomes latin1 latin1_laws (Some sample_txt)
                  sample_name (u "textos/borrador-2025-03-10.txt") no_args
                  (Ok sample_response) NoFile) as Hrun.
    rewrite Hmain in Hrun. exact Hrun.
  - assert (@main latin1 (Some sample_txt) sample_name
              (u "textos/borrador-2025-03-10.txt") no_args
              (Ok surrogate_response) archive_file
            = (Failed (Raised UnicodeEncodeError), EmptyFile)) as Hmain
      by (by vm_compute).
    split; [done|].
    pose proof (@main_archive_outcomes latin1 latin1_laws (Some sample_txt)
                  sample_name (u "textos/borrador-2025-03-10.txt") no_args
                  (Ok surrogate_response) archive_file) as Hrun.
    rewrite Hmain in Hrun. exact Hrun.
Defined.

(** A text of two lines and no section fails for want of an analysis,
    and the sample archive stays. *)
Lemma no_section_no_entry_witness :
  @main latin1 (Some plain_txt) sample_name (u "textos/2025-03-10.txt")
    no_args (Ok sample_response) archive_file
  = (Failed NoAnalysisText, archive_file).
Proof.
  apply (@no_section_no_entry latin1).
  apply (bool_decide_unpack _). vm_compute. exact I.
Defined.

(** The sample document ends with the header line of TEXTO, written
    with blanks around the sign and the name, and one line of analysis:
    that line is the section. *)
Lemma last_section_found_witness :
  (@parse_txt latin1 sample_txt sample_name).2 !! "TEXTO"%string
  = Some (@strip latin1 ([10%N] ++ u "un analisis" ++ [10%N]))
  /\ @strip latin1 ([10%N] ++ u "un analisis" ++ [10%N]) = u "un analisis".
Proof.
  split; [|by vm_compute].
  apply (@last_section_found latin1 latin1_text_laws sample_txt sample_name
           (of_lines ["POETA: Idea Vilarino"; "  mi_titulo :  Orilla  "; "";
                      "# POEMA"; "   "; "  la casa  "; "otra linea"; ""]%string)
           (u "  ") (u "  ") (u "  ") ([10%N] ++ u "un analisis" ++ [10%N])
           "TEXTO").
  - by vm_compute.
  - apply (bool_decide_unpack _). vm_compute. exact I.
  - right. by vm_compute.
  - repeat constructor.
  - right. reflexivity.
  - apply (bool_decide_unpack _). vm_compute. exact I.
Defined.

End MoreInstances.
